(** * The ledger and reward engine of the rewards bot (src/main.py)

    A shallow embedding of the SQLite-backed ledger, of the reward engines
    (daily bonus and streak, spin wheel, quiz, missions, referral), of the
    transfer conversation and of the daily audit, followed by the properties
    of the specification that concern them.

    Modelling conventions.
    - Amounts are Python floats in the source.  The reward engines and the
      transfer conversation are embedded with amounts as exact rationals
      ([Q], compared with [==]), and their properties are about the control
      flow: who is paid, when, how often and within which bounds.  What
      depends on the binary arithmetic itself (the balance column against
      the ledger, what /addbal books for any value [float()] reads, the
      figure /balance shows) is settled on the second embedding of the
      ledger core, module [F64], on IEEE 754 doubles with SQLite's NULL.
    - A calendar date is the ISO string of [datetime.date.today()] in the
      source; such strings are only ever compared for equality and "one day
      earlier", so a date is its day number ([Z]).  One handler invocation
      sees one value of "today" and of "now".  The rows that SQLite stamps
      with CURRENT_TIMESTAMP, which is UTC, are taken to fall on that same
      date; [F64.spin_start] keeps the local and the UTC date apart.
    - The single SQLite connection is a pair of databases: [work], which
      every statement of the connection reads and writes, and [disk], the
      committed image; [conn.commit()] copies the former onto the latter.
    - Everything a handler takes from outside (the clock, the random draws,
      whether the storage accepts a ledger append) is gathered in [env].
    - Ids are integers without bound; that SQLite refuses an id outside 64
      bits is part of [F64] only.
    - [SELECT id FROM users] of the daily audit has no ORDER BY; the
      accounts are visited in the order of [map_to_list].
    - Text rendered to the user is abstracted to a [reply] tag carrying the
      values the source interpolates; best-effort notifications (to the
      operator channel, to the recipient of a transfer) have no effect on
      the state, swallow their own errors, and are left out. *)

From stdpp Require Import gmap strings list fin_maps.
From Stdlib Require Import Ascii QArith Qround Qminmax Floats.

Local Open Scope Q_scope.

(** ** Amounts *)

(** Python's [a < b] and [a > b] on numbers. *)
Definition Qltb (a b : Q) : bool :=
  match a ?= b with Lt => true | _ => false end.
Definition Qgtb (a b : Q) : bool := Qltb b a.

(** [round(x, 2)]: Python rounds to the nearest multiple of 1/100, ties to
    the even neighbour. *)
Definition py_round2 (x : Q) : Q :=
  let y := x * 100 in
  let f := Qfloor y in
  let n := match y - inject_Z f ?= (1 # 2) with
           | Lt => f
           | Gt => (f + 1)%Z
           | Eq => if Z.even f then f else (f + 1)%Z
           end in
  inject_Z n / 100.

(** [safe_round], line 214:
    [round(float(math.floor(amount * 100 + 0.5)) / 100.0, 2)]. *)
Definition safe_round (amount : Q) : Q :=
  py_round2 (inject_Z (Qfloor (amount * 100 + 0.5)) / 100).

(** Rounding to two decimal places, half up, in the words of the
    specification: the nearest multiple of 1/100, a tie going to the larger
    neighbour. *)
Definition round_half_up_2dp (x : Q) : Q :=
  inject_Z (Qfloor (x * 100 + (1 # 2))) / 100.

(** An amount that needs no further rounding. *)
Definition two_decimals (x : Q) : Prop := x == round_half_up_2dp x.

(** Configuration constants, lines 56-59. *)
Definition DAILY_MAX_BONUS_PER_USER : Q := 20.0.
Definition MAX_SEND_PER_DAY : Q := 500.0.

(** ** Spin wheel *)

(** [spin_rewards_table], lines 557-567: reward and integer weight. *)
Definition spin_rewards_table : list (Q * Z) :=
  [ (0.0, 10%Z); (0.2, 25%Z); (0.5, 20%Z); (1.0, 15%Z);
    (2.0, 10%Z); (5.0, 5%Z); (10.0, 1%Z) ].

(** The loop of [spin_once], lines 573-578, over the remaining rows with the
    running total [upto]; the fall-through [return 0.0] is the empty case. *)
Fixpoint spin_walk (table : list (Q * Z)) (r upto : Z) : Q :=
  match table with
  | [] => 0.0
  | (reward, weight) :: rest =>
      let upto := (upto + weight)%Z in
      if (r <=? upto)%Z then reward else spin_walk rest r upto
  end.

Definition total_weight (table : list (Q * Z)) : Z :=
  foldr (λ rw acc, (rw.2 + acc)%Z) 0%Z table.

(** [spin_once], lines 569-578, at the draw [r] that
    [random.randint(1, total_weight)] returned. *)
Definition spin_once (r : Z) : Q := spin_walk spin_rewards_table r 0.

(** ** Data model: the tables of the executescript at lines 71-166 *)

(** A calendar date, as its day number. *)
Definition date : Type := Z.

(** A row of [users], keyed by [id].  [created_at] is never read and is
    left out. *)
Record user := mk_user {
  username : option string;
  first_name : option string;
  last_name : option string;
  balance : Q;                 (* REAL DEFAULT 0 *)
  last_bonus : option date;    (* DATE, NULL until the first bonus *)
  streak : Z;                  (* INTEGER DEFAULT 0 *)
  referred_by : option Z;
  is_banned : Z;               (* INTEGER DEFAULT 0 *)
  daily_sent : Q               (* REAL DEFAULT 0 *)
}.

(** The [reason] column holds an f-string; its constructors name the format
    and keep the interpolated values. *)
Inductive reason :=
  | ReasonNone                            (* "" *)
  | ReasonReferral (referred : Z)         (* "Referral for {user.id}" *)
  | ReasonDailyBonus (base sbonus : Q)    (* "daily_bonus (base {base} + streak {streak_bonus})" *)
  | ReasonTo (rec : Z)                    (* "to {rec}" *)
  | ReasonFrom (sender : Z)               (* "from {user}" *)
  | ReasonQuiz (qid : Z)                  (* "quiz q{qobj['id']}" *)
  | ReasonDailySpin                       (* "daily_spin" *)
  | ReasonMission (mid : Z)               (* "mission {mid}" *)
  | ReasonAdmin (admin : Z).              (* "Admin adjustment by {id}" *)

(** A row of [transactions]; the AUTOINCREMENT [id] of a row is its position
    in the list plus one.  [meta] is the dict passed to [json.dumps]: every
    dict the source builds maps one key to a number. *)
Record txn := mk_txn {
  t_user : Z;
  t_type : string;
  t_amount : Q;
  t_reason : reason;
  t_meta : list (string * Q)
}.

Record referral := mk_referral { referrer : Z; referred : Z }.

(** [ts] of these tables is only read through [DATE(ts)]. *)
Record spin := mk_spin { sp_user : Z; sp_reward : Q; sp_date : date }.

Record question := mk_question {
  q_id : Z;
  q_text : string;
  q_options : list string;
  q_answer_index : Z;
  q_reward : Q
}.

Record quiz_attempt := mk_attempt {
  qa_user : Z; qa_question : Z; qa_correct : Z; qa_date : date
}.

(** [condition_json] of a mission: the two keys the evaluation reads,
    [None] when the key is absent from the JSON object. *)
Record condition := mk_condition {
  c_referrals : option Z;
  c_spins : option Z
}.

Record mission := mk_mission {
  m_id : Z;
  m_code : string;
  m_title : string;
  m_description : string;
  m_reward : Q;
  m_condition : condition
}.

(** A row of [user_missions]; the table has no key, so rows accumulate. *)
Record user_mission := mk_user_mission {
  um_user : Z; um_mission : Z; um_completed : Z
}.

Record order := mk_order { o_user : Z; o_text : string; o_status : string }.

Record db := mk_db {
  users : gmap Z user;
  transactions : list txn;
  referrals : list referral;
  spins : list spin;
  quiz_questions : list question;
  user_quiz_history : list quiz_attempt;
  missions : list mission;
  user_missions : list user_mission;
  orders : list order
}.

(** [context.user_data] of one user: the keys the handlers use. *)
Record udata := mk_udata {
  send_recipient_ : option Z;
  send_amount_ : option Q;
  current_quiz : option question;
  awaiting_order : bool
}.

(** The whole program state: the connection, the per-user scratch dicts and
    the [calls] dict of the rate limiter that decorates [daily_bonus_cmd]. *)
Record state := mk_state {
  work : db;
  disk : db;
  user_data : gmap Z udata;
  calls : gmap Z (list Q)
}.

(** What a handler invocation takes from outside. *)
Record env := mk_env {
  today : date;            (* datetime.date.today() *)
  now : Q;                 (* datetime.datetime.utcnow().timestamp() *)
  rand_uniform : Q;        (* random.uniform(0.2, 5.0) *)
  spin_draw : Z;           (* random.randint(1, total_weight) *)
  pick : nat;              (* the row ORDER BY RANDOM() LIMIT 1 selects *)
  fault : nat → bool       (* fault e n: the storage refuses the ledger
                              append that would write transaction row n *)
}.

(** The sender of an update: [update.effective_user], whose names
    [ensure_user] copies from [update.message.from_user]. *)
Record tg_user := mk_tg_user {
  tg_id : Z;
  tg_username : option string;
  tg_first_name : option string;
  tg_last_name : option string
}.

(** Field updates. *)
Definition set_users (f : gmap Z user → gmap Z user) (d : db) : db :=
  mk_db (f (users d)) (transactions d) (referrals d) (spins d)
        (quiz_questions d) (user_quiz_history d) (missions d)
        (user_missions d) (orders d).
Definition set_transactions (f : list txn → list txn) (d : db) : db :=
  mk_db (users d) (f (transactions d)) (referrals d) (spins d)
        (quiz_questions d) (user_quiz_history d) (missions d)
        (user_missions d) (orders d).
Definition set_referrals (f : list referral → list referral) (d : db) : db :=
  mk_db (users d) (transactions d) (f (referrals d)) (spins d)
        (quiz_questions d) (user_quiz_history d) (missions d)
        (user_missions d) (orders d).
Definition set_spins (f : list spin → list spin) (d : db) : db :=
  mk_db (users d) (transactions d) (referrals d) (f (spins d))
        (quiz_questions d) (user_quiz_history d) (missions d)
        (user_missions d) (orders d).
Definition set_quiz_questions (f : list question → list question) (d : db) : db :=
  mk_db (users d) (transactions d) (referrals d) (spins d)
        (f (quiz_questions d)) (user_quiz_history d) (missions d)
        (user_missions d) (orders d).
Definition set_user_quiz_history
    (f : list quiz_attempt → list quiz_attempt) (d : db) : db :=
  mk_db (users d) (transactions d) (referrals d) (spins d)
        (quiz_questions d) (f (user_quiz_history d)) (missions d)
        (user_missions d) (orders d).
Definition set_missions (f : list mission → list mission) (d : db) : db :=
  mk_db (users d) (transactions d) (referrals d) (spins d)
        (quiz_questions d) (user_quiz_history d) (f (missions d))
        (user_missions d) (orders d).
Definition set_user_missions
    (f : list user_mission → list user_mission) (d : db) : db :=
  mk_db (users d) (transactions d) (referrals d) (spins d)
        (quiz_questions d) (user_quiz_history d) (missions d)
        (f (user_missions d)) (orders d).
Definition set_orders (f : list order → list order) (d : db) : db :=
  mk_db (users d) (transactions d) (referrals d) (spins d)
        (quiz_questions d) (user_quiz_history d) (missions d)
        (user_missions d) (f (orders d)).

Definition set_balance (f : Q → Q) (u : user) : user :=
  mk_user (username u) (first_name u) (last_name u) (f (balance u))
          (last_bonus u) (streak u) (referred_by u) (is_banned u)
          (daily_sent u).
Definition set_names (n1 n2 n3 : option string) (u : user) : user :=
  mk_user n1 n2 n3 (balance u) (last_bonus u) (streak u) (referred_by u)
          (is_banned u) (daily_sent u).
Definition set_bonus_streak (d : date) (k : Z) (u : user) : user :=
  mk_user (username u) (first_name u) (last_name u) (balance u) (Some d) k
          (referred_by u) (is_banned u) (daily_sent u).
Definition set_daily_sent (f : Q → Q) (u : user) : user :=
  mk_user (username u) (first_name u) (last_name u) (balance u)
          (last_bonus u) (streak u) (referred_by u) (is_banned u)
          (f (daily_sent u)).

Definition empty_udata : udata := mk_udata None None None false.
Definition set_send_recipient (r : Z) (x : udata) : udata :=
  mk_udata (Some r) (send_amount_ x) (current_quiz x) (awaiting_order x).
Definition set_send_amount (a : Q) (x : udata) : udata :=
  mk_udata (send_recipient_ x) (Some a) (current_quiz x) (awaiting_order x).
Definition set_current_quiz (q : option question) (x : udata) : udata :=
  mk_udata (send_recipient_ x) (send_amount_ x) q (awaiting_order x).
Definition set_awaiting_order (b : bool) (x : udata) : udata :=
  mk_udata (send_recipient_ x) (send_amount_ x) (current_quiz x) b.

(** ** The monad of handlers: state, and an exception that leaves the state
    as it was when raised (nothing in the source rolls back). *)

Inductive outcome (A : Type) :=
  | Done (a : A)
  | Raised.
Arguments Done {A} a.
Arguments Raised {A}.

Definition M (A : Type) : Type := state → outcome A * state.

Definition ret {A} (a : A) : M A := λ s, (Done a, s).
Definition bind {A B} (m : M A) (k : A → M B) : M B :=
  λ s, match m s with
       | (Done a, s') => k a s'
       | (Raised, s') => (Raised, s')
       end.
#[global] Instance M_ret : MRet M := @ret.
#[global] Instance M_bind : MBind M := λ A B k m, bind m k.

Definition raise {A} : M A := λ s, (Raised, s).
Definition gets {A} (f : state → A) : M A := λ s, (Done (f s), s).

(** The state after [cur.execute] of a statement that writes, and after
    [conn.commit()]. *)
Definition executed (f : db → db) (s : state) : state :=
  mk_state (f (work s)) (disk s) (user_data s) (calls s).
Definition committed (s : state) : state :=
  mk_state (work s) (work s) (user_data s) (calls s).

Definition execute (f : db → db) : M unit := λ s, (Done (), executed f s).

(** [db_commit], lines 170-171. *)
Definition db_commit : M unit := λ s, (Done (), committed s).

(** The scratch dict of a user, empty when the user has none yet. *)
Definition udata_of (s : state) (uid : Z) : udata :=
  default empty_udata (user_data s !! uid).
Definition with_udata (uid : Z) (f : udata → udata) (s : state) : state :=
  mk_state (work s) (disk s)
    (<[uid := f (udata_of s uid)]> (user_data s)) (calls s).
Definition update_udata (uid : Z) (f : udata → udata) : M unit :=
  λ s, (Done (), with_udata uid f s).
Definition with_calls (uid : Z) (l : list Q) (s : state) : state :=
  mk_state (work s) (disk s) (user_data s) (<[uid := l]> (calls s)).
Definition set_calls (uid : Z) (l : list Q) : M unit :=
  λ s, (Done (), with_calls uid l s).

(** [try: ... except Exception: ...] around a call, the handler only
    logging. *)
Definition try_ {A} (m : M A) : M unit :=
  λ s, ((Done (), (m s).2)).

Fixpoint for_each {A} (l : list A) (body : A → M unit) : M unit :=
  match l with
  | [] => mret ()
  | x :: rest => body x ;; for_each rest body
  end.

(** ** Utilities, lines 173-239 *)

Definition default_user : user := mk_user None None None 0 None 0 None 0 0.

(** The names of [user_obj.from_user], all NULL without a message. *)
Definition names_of (user_obj : option tg_user) (u : user) : user :=
  match user_obj with
  | Some o => set_names (tg_username o) (tg_first_name o) (tg_last_name o) u
  | None => u
  end.

(** [ensure_user], lines 173-192. *)
Definition ensure_user (user_id : Z) (user_obj : option tg_user)
    (ref_by : option Z) : M unit :=
  row ← gets (λ s, users (work s) !! user_id);
  match row with
  | None =>
      let u := mk_user None None None 0 None 0 ref_by 0 0 in
      execute (set_users (insert user_id (names_of user_obj u))) ;;
      db_commit
  | Some _ =>
      match user_obj with
      | Some o =>
          execute (set_users (alter (names_of (Some o)) user_id)) ;;
          db_commit
      | None => mret ()
      end
  end.

(** [get_balance], lines 194-197, as a query on a database. *)
Definition get_balance (d : db) (user_id : Z) : Q :=
  match users d !! user_id with
  | Some u => balance u
  | None => 0.0
  end.

(** [INSERT OR IGNORE INTO users (id) VALUES (?)]. *)
Definition insert_or_ignore_user (user_id : Z) (us : gmap Z user) : gmap Z user :=
  match us !! user_id with
  | Some _ => us
  | None => <[user_id := default_user]> us
  end.

(** The three statements of [add_transaction] on the working database. *)
Definition ledger_append (t : txn) (d : db) : db :=
  set_transactions (λ l, l ++ [t])
    (set_users (alter (set_balance (λ b, b + t_amount t)) (t_user t))
       (set_users (insert_or_ignore_user (t_user t)) d)).

(** [add_transaction], lines 199-212.  A storage fault makes the call raise
    before any of its statements has taken effect. *)
Definition add_transaction (e : env) (user_id : Z) (ttype : string)
    (amount : Q) (r : reason) (meta : list (string * Q)) : M unit :=
  n ← gets (λ s, length (transactions (work s)));
  if fault e n then raise
  else
    execute (set_users (insert_or_ignore_user user_id)) ;;
    execute (set_users (alter (set_balance (λ b, b + amount)) user_id)) ;;
    execute (set_transactions
               (λ l, l ++ [mk_txn user_id ttype amount r meta])) ;;
    db_commit.

(** [can_receive_bonus_today], lines 218-225. *)
Definition can_receive_bonus_today (e : env) (user_id : Z) : M bool :=
  row ← gets (λ s, users (work s) !! user_id);
  match row with
  | None => mret true
  | Some u =>
      match last_bonus u with
      | None => mret true
      | Some last => mret (bool_decide (last ≠ today e))
      end
  end.

(** [update_last_bonus_and_streak], lines 227-239. *)
Definition update_last_bonus_and_streak (e : env) (user_id : Z)
    (bonus_amount : Q) : M Z :=
  row ← gets (λ s, users (work s) !! user_id);
  let '(last, old) :=
    match row with
    | Some u => (last_bonus u, streak u)
    | None => (None, 0%Z)
    end in
  let yesterday := (today e - 1)%Z in
  let new := if bool_decide (last = Some yesterday)
             then (old + 1)%Z else 1%Z in
  execute (set_users (alter (set_bonus_streak (today e) new) user_id)) ;;
  db_commit ;;
  mret new.

(** ** What the handlers answer *)

Inductive reply :=
  | ReplyTooFast
  | ReplyWelcome (bal : Q)
  | ReplyBalance (bal : Q)
  | ReplyAlreadyClaimed
  | ReplyBonus (base : Q) (streak : Z) (sbonus total bal : Q)
  | ReplyAskRecipient
  | ReplyDigitsOnly
  | ReplyAskAmount
  | ReplyBadAmount
  | ReplyPositiveAmount
  | ReplyInsufficient (bal : Q)
  | ReplyDailyLimit
  | ReplyConfirmPrompt (rec : Z) (amount : Q)
  | ReplyCancelled
  | ReplyNoData
  | ReplyNoLongerSufficient (bal : Q)
  | ReplySent (amount : Q) (rec : Z)
  | ReplyAskOrder
  | ReplyOrderAccepted
  | ReplyUnknown
  | ReplyNoQuestions
  | ReplyQuestion (q : question)
  | ReplyQuizExpired
  | ReplyBadPayload
  | ReplyCorrect (reward : Q)
  | ReplyWrong
  | ReplySpinUsed
  | ReplySpinWon (reward bal : Q)
  | ReplySpinNothing
  | ReplyUsage
  | ReplyInvalidArgs
  | ReplyAdded (amount : Q) (uid : Z).

(** The value a conversation callback returns: the next state of its
    [ConversationHandler], [END], or [None] (the state stays). *)
Inductive conv :=
  | SEND_RECIPIENT | SEND_AMOUNT | SEND_CONFIRM | QUIZ_ANSWER | END | Stay.

(** ** Anti-fraud: [rate_limited], lines 249-269 *)

Definition rate_limited (max_per_minute : nat) (e : env) (uid : Z)
    (func : M reply) : M reply :=
  user_calls ← gets (λ s, default [] (calls s !! uid));
  let window := 60 in
  let user_calls := List.filter (λ t, Qltb (now e - t) window) user_calls in
  if bool_decide (max_per_minute ≤ length user_calls)%nat then
    mret ReplyTooFast
  else
    set_calls uid (user_calls ++ [now e]) ;;
    func.

(** ** Handlers *)

(** Lines 277-284 of [start_handler]: the referrer id carried by the
    payload of /start.  [py_int] is Python's [int] on strings, [None] where
    it raises. *)
Definition parse_start_args (py_int : string → option Z)
    (args : list string) : option Z :=
  match args with
  | [] => None
  | a :: _ =>
      if String.prefix "ref" a
      then py_int (String.substring 3 (String.length a - 3) a)
      else None
  end.

(** [start_handler], lines 285-314, from the parsed [ref_id] on. *)
Definition start_handler (e : env) (u : tg_user) (ref_id : option Z) : M reply :=
  let uid := tg_id u in
  ensure_user uid (Some u) ref_id ;;
  match ref_id with
  | Some r =>
      if bool_decide (r ≠ 0%Z ∧ r ≠ uid) then
        row ← gets (λ s, List.find (λ x, bool_decide (referred x = uid))
                           (referrals (work s)));
        match row with
        | None =>
            execute (set_referrals (λ l, l ++ [mk_referral r uid])) ;;
            add_transaction e r "referral" 4.0 (ReasonReferral uid)
              [("referred", inject_Z uid)] ;;
            db_commit
        | Some _ => mret ()
        end
      else mret ()
  | None => mret ()
  end ;;
  bal ← gets (λ s, get_balance (work s) uid);
  mret (ReplyWelcome (safe_round bal)).

(** [balance_cmd], lines 317-321. *)
Definition balance_cmd (u : tg_user) : M reply :=
  ensure_user (tg_id u) (Some u) None ;;
  bal ← gets (λ s, get_balance (work s) (tg_id u));
  mret (ReplyBalance (safe_round bal)).

(** The body of [daily_bonus_cmd], lines 337-358. *)
Definition daily_bonus_body (e : env) (u : tg_user) : M reply :=
  let uid := tg_id u in
  ensure_user uid (Some u) None ;;
  ok ← can_receive_bonus_today e uid;
  if negb ok then mret ReplyAlreadyClaimed
  else
    let base := py_round2 (rand_uniform e) in
    streak ← update_last_bonus_and_streak e uid base;
    let streak_bonus := py_round2 (inject_Z streak * 0.2) in
    let total := safe_round (base + streak_bonus) in
    let total := if Qgtb total DAILY_MAX_BONUS_PER_USER
                 then DAILY_MAX_BONUS_PER_USER else total in
    add_transaction e uid "bonus" total (ReasonDailyBonus base streak_bonus)
      [("streak", inject_Z streak)] ;;
    bal ← gets (λ s, get_balance (work s) uid);
    mret (ReplyBonus base streak streak_bonus total (safe_round bal)).

(** [daily_bonus_cmd] as registered: decorated at line 336. *)
Definition daily_bonus_cmd (e : env) (u : tg_user) : M reply :=
  rate_limited 6 e (tg_id u) (daily_bonus_body e u).

(** [send_start], lines 363-367. *)
Definition send_start (u : tg_user) : M (reply * conv) :=
  ensure_user (tg_id u) (Some u) None ;;
  mret (ReplyAskRecipient, SEND_RECIPIENT).

(** [send_recipient], lines 369-377; [rid] is [int(text)], [None] when
    [text.isdigit()] is false. *)
Definition send_recipient (u : tg_user) (rid : option Z) : M (reply * conv) :=
  match rid with
  | None => mret (ReplyDigitsOnly, SEND_RECIPIENT)
  | Some rid =>
      update_udata (tg_id u) (set_send_recipient rid) ;;
      mret (ReplyAskAmount, SEND_AMOUNT)
  end.

(** [send_amount], lines 379-423; [parsed] is the amount lines 380-392
    read from the text, [None] when they raise. *)
Definition send_amount (u : tg_user) (parsed : option Q) : M (reply * conv) :=
  match parsed with
  | None => mret (ReplyBadAmount, SEND_AMOUNT)
  | Some amount =>
      let amount := safe_round amount in
      if negb (Qgtb amount 0) then mret (ReplyPositiveAmount, SEND_AMOUNT)
      else
        let sender := tg_id u in
        bal ← gets (λ s, get_balance (work s) sender);
        if Qgtb amount bal then mret (ReplyInsufficient bal, END)
        else
          row ← gets (λ s, users (work s) !! sender);
          let sent := match row with
                      | Some x => daily_sent x
                      | None => 0.0
                      end in
          if Qgtb (sent + amount) MAX_SEND_PER_DAY
          then mret (ReplyDailyLimit, END)
          else
            update_udata sender (set_send_amount amount) ;;
            rec ← gets (λ s, send_recipient_ (udata_of s sender));
            match rec with
            | None => raise        (* KeyError: 'send_recipient' *)
            | Some rec => mret (ReplyConfirmPrompt rec amount, SEND_CONFIRM)
            end
  end.

(** [send_confirm], lines 425-459; [data] is the callback data. *)
Definition send_confirm (e : env) (u : tg_user) (data : string) : M (reply * conv) :=
  let user := tg_id u in
  if bool_decide (data = "cancel_send") then mret (ReplyCancelled, END)
  else
    rec ← gets (λ s, send_recipient_ (udata_of s user));
    amt ← gets (λ s, send_amount_ (udata_of s user));
    match rec, amt with
    | Some rec, Some amt =>
        ensure_user rec None None ;;
        bal ← gets (λ s, get_balance (work s) user);
        if Qgtb amt bal then mret (ReplyNoLongerSufficient bal, END)
        else
          add_transaction e user "transfer_out" (- amt) (ReasonTo rec)
            [("to", inject_Z rec)] ;;
          add_transaction e rec "transfer_in" amt (ReasonFrom user)
            [("from", inject_Z user)] ;;
          execute (set_users (alter (set_daily_sent (λ x, x + amt)) user)) ;;
          db_commit ;;
          mret (ReplySent amt rec, END)
    | _, _ => mret (ReplyNoData, END)
    end.

(** [order_start] and [order_message_handler], lines 462-482. *)
Definition order_start (u : tg_user) : M reply :=
  ensure_user (tg_id u) (Some u) None ;;
  update_udata (tg_id u) (set_awaiting_order true) ;;
  mret ReplyAskOrder.

Definition order_message_handler (u : tg_user) (text : string) : M reply :=
  waiting ← gets (λ s, awaiting_order (udata_of s (tg_id u)));
  if waiting : bool then
    execute (set_orders (λ l, l ++ [mk_order (tg_id u) text "new"])) ;;
    db_commit ;;
    update_udata (tg_id u) (set_awaiting_order false) ;;
    mret ReplyOrderAccepted
  else mret ReplyUnknown.

(** [ORDER BY RANDOM() LIMIT 1] over the rows [l]. *)
Definition choose {A} (e : env) (l : list A) : option A :=
  l !! (pick e mod length l)%nat.

(** [get_random_quiz_question], lines 488-508. *)
Definition get_random_quiz_question (e : env) (user_id : Z) : M (option question) :=
  qs ← gets (λ s, quiz_questions (work s));
  hist ← gets (λ s, user_quiz_history (work s));
  let answered :=
    map qa_question
      (List.filter (λ h, bool_decide (qa_user h = user_id ∧ qa_date h = today e))
         hist) in
  let fresh := List.filter (λ q, bool_decide (q_id q ∉ answered)) qs in
  match choose e fresh with
  | Some row => mret (Some row)
  | None => mret (choose e qs)
  end.

(** [quiz_start], lines 510-522. *)
Definition quiz_start (e : env) (u : tg_user) : M (reply * conv) :=
  ensure_user (tg_id u) (Some u) None ;;
  q ← get_random_quiz_question e (tg_id u);
  match q with
  | None => mret (ReplyNoQuestions, END)
  | Some q =>
      update_udata (tg_id u) (set_current_quiz (Some q)) ;;
      mret (ReplyQuestion q, QUIZ_ANSWER)
  end.

(** [quiz_answer_cb], lines 524-552; [sel] is the selected index parsed
    from the payload "quiz|qid|index", [None] when lines 533-534 raise. *)
Definition quiz_answer_cb (e : env) (u : tg_user) (sel : option Z) : M (reply * conv) :=
  let uid := tg_id u in
  qobj ← gets (λ s, current_quiz (udata_of s uid));
  match qobj with
  | None => mret (ReplyQuizExpired, Stay)
  | Some qobj =>
      match sel with
      | None => mret (ReplyBadPayload, END)
      | Some sel =>
          let correct := bool_decide (sel = q_answer_index qobj) in
          execute (set_user_quiz_history
                     (λ l, l ++ [mk_attempt uid (q_id qobj)
                                   (if correct then 1 else 0) (today e)])) ;;
          db_commit ;;
          r ← (if correct then
                 let reward := q_reward qobj in
                 add_transaction e uid "quiz" reward (ReasonQuiz (q_id qobj))
                   [("question", inject_Z (q_id qobj))] ;;
                 mret (ReplyCorrect reward)
               else mret ReplyWrong);
          update_udata uid (set_current_quiz None) ;;
          mret (r, END)
      end
  end.

(** [spin_start], lines 580-599. *)
Definition spin_start (e : env) (u : tg_user) : M reply :=
  let uid := tg_id u in
  ensure_user uid (Some u) None ;;
  cnt ← gets (λ s, length (List.filter
                     (λ x, bool_decide (sp_user x = uid ∧ sp_date x = today e))
                     (spins (work s))));
  if bool_decide (1 ≤ cnt)%nat then mret ReplySpinUsed
  else
    let reward := spin_once (spin_draw e) in
    add_transaction e uid "spin" reward ReasonDailySpin [("reward", reward)] ;;
    execute (set_spins (λ l, l ++ [mk_spin uid reward (today e)])) ;;
    db_commit ;;
    bal ← gets (λ s, get_balance (work s) uid);
    if Qgtb reward 0 then mret (ReplySpinWon reward (safe_round bal))
    else mret ReplySpinNothing.

(** [create_sample_missions], lines 603-613. *)
Definition sample_missions : list mission :=
  [ mk_mission 1 "ref1" "Taklif et 1 do'st"
      "1 do'st taklif eting va +4 rubl oling" 4.0
      (mk_condition (Some 1%Z) None);
    mk_mission 2 "spin1" "Bepul Spin" "Bepul spin bajarish" 0.5
      (mk_condition None (Some 1%Z)) ].

Definition create_sample_missions : M unit :=
  n ← gets (λ s, length (missions (work s)));
  if bool_decide (n = 0%nat) then
    execute (set_missions (λ l, l ++ sample_missions)) ;;
    db_commit
  else mret ().

(** [SELECT completed FROM user_missions WHERE user_id=? AND mission_id=?]
    followed by [fetchone()]: the first matching row. *)
Definition completed_row (d : db) (user_id mid : Z) : option Z :=
  um_completed <$>
    List.find (λ r, bool_decide (um_user r = user_id ∧ um_mission r = mid))
      (user_missions d).

(** Lines 626-637: the thresholds of a condition against the counts. *)
Definition condition_met (d : db) (user_id : Z) (c : condition) : bool :=
  let count := Z.of_nat (length (List.filter
                 (λ r, bool_decide (referrer r = user_id)) (referrals d))) in
  let sc := Z.of_nat (length (List.filter
                 (λ x, bool_decide (sp_user x = user_id)) (spins d))) in
  let ok1 := match c_referrals c with
             | Some n => if bool_decide (n ≠ 0%Z)
                         then negb (bool_decide (count < n)%Z) else true
             | None => true
             end in
  let ok2 := match c_spins c with
             | Some n => if bool_decide (n ≠ 0%Z)
                         then negb (bool_decide (sc < n)%Z) else true
             | None => true
             end in
  ok1 && ok2.

(** One turn of the loop of [check_and_apply_missions_for_user],
    lines 619-644. *)
Definition mission_turn (e : env) (user_id : Z) (m : mission) : M unit :=
  rr ← gets (λ s, completed_row (work s) user_id (m_id m));
  if bool_decide (rr = Some 1%Z) then mret ()
  else
    ok ← gets (λ s, condition_met (work s) user_id (m_condition m));
    if ok : bool then
      execute (set_user_missions
                 (λ l, l ++ [mk_user_mission user_id (m_id m) 1])) ;;
      add_transaction e user_id "mission_reward" (m_reward m)
        (ReasonMission (m_id m)) []
    else mret ().

(** [check_and_apply_missions_for_user], lines 615-645. *)
Definition check_and_apply_missions_for_user (e : env) (user_id : Z) : M unit :=
  rows ← gets (λ s, missions (work s));
  for_each rows (mission_turn e user_id) ;;
  db_commit.

(** The arguments of /addbal as lines 673-681 read them. *)
Inductive addbal_args :=
  | ArgsTooFew                       (* len(context.args) < 2 *)
  | ArgsInvalid                      (* int() or float() raised *)
  | ArgsOk (uid : Z) (amt : Q).

(** [admin_add_balance_cmd], lines 671-684. *)
Definition admin_add_balance_cmd (e : env) (u : tg_user) (args : addbal_args) : M reply :=
  match args with
  | ArgsTooFew => mret ReplyUsage
  | ArgsInvalid => mret ReplyInvalidArgs
  | ArgsOk uid amt =>
      ensure_user uid None None ;;
      add_transaction e uid "admin_adjust" amt (ReasonAdmin (tg_id u)) [] ;;
      mret (ReplyAdded amt uid)
  end.

(** [daily_audit_job], lines 687-702. *)
Definition daily_audit_job (e : env) : M unit :=
  execute (set_users (fmap (set_daily_sent (λ _, 0)))) ;;
  db_commit ;;
  rows ← gets (λ s, (map_to_list (users (work s))).*1);
  for_each rows (λ uid, try_ (check_and_apply_missions_for_user e uid)).

(** [setup_sample_questions], lines 705-717. *)
Definition sample_questions : list question :=
  [ mk_question 1 "O'zbekiston poytaxti qaysi?"
      ["Toshkent"; "Samarqand"; "Buxoro"; "Namangan"] 0 0.5;
    mk_question 2 "Python qaysi yil paydo bo'ldi?"
      ["1989"; "1991"; "1994"; "2000"] 1 0.5;
    mk_question 3 "Telegram kim tomonidan asos solingan?"
      ["Pavel Durov"; "Mark Zuckerberg"; "Elon Musk"; "Bill Gates"] 0 0.5 ].

Definition setup_sample_questions : M unit :=
  n ← gets (λ s, length (quiz_questions (work s)));
  if bool_decide (n = 0%nat) then
    execute (set_quiz_questions (λ l, l ++ sample_questions)) ;;
    db_commit
  else mret ().

(** Start of the process, lines 66-68 and 779-782: the connection opens on
    the database file, the dicts in memory are empty, and [main] seeds the
    sample data. *)
Definition open_db (d : db) : state := mk_state d d ∅ ∅.

Definition main : M unit :=
  setup_sample_questions ;;
  create_sample_missions.

Definition empty_db : db := mk_db ∅ [] [] [] [] [] [] [] [].

(** The first start, on an empty database file. *)
Definition initial_state : state := (main (open_db empty_db)).2.

(** ** Inbound events and the transition they cause *)

Inductive action :=
  | Start (u : tg_user) (ref_id : option Z)
  | Balance (u : tg_user)
  | DailyBonus (u : tg_user)
  | SendStart (u : tg_user)
  | SendRecipient (u : tg_user) (rid : option Z)
  | SendAmount (u : tg_user) (parsed : option Q)
  | SendConfirm (u : tg_user) (data : string)
  | OrderStart (u : tg_user)
  | OrderMessage (u : tg_user) (text : string)
  | QuizStart (u : tg_user)
  | QuizAnswer (u : tg_user) (sel : option Z)
  | SpinStart (u : tg_user)
  | AdminAddBalance (u : tg_user) (args : addbal_args)
  | DailyAudit
  | Restart.

(** A computation run for its effect. *)
Definition run_ {A} (m : M A) : M unit := m ;; mret ().

(** The handlers that only read ([transactions_cmd], [leaderboard_cmd],
    [admin_stats_cmd]) cause no transition.  Handlers are taken in any
    order, whatever the routing of [register_handlers] lets through. *)
Definition handle (e : env) (a : action) : M unit :=
  match a with
  | Start u ref_id => run_ (start_handler e u ref_id)
  | Balance u => run_ (balance_cmd u)
  | DailyBonus u => run_ (daily_bonus_cmd e u)
  | SendStart u => run_ (send_start u)
  | SendRecipient u rid => run_ (send_recipient u rid)
  | SendAmount u parsed => run_ (send_amount u parsed)
  | SendConfirm u data => run_ (send_confirm e u data)
  | OrderStart u => run_ (order_start u)
  | OrderMessage u text => run_ (order_message_handler u text)
  | QuizStart u => run_ (quiz_start e u)
  | QuizAnswer u sel => run_ (quiz_answer_cb e u sel)
  | SpinStart u => run_ (spin_start e u)
  | AdminAddBalance u args => run_ (admin_add_balance_cmd e u args)
  | DailyAudit => daily_audit_job e
  | Restart => λ s, main (open_db (disk s))
  end.

Definition step (s s' : state) : Prop :=
  ∃ e a, s' = (handle e a s).2.

Inductive reachable : state → Prop :=
  | reachable_init : reachable initial_state
  | reachable_step s e a :
      reachable s → reachable (handle e a s).2.

(** ** Queries of the specification *)

(** [ListEvents]: the ledger events of an account, oldest first. *)
Definition list_events (d : db) (uid : Z) : list txn :=
  List.filter (λ t, bool_decide (t_user t = uid)) (transactions d).

Definition sum_amounts (l : list txn) : Q :=
  foldr (λ t acc, t_amount t + acc) 0 l.

(** ** Weakest preconditions of handlers *)

(** [wp m Q E s]: run from [s], [m] either returns [a] in a state satisfying
    [Q a], or raises in a state satisfying [E]. *)
Definition wp {A} (m : M A) (Q : A → state → Prop) (E : state → Prop)
    (s : state) : Prop :=
  match m s with
  | (Done a, s') => Q a s'
  | (Raised, s') => E s'
  end.

(** The state [add_transaction] leaves when the storage accepts the row. *)
Definition appended (t : txn) (s : state) : state :=
  committed (executed (ledger_append t) s).

(** The state [ensure_user] leaves. *)
Definition ensured (user_id : Z) (user_obj : option tg_user)
    (ref_by : option Z) (s : state) : state :=
  (ensure_user user_id user_obj ref_by s).2.

(** The users table [ensure_user] leaves. *)
Definition ensure_row (user_id : Z) (user_obj : option tg_user)
    (ref_by : option Z) (us : gmap Z user) : gmap Z user :=
  match us !! user_id with
  | None =>
      <[user_id := names_of user_obj
                     (mk_user None None None 0 None 0 ref_by 0 0)]> us
  | Some _ =>
      match user_obj with
      | Some o => alter (names_of (Some o)) user_id us
      | None => us
      end
  end.

(** The columns of an account the daily bonus reads and writes, for an
    account without a row what the handlers take in its place. *)
Definition stored_last_bonus (d : db) (uid : Z) : option date :=
  users d !! uid ≫= last_bonus.
Definition stored_streak (d : db) (uid : Z) : Z :=
  default 0%Z (streak <$> users d !! uid).

(** The calls of the last 60 seconds the rate limiter counts. *)
Definition recent_calls (e : env) (uid : Z) (s : state) : list Q :=
  List.filter (λ t, Qltb (now e - t) 60) (default [] (calls s !! uid)).

(** The streak a claim made today stores: one more than the stored streak
    when the stored last-bonus date is yesterday, otherwise 1. *)
Definition next_streak (e : env) (d : db) (uid : Z) : Z :=
  if bool_decide (stored_last_bonus d uid = Some (today e - 1)%Z)
  then (stored_streak d uid + 1)%Z else 1%Z.




(** What a run of the mission loop for [uid] keeps of the database [d]. *)
Definition missions_stable (uid : Z) (d d' : db) : Prop :=
  referrals d' = referrals d ∧ spins d' = spins d ∧
  missions d' = missions d ∧
  ∀ mid, completed_row d uid mid = Some 1%Z →
         completed_row d' uid mid = Some 1%Z.

(** ** Invariants of the reachable states *)

(** The cached balance of every account is the sum of its events. *)
Definition ledger_ok (d : db) : Prop :=
  ∀ uid, get_balance d uid == sum_amounts (list_events d uid).

(** Every event other than an admin adjustment carries an amount that
    needs no further rounding. *)
Definition amounts_ok (d : db) : Prop :=
  ∀ t, t ∈ transactions d → t_type t ≠ "admin_adjust" →
       two_decimals (t_amount t).

Definition rewards_ok (d : db) : Prop :=
  (∀ q, q ∈ quiz_questions d → two_decimals (q_reward q)) ∧
  (∀ m, m ∈ missions d → two_decimals (m_reward m)).

(** Rows of [user_missions] are only ever written with [completed = 1]. *)
Definition completions_ok (d : db) : Prop :=
  ∀ r, r ∈ user_missions d → um_completed r = 1%Z.

(** At most one referral link per referred account, and none from an
    account to itself. *)
Definition referrals_ok (d : db) : Prop :=
  NoDup (map referred (referrals d)) ∧
  ∀ row, row ∈ referrals d → referrer row ≠ referred row.

Record good_db (d : db) : Prop := mk_good_db {
  good_ledger : ledger_ok d;
  good_amounts : amounts_ok d;
  good_rewards : rewards_ok d;
  good_completions : completions_ok d;
  good_referrals : referrals_ok d
}.

Definition good_udata (x : udata) : Prop :=
  (∀ a, send_amount_ x = Some a → two_decimals a) ∧
  (∀ q, current_quiz x = Some q → two_decimals (q_reward q)).

Record Inv (s : state) : Prop := mk_Inv {
  inv_work : good_db (work s);
  inv_disk : good_db (disk s);
  inv_txs : transactions (work s) = transactions (disk s);
  inv_udata : ∀ uid x, user_data s !! uid = Some x → good_udata x
}.

(** The ledger has grown from the rows [l], and holds no uncommitted row. *)
Definition grown_from (l : list txn) (s : state) : Prop :=
  l `prefix_of` transactions (work s) ∧
  transactions (work s) = transactions (disk s).

(** What a handler run leaves of the referral links, of the ledger and of
    the balances when it issues no referral. *)
Definition no_referral_issued (s s' : state) : Prop :=
  referrals (work s') = referrals (work s) ∧
  transactions (work s') = transactions (work s) ∧
  ∀ uid, get_balance (work s') uid == get_balance (work s) uid.

(** ** Further invariants of the reachable states *)

(** The event [t] is the reward of mission [mid] paid to [uid]. *)
Definition is_mission_reward (uid mid : Z) (t : txn) : bool :=
  bool_decide (t_user t = uid) &&
  String.eqb (t_type t) "mission_reward" &&
  match t_reason t with
  | ReasonMission m => bool_decide (m = mid)
  | _ => false
  end.

(** How often mission [mid] has been paid to [uid]. *)
Definition rewards_paid (d : db) (uid mid : Z) : nat :=
  length (List.filter (is_mission_reward uid mid) (transactions d)).

(** The rows of [spins] of [uid] on [day], as [spin_start] counts them. *)
Definition spins_on (d : db) (uid : Z) (day : date) : nat :=
  length (List.filter
            (λ x, bool_decide (sp_user x = uid ∧ sp_date x = day)) (spins d)).

Definition spins_once (d : db) : Prop :=
  ∀ uid day, (spins_on d uid day ≤ 1)%nat.

(** A mission is paid at most once to an account, and only with a row of
    [user_missions] for it. *)
Definition rewarded_once (d : db) : Prop :=
  ∀ uid mid,
    (rewards_paid d uid mid ≤ 1)%nat ∧
    ((1 ≤ rewards_paid d uid mid)%nat →
     ∃ row, row ∈ user_missions d ∧ um_user row = uid ∧ um_mission row = mid).

Record good2 (d : db) : Prop := mk_good2 {
  good_spins : spins_once d;
  good_paid : rewarded_once d
}.

Record Inv2 (s : state) : Prop := mk_Inv2 {
  inv2_work : good2 (work s);
  inv2_disk : good2 (disk s);
  inv2_calls : ∀ uid l, calls s !! uid = Some l → (length l ≤ 6)%nat
}.

(** Every account has sent nothing today. *)
Definition nothing_sent (d : db) : Prop :=
  ∀ uid row, users d !! uid = Some row → daily_sent row = 0.

(** The account has a row of [user_quiz_history] for the question with
    today's date. *)
Definition attempted_today (e : env) (d : db) (uid qid : Z) : Prop :=
  ∃ h, h ∈ user_quiz_history d ∧
       qa_user h = uid ∧ qa_date h = today e ∧ qa_question h = qid.

(** The daily-sent counter [send_amount] reads for an account. *)
Definition stored_daily_sent (d : db) (uid : Z) : Q :=
  match users d !! uid with
  | Some x => daily_sent x
  | None => 0.0
  end.

(** ** Scenarios on which the properties are exercised *)

Definition alice : tg_user := mk_tg_user 1 (Some "alice") (Some "Alice") None.
Definition bob : tg_user := mk_tg_user 2 (Some "bob") (Some "Bob") None.
Definition operator : tg_user := mk_tg_user 9 None (Some "Op") None.

(** A day [d], a time [t], a healthy storage. *)
Definition calm (d : Z) (t : Q) : env :=
  mk_env d t 1.0 10 0 (λ _, false).

(** The state after a chain of inbound events. *)
Definition after (evs : list (env * action)) (s : state) : state :=
  foldl (λ s ea, (handle ea.1 ea.2 s).2) s evs.

(** Bob joins through Alice's referral link. *)
Definition bob_referred : state :=
  after [(calm 100 0, Start bob (Some 1%Z))] initial_state.

(** The operator credits 0.001 to account 1. *)
Definition admin_credit : state :=
  after [(calm 100 0, AdminAddBalance operator (ArgsOk 1 0.001))]
    initial_state.

(** Alice claimed her bonus on day 99; it is now day 100. *)
Definition alice_claimed_yesterday : state :=
  after [(calm 99 0, DailyBonus alice)] initial_state.

(** A day [d], a time [t], a storage that refuses every ledger append. *)
Definition storage_down (d : Z) (t : Q) : env :=
  mk_env d t 1.0 10 0 (λ _, true).

(** Alice tapped the bonus button six times within six seconds late on day
    99: the first tap was paid, the others answered "already claimed". *)
Definition alice_tapped_six_times : state :=
  after [(calm 99 0, DailyBonus alice); (calm 99 1, DailyBonus alice);
         (calm 99 2, DailyBonus alice); (calm 99 3, DailyBonus alice);
         (calm 99 4, DailyBonus alice); (calm 99 5, DailyBonus alice)]
    initial_state.

(** The operator has credited 10 to Alice and Bob has joined; Alice then
    walks through the transfer conversation up to the confirmation, for 5 to
    Bob, or for 5 to herself. *)
Definition alice_funded : state :=
  after [(calm 100 0, AdminAddBalance operator (ArgsOk 1 10));
         (calm 100 1, Start bob None)] initial_state.

Definition alice_sends_to_bob : state :=
  after [(calm 100 2, SendStart alice);
         (calm 100 3, SendRecipient alice (Some 2%Z));
         (calm 100 4, SendAmount alice (Some 5))] alice_funded.


(** A storage that accepts the first ledger append of the transfer (row 1,
    after the admin adjustment) and refuses the second (row 2). *)
Definition second_append_fails : env :=
  mk_env 100%Z 5 1.0 10 0 (λ n, Nat.eqb n 2).

(** Alice has referred Bob, and the daily audit has paid her the mission
    "refer 1 friend" (mission 1). *)
Definition alice_mission_paid : state :=
  after [(calm 100 0, Start alice None);
         (calm 100 1, Start bob (Some 1%Z));
         (calm 101 0, DailyAudit)] initial_state.

(** Alice has used her free spin of day 100 (the draw is 10). *)
Definition alice_spun : state :=
  after [(calm 100 0, SpinStart alice)] initial_state.

(** ** The amount typed in the transfer conversation *)













(** ** What an evaluation of the missions may pay *)

(** The event [t] is the reward of a mission of [d] that [uid] has not
    completed in [d] and whose thresholds [uid] meets in [d]. *)
Definition earned_reward (d : db) (uid : Z) (t : txn) : Prop :=
  ∃ m, m ∈ missions d ∧
       t = mk_txn uid "mission_reward" (m_reward m) (ReasonMission (m_id m)) [] ∧
       condition_met d uid (m_condition m) = true ∧
       completed_row d uid (m_id m) ≠ Some 1%Z.

(** While missions are evaluated for [uid] from the database [d0]: the
    ledger has grown by rewards earned in [d0]. *)
Definition paying_earned (d0 : db) (uid : Z) (s : state) : Prop :=
  missions_stable uid d0 (work s) ∧
  ∃ new, transactions (work s) = transactions d0 ++ new ∧
         ∀ t, t ∈ new → earned_reward d0 uid t.

(** ** The direction of transfers *)

(** Every transfer of the ledger moves a positive amount: out of the
    sender's account, into the recipient's. *)
Definition transfers_positive (d : db) : Prop :=
  ∀ t, t ∈ transactions d →
    (t_type t = "transfer_out" → t_amount t < 0) ∧
    (t_type t = "transfer_in" → 0 < t_amount t).

(** The amount a transfer conversation holds is positive. *)
Definition positive_pending (x : udata) : Prop :=
  ∀ a, send_amount_ x = Some a → 0 < a.

Record Inv3 (s : state) : Prop := mk_Inv3 {
  inv3_work : transfers_positive (work s);
  inv3_disk : transfers_positive (disk s);
  inv3_udata : ∀ uid x, user_data s !! uid = Some x → positive_pending x
}.

(** ** The seeded tables *)

(** The questions and the missions are the samples of lines 603-613 and
    705-717. *)
Definition seeded (d : db) : Prop :=
  quiz_questions d = sample_questions ∧ missions d = sample_missions.

Record Inv4 (s : state) : Prop := mk_Inv4 {
  inv4_work : seeded (work s);
  inv4_disk : seeded (disk s)
}.

(** ** No overdraft *)

(** Unless an event other than the debit of a transfer carries a negative
    amount, no balance is negative. *)
Definition solvent (d : db) : Prop :=
  (∀ t, t ∈ transactions d → t_type t ≠ "transfer_out" → 0 <= t_amount t) →
  ∀ uid, 0 <= get_balance d uid.

Record Inv5 (s : state) : Prop := mk_Inv5 {
  inv5_work : solvent (work s);
  inv5_disk : solvent (disk s)
}.

(** * The ledger in binary floating point

    The definitions above take amounts as exact rationals.  Python and
    SQLite compute with IEEE 754 doubles, and [/addbal] passes whatever
    [float()] reads, nan and the infinities included.  This module embeds
    the ledger core once more, on primitive doubles and with SQLite's
    handling of NULL: [ensure_user], [get_balance], [add_transaction],
    [safe_round], [balance_cmd], [admin_add_balance_cmd], and [spin_start]
    with the two clocks it reads. *)
Module F64.

Local Open Scope float_scope.

(** ** Python's numbers *)

(** [math.floor] on a float: [None] where it raises ([ValueError] on nan,
    [OverflowError] on an infinity). *)
Definition math_floor (x : float) : option Z :=
  match Prim2SF x with
  | S754_zero _ => Some 0%Z
  | S754_finite s m e => Some (Z.shiftl (if s then Z.neg m else Z.pos m) e)
  | S754_infinity _ | S754_nan => None
  end.

(** [float(n)] on an [int]: the nearest double, ties to even; [None] where
    it raises [OverflowError]. *)
Definition float_of_int (n : Z) : option float :=
  match binary_normalize prec emax n 0 false with
  | S754_infinity _ => None
  | x => Some (SF2Prim x)
  end.

(** The integer nearest to [m * 2 ^ e * 100], ties to even. *)
Definition hundredths (m : positive) (e : Z) : Z :=
  let n := (Z.pos m * 100)%Z in
  if (0 <=? e)%Z then Z.shiftl n e
  else
    let d := Z.shiftl 1 (- e) in
    let q := (n / d)%Z in
    let r := (n mod d)%Z in
    match (2 * r ?= d)%Z with
    | Lt => q
    | Gt => (q + 1)%Z
    | Eq => if Z.even q then q else (q + 1)%Z
    end.

(** The double nearest to [k / 100] for [0 < k], ties to even: the quotient
    is taken with 80 more binary places and a sticky bit, and rounded
    once. *)
Definition double_of_hundredths (s : bool) (k : Z) : spec_float :=
  let n := Z.shiftl k 80 in
  let q := (n / 100)%Z in
  let sticky := if (n mod 100 =? 0)%Z then 0%Z else 1%Z in
  let m := (2 * q + sticky)%Z in
  binary_normalize prec emax (if s then (- m)%Z else m) (-81) s.

(** [round(x, 2)] on a float: the double nearest to the decimal with two
    places that is nearest to the exact value of [x], ties to even both
    times; nan, the infinities and the zeros come back as they are.  [None]
    where it raises [OverflowError]. *)
Definition py_round2 (x : float) : option float :=
  match Prim2SF x with
  | S754_finite s m e =>
      let k := hundredths m e in
      if (k =? 0)%Z then Some (if s then neg_zero else zero)
      else match double_of_hundredths s k with
           | S754_infinity _ => None
           | y => Some (SF2Prim y)
           end
  | _ => Some x
  end.

(** [safe_round], line 214:
    [round(float(math.floor(amount * 100 + 0.5)) / 100.0, 2)]. *)
Definition safe_round (amount : float) : option float :=
  n ← math_floor (amount * 100 + 0.5);
  f ← float_of_int n;
  py_round2 (f / 100).

(** The double that Python reads from a decimal of [n] hundredths: the one
    nearest to [n / 100]. *)
Definition of_cents (n : Z) : float :=
  match float_of_int n with
  | Some f => f / 100
  | None => nan
  end.

(** Two doubles are the same datum: sign, mantissa and exponent. *)
Definition same_double (x y : float) : bool :=
  match Prim2SF x, Prim2SF y with
  | S754_zero s, S754_zero s' => Bool.eqb s s'
  | S754_infinity s, S754_infinity s' => Bool.eqb s s'
  | S754_nan, S754_nan => true
  | S754_finite s m e, S754_finite s' m' e' =>
      Bool.eqb s s' && (m =? m')%positive && (e =? e')%Z
  | _, _ => false
  end.

(** [safe_round] returns its argument. *)
Definition safe_round_fixes (x : float) : bool :=
  match safe_round x with
  | Some y => same_double y x
  | None => false
  end.

(** ** SQLite's numbers *)

(** A value of a REAL column: a double that is not nan, or NULL. *)
Definition real : Type := option float.

(** A Python float bound to a parameter, and the result of an arithmetic
    expression: nan becomes NULL. *)
Definition bind_double (x : float) : real :=
  match Prim2SF x with
  | S754_nan => None
  | _ => Some x
  end.

(** A value written to a REAL column and read back: a value without
    fractional part is kept as an integer, which turns -0.0 into 0.0. *)
Definition stored (v : real) : real :=
  match v with
  | Some x => match Prim2SF x with
              | S754_zero _ => Some zero
              | _ => Some x
              end
  | None => None
  end.

(** [a + b]: NULL when an operand is NULL or the sum is nan. *)
Definition sql_add (a b : real) : real :=
  match a, b with
  | Some x, Some y => bind_double (x + y)
  | _, _ => None
  end.

(** A Python [int] bound to a parameter has to fit SQLite's INTEGER;
    otherwise [execute] raises [OverflowError]. *)
Definition sqlite_integer (n : Z) : bool :=
  (- 2 ^ 63 <=? n)%Z && (n <? 2 ^ 63)%Z.

(** ** The tables *)

(** A row of [users], keyed by [id], with the columns that [ensure_user]
    and [add_transaction] write. *)
Record user := mk_user {
  username : option string;
  first_name : option string;
  last_name : option string;
  balance : real;              (* REAL DEFAULT 0 *)
  referred_by : option Z
}.

(** A value of the [meta] dictionary, which [json.dumps] writes to the
    [meta] column. *)
Inductive json :=
  | JInt (n : Z)
  | JFloat (x : float).

(** A row of [transactions]. *)
Record txn := mk_txn {
  t_user : Z;
  t_type : string;
  t_amount : real;
  t_reason : reason;
  t_meta : list (string * json)
}.

(** A row of [spins]; [sp_date] is [DATE(ts)], the UTC date of the
    CURRENT_TIMESTAMP that SQLite put in [ts] at the INSERT. *)
Record spin := mk_spin {
  sp_user : Z;
  sp_reward : real;
  sp_date : date
}.

Record db := mk_db {
  users : gmap Z user;
  transactions : list txn;
  spins : list spin
}.

(** The connection: the database as this connection sees it, and the
    database file as of the last commit. *)
Record state := mk_state {
  work : db;
  disk : db
}.

Definition set_users (f : gmap Z user → gmap Z user) (d : db) : db :=
  mk_db (f (users d)) (transactions d) (spins d).
Definition set_transactions (f : list txn → list txn) (d : db) : db :=
  mk_db (users d) (f (transactions d)) (spins d).
Definition set_spins (f : list spin → list spin) (d : db) : db :=
  mk_db (users d) (transactions d) (f (spins d)).
Definition set_balance (f : real → real) (u : user) : user :=
  mk_user (username u) (first_name u) (last_name u) (f (balance u))
    (referred_by u).
Definition set_names (n1 n2 n3 : option string) (u : user) : user :=
  mk_user n1 n2 n3 (balance u) (referred_by u).

(** What the storage does with a ledger append: it accepts it, refuses it
    before any statement has taken effect (the database is locked), or
    fails on the way and rolls the open transaction back (the disk is
    full). *)
Inductive verdict := Accept | Refuse | RollBack.

(** What a handler takes from outside. *)
Record env := mk_env {
  today : date;            (* datetime.date.today(), the local date *)
  utc_today : date;        (* the date of SQLite's CURRENT_TIMESTAMP, in UTC *)
  spin_draw : Z;           (* random.randint(1, total_weight) *)
  storage : nat → verdict  (* storage e n: the verdict on the call of
                              add_transaction that would write transaction
                              row n *)
}.

(** ** The monad of handlers *)

Definition M (A : Type) : Type := state → outcome A * state.

Definition ret {A} (a : A) : M A := λ s, (Done a, s).
Definition bind {A B} (m : M A) (k : A → M B) : M B :=
  λ s, match m s with
       | (Done a, s') => k a s'
       | (Raised, s') => (Raised, s')
       end.
#[global] Instance M_ret : MRet M := @ret.
#[global] Instance M_bind : MBind M := λ A B k m, bind m k.

Definition raise {A} : M A := λ s, (Raised, s).
Definition gets {A} (f : state → A) : M A := λ s, (Done (f s), s).

Definition executed (f : db → db) (s : state) : state :=
  mk_state (f (work s)) (disk s).
Definition committed (s : state) : state := mk_state (work s) (work s).
Definition rolled_back (s : state) : state := mk_state (disk s) (disk s).

Definition execute (f : db → db) : M unit := λ s, (Done (), executed f s).

(** [db_commit], lines 170-171. *)
Definition db_commit : M unit := λ s, (Done (), committed s).

(** SQLite rolling the open transaction back. *)
Definition rollback : M unit := λ s, (Done (), rolled_back s).

(** ** Utilities, lines 173-212 *)

Definition names_of (user_obj : option tg_user) (u : user) : user :=
  match user_obj with
  | Some o => set_names (tg_username o) (tg_first_name o) (tg_last_name o) u
  | None => u
  end.

(** [ensure_user], lines 173-192.  The id is bound at the SELECT, the
    referrer at the INSERT. *)
Definition ensure_user (user_id : Z) (user_obj : option tg_user)
    (ref_by : option Z) : M unit :=
  if negb (sqlite_integer user_id) then raise
  else
    row ← gets (λ s, users (work s) !! user_id);
    match row with
    | None =>
        if negb (default true (sqlite_integer <$> ref_by)) then raise
        else
          let u := mk_user None None None (Some zero) ref_by in
          execute (set_users (insert user_id (names_of user_obj u))) ;;
          db_commit
    | Some _ =>
        match user_obj with
        | Some o =>
            execute (set_users (alter (names_of (Some o)) user_id)) ;;
            db_commit
        | None => mret ()
        end
    end.

(** The rows of [users] after [ensure_user] has returned. *)
Definition ensure_row (user_id : Z) (user_obj : option tg_user)
    (ref_by : option Z) (us : gmap Z user) : gmap Z user :=
  match us !! user_id with
  | None =>
      <[user_id := names_of user_obj
                     (mk_user None None None (Some zero) ref_by)]> us
  | Some _ =>
      match user_obj with
      | Some o => alter (names_of (Some o)) user_id us
      | None => us
      end
  end.

(** The state [ensure_user] leaves when it returns: it commits when it has
    written. *)
Definition ensured (user_id : Z) (user_obj : option tg_user)
    (ref_by : option Z) (s : state) : state :=
  match users (work s) !! user_id, user_obj with
  | Some _, None => s
  | _, _ => committed (executed (set_users (ensure_row user_id user_obj ref_by)) s)
  end.

(** [get_balance], lines 194-197: [float(row[0])] raises [TypeError] on a
    NULL balance. *)
Definition get_balance (user_id : Z) : M float :=
  if negb (sqlite_integer user_id) then raise
  else
    row ← gets (λ s, users (work s) !! user_id);
    match row with
    | Some u => match balance u with
                | Some x => mret x
                | None => raise
                end
    | None => mret zero
    end.

(** [INSERT OR IGNORE INTO users (id) VALUES (?)]. *)
Definition insert_or_ignore_user (user_id : Z) (us : gmap Z user) : gmap Z user :=
  match us !! user_id with
  | Some _ => us
  | None => <[user_id := mk_user None None None (Some zero) None]> us
  end.

(** The three statements of [add_transaction] on the working database. *)
Definition ledger_append (user_id : Z) (ttype : string) (amount : float)
    (r : reason) (meta : list (string * json)) (d : db) : db :=
  set_transactions
    (λ l, l ++ [mk_txn user_id ttype (stored (bind_double amount)) r meta])
    (set_users
       (alter (set_balance (λ b, stored (sql_add b (bind_double amount))))
          user_id)
       (set_users (insert_or_ignore_user user_id) d)).

(** [add_transaction], lines 199-212. *)
Definition add_transaction (e : env) (user_id : Z) (ttype : string)
    (amount : float) (r : reason) (meta : list (string * json)) : M unit :=
  if negb (sqlite_integer user_id) then raise
  else
    n ← gets (λ s, length (transactions (work s)));
    match storage e n with
    | Refuse => raise
    | RollBack => rollback ;; raise
    | Accept =>
        execute (set_users (insert_or_ignore_user user_id)) ;;
        execute (set_users
                   (alter (set_balance
                             (λ b, stored (sql_add b (bind_double amount))))
                      user_id)) ;;
        execute (set_transactions
                   (λ l, l ++ [mk_txn user_id ttype
                                 (stored (bind_double amount)) r meta])) ;;
        db_commit
    end.

(** ** The handlers that pass a number through *)

Inductive reply :=
  | ReplyBalance (bal : float)
  | ReplyUsage
  | ReplyInvalidArgs
  | ReplyAdded (amt : float) (uid : Z)
  | ReplySpinUsed
  | ReplySpinWon (reward bal : float)
  | ReplySpinNothing.

(** [balance_cmd], lines 317-321. *)
Definition balance_cmd (u : tg_user) : M reply :=
  ensure_user (tg_id u) (Some u) None ;;
  bal ← get_balance (tg_id u);
  match safe_round bal with
  | Some shown => mret (ReplyBalance shown)
  | None => raise
  end.

(** The arguments of /addbal as lines 673-681 read them: [int()] gives any
    integer, [float()] any double, nan and the infinities included. *)
Inductive addbal_args :=
  | ArgsTooFew
  | ArgsInvalid
  | ArgsOk (uid : Z) (amt : float).

(** [admin_add_balance_cmd], lines 671-684. *)
Definition admin_add_balance_cmd (e : env) (u : tg_user) (args : addbal_args) : M reply :=
  match args with
  | ArgsTooFew => mret ReplyUsage
  | ArgsInvalid => mret ReplyInvalidArgs
  | ArgsOk uid amt =>
      ensure_user uid None None ;;
      add_transaction e uid "admin_adjust" amt (ReasonAdmin (tg_id u)) [] ;;
      mret (ReplyAdded amt uid)
  end.

(** ** The spin wheel *)

(** [spin_rewards_table], lines 557-567; 0.2 is the double nearest to it. *)
Definition spin_rewards_table : list (float * Z) :=
  [ (0, 10%Z); (0x1.999999999999ap-3, 25%Z); (0.5, 20%Z); (1, 15%Z);
    (2, 10%Z); (5, 5%Z); (10, 1%Z) ].

(** The loop of [spin_once], lines 573-578, over the remaining rows with the
    running total [upto]; the fall-through [return 0.0] is the empty case. *)
Fixpoint spin_walk (table : list (float * Z)) (r upto : Z) : float :=
  match table with
  | [] => 0
  | (reward, weight) :: rest =>
      let upto := (upto + weight)%Z in
      if (r <=? upto)%Z then reward else spin_walk rest r upto
  end.

(** [spin_once], lines 569-578, on the draw [r]. *)
Definition spin_once (r : Z) : float := spin_walk spin_rewards_table r 0.

(** The rows of [spins] that line 585 counts for [uid] and the string
    [day]: those whose [DATE(ts)] is [day]. *)
Definition spins_on (d : db) (uid : Z) (day : date) : nat :=
  length (List.filter
            (λ x, bool_decide (sp_user x = uid ∧ sp_date x = day)) (spins d)).

(** [spin_start], lines 580-599.  The count compares the UTC date of the
    rows with the local date of [datetime.date.today()]; the row written at
    line 593 gets the UTC date. *)
Definition spin_start (e : env) (u : tg_user) : M reply :=
  let uid := tg_id u in
  ensure_user uid (Some u) None ;;
  cnt ← gets (λ s, spins_on (work s) uid (today e));
  if bool_decide (1 ≤ cnt)%nat then mret ReplySpinUsed
  else
    let reward := spin_once (spin_draw e) in
    add_transaction e uid "spin" reward ReasonDailySpin
      [("reward", JFloat reward)] ;;
    execute (set_spins
               (λ l, l ++ [mk_spin uid (stored (bind_double reward))
                             (utc_today e)])) ;;
    db_commit ;;
    if 0 <? reward then
      bal ← get_balance uid;
      match safe_round bal with
      | Some shown => mret (ReplySpinWon reward shown)
      | None => raise
      end
    else mret ReplySpinNothing.

(** ** What can happen to the ledger

    [users.balance] is written by line 206 only, rows of [users] are
    created by lines 181 and 204 only, and [transactions] is written by
    line 209 only.  Every other handler reaches these tables through
    [ensure_user] (lines 285, 339, 365, 439, 464, 512, 582), through
    [add_transaction] (lines 292, 352, 446, 447, 545, 592, 643), with
    whatever float it has computed, and through [db_commit]; a statement on
    another table may be refused by the storage, which rolls the open
    transaction back.  The events below take these calls in any order and
    with any arguments, so that every run of the bot, with a storage that
    fails in one of the ways of [verdict], is one of the runs considered
    as far as [users.balance] and [transactions] go. *)
Inductive action :=
  | Ensure (user_id : Z) (user_obj : option tg_user) (ref_by : option Z)
  | Append (user_id : Z) (ttype : string) (amount : float) (r : reason)
      (meta : list (string * json))
  | Balance (u : tg_user)
  | AdminAddBalance (u : tg_user) (args : addbal_args)
  | Commit
  | Rollback
  | Restart.

Definition open_db (d : db) : state := mk_state d d.
Definition empty_db : db := mk_db ∅ [] [].
Definition initial_state : state := open_db empty_db.

Definition run_ {A} (m : M A) : M unit := m ;; mret ().

Definition handle (e : env) (a : action) : M unit :=
  match a with
  | Ensure user_id user_obj ref_by => ensure_user user_id user_obj ref_by
  | Append user_id ttype amount r meta =>
      add_transaction e user_id ttype amount r meta
  | Balance u => run_ (balance_cmd u)
  | AdminAddBalance u args => run_ (admin_add_balance_cmd e u args)
  | Commit => db_commit
  | Rollback => rollback
  | Restart => λ s, (Done (), open_db (disk s))
  end.

Inductive reachable : state → Prop :=
  | reachable_init : reachable initial_state
  | reachable_step s e a :
      reachable s → reachable (handle e a s).2.

Definition after (evs : list (env * action)) (s : state) : state :=
  foldl (λ s ea, (handle ea.1 ea.2 s).2) s evs.

(** ** Queries of the specification *)

(** [ListEvents]: the ledger events of an account, oldest first. *)
Definition list_events (d : db) (uid : Z) : list txn :=
  List.filter (λ t, bool_decide (t_user t = uid)) (transactions d).

(** The balance column of an account; an account without a row has the 0.0
    that [get_balance] answers and that a new row starts from. *)
Definition stored_balance (d : db) (uid : Z) : real :=
  match users d !! uid with
  | Some u => balance u
  | None => Some zero
  end.

(** The amounts added one at a time, oldest first, starting from 0.0, each
    sum being written to the column before the next. *)
Definition running_total (l : list txn) : real :=
  foldl (λ acc t, stored (sql_add acc (t_amount t))) (Some zero) l.

(** The number a value denotes, and the sum of the amounts as numbers. *)
Definition exact (v : real) : option Q :=
  match v with
  | Some x =>
      match Prim2SF x with
      | S754_zero _ => Some 0%Q
      | S754_finite s m e =>
          Some (inject_Z (if s then Z.neg m else Z.pos m) * 2 ^ e)%Q
      | S754_infinity _ | S754_nan => None
      end
  | None => None
  end.

Definition exact_sum (l : list txn) : option Q :=
  foldr (λ t acc, a ← exact (t_amount t); b ← acc; Some (a + b)%Q)
    (Some 0%Q) l.

(** ** Invariant of the reachable states *)

Definition ledger_ok (d : db) : Prop :=
  ∀ uid, stored_balance d uid = running_total (list_events d uid).

Record Inv (s : state) : Prop := mk_Inv {
  inv_work : ledger_ok (work s);
  inv_disk : disk s = work s
}.

(** The invariant holds, and the ledger has grown from the rows [l]. *)
Definition grown_from (l : list txn) (s : state) : Prop :=
  Inv s ∧ l `prefix_of` transactions (work s).

(** ** Scenarios *)

(** Day 100 on a server whose local date is the UTC date; the storage
    accepts every append and the wheel draws 11, which pays 0.2. *)
Definition calm : env := mk_env 100%Z 100%Z 11%Z (λ _, Accept).

(** The same shortly after local midnight east of Greenwich: the local
    date is day 100, the UTC date still day 99. *)
Definition after_midnight_east : env :=
  mk_env 100%Z 99%Z 11%Z (λ _, Accept).

(** The operator books nan for account 1. *)
Definition nan_booked : state :=
  after [(calm, AdminAddBalance operator (ArgsOk 1 nan))] initial_state.

(** The operator books 1e16, then 1, then -1e16 for account 1. *)
Definition small_amount_absorbed : state :=
  after [(calm, AdminAddBalance operator (ArgsOk 1 0x1.1c37937e08p+53));
         (calm, AdminAddBalance operator (ArgsOk 1 1));
         (calm, AdminAddBalance operator (ArgsOk 1 (-0x1.1c37937e08p+53)))]
    initial_state.

(** Account 1 receives 0.1 and then 0.2. *)
Definition tenths_received : state :=
  after [(calm, Append 1 "transfer_in" 0x1.999999999999ap-4 (ReasonFrom 2)
                  [("from", JInt 2)]);
         (calm, Append 1 "transfer_in" 0x1.999999999999ap-3 (ReasonFrom 2)
                  [("from", JInt 2)])]
    initial_state.

End F64.

(** * Properties *)

(** ** Amounts and rounding *)

Lemma Qltb_lt a b : Qltb a b = true ↔ a < b.
Proof.
  unfold Qltb. rewrite Qlt_alt. destruct (a ?= b); intuition congruence.
Qed.

Lemma Qltb_ge a b : Qltb a b = false ↔ b <= a.
Proof.
  split.
  - intros H. apply Qnot_lt_le. intros Hlt. apply Qltb_lt in Hlt. congruence.
  - intros H. destruct (Qltb a b) eqn:E; [|done].
    apply Qltb_lt in E. exfalso. by apply (Qlt_not_le _ _ E).
Qed.

#[global] Instance Qltb_proper : Proper (Qeq ==> Qeq ==> eq) Qltb.
Proof. intros a a' Ha b b' Hb. unfold Qltb. by rewrite Ha, Hb. Qed.

#[global] Instance Qgtb_proper : Proper (Qeq ==> Qeq ==> eq) Qgtb.
Proof. intros a a' Ha b b' Hb. unfold Qgtb. by rewrite Ha, Hb. Qed.

#[global] Instance py_round2_proper : Proper (Qeq ==> Qeq) py_round2.
Proof.
  intros x y Hxy. unfold py_round2.
  assert (Hf : Qfloor (x * 100) = Qfloor (y * 100)) by (by rewrite Hxy).
  rewrite Hf. by rewrite Hxy.
Qed.

#[global] Instance safe_round_proper : Proper (Qeq ==> Qeq) safe_round.
Proof.
  intros x y Hxy. unfold safe_round.
  assert (Hf : Qfloor (x * 100 + 0.5) = Qfloor (y * 100 + 0.5))
    by (by rewrite Hxy).
  by rewrite Hf.
Qed.

#[global] Instance round_half_up_2dp_proper :
  Proper (Qeq ==> Qeq) round_half_up_2dp.
Proof.
  intros x y Hxy. unfold round_half_up_2dp.
  assert (Hf : Qfloor (x * 100 + (1 # 2)) = Qfloor (y * 100 + (1 # 2)))
    by (by rewrite Hxy).
  by rewrite Hf.
Qed.

#[global] Instance two_decimals_proper : Proper (Qeq ==> iff) two_decimals.
Proof. intros x y Hxy. unfold two_decimals. by rewrite Hxy. Qed.

(** Python's [round(_, 2)] leaves a whole number of hundredths as it is. *)
Lemma py_round2_cents (k : Z) :
  py_round2 (inject_Z k / 100) == inject_Z k / 100.
Proof.
  unfold py_round2.
  assert (Hy : inject_Z k / 100 * 100 == inject_Z k) by (field).
  assert (Hf : Qfloor (inject_Z k / 100 * 100) = k)
    by (rewrite Hy; apply Qfloor_Z).
  rewrite Hf.
  assert (Hc : (inject_Z k / 100 * 100 - inject_Z k ?= (1 # 2)) = Lt).
  { apply Qlt_alt. rewrite Hy.
    assert (Hz : inject_Z k - inject_Z k == 0) by ring.
    by rewrite Hz. }
  by rewrite Hc.
Qed.

(** [safe_round] is rounding to two decimal places, half up. *)
Lemma safe_round_spec (x : Q) : safe_round x == round_half_up_2dp x.
Proof.
  unfold safe_round, round_half_up_2dp. rewrite py_round2_cents.
  assert (Hh : 0.5 == 1 # 2) by done.
  assert (Hf : Qfloor (x * 100 + 0.5) = Qfloor (x * 100 + (1 # 2)))
    by (by rewrite Hh).
  by rewrite Hf.
Qed.

Lemma round_half_up_2dp_cents (k : Z) :
  round_half_up_2dp (inject_Z k / 100) == inject_Z k / 100.
Proof.
  unfold round_half_up_2dp.
  assert (Hf : Qfloor (inject_Z k / 100 * 100 + (1 # 2)) = k).
  { assert (Hy : inject_Z k / 100 * 100 + (1 # 2) == inject_Z k + (1 # 2)) by field.
    rewrite Hy.
    assert (H1 := Qfloor_le (inject_Z k + (1 # 2))).
    assert (H2 := Qlt_floor (inject_Z k + (1 # 2))).
    set (f := Qfloor (inject_Z k + (1 # 2))) in *.
    assert (H3 : (f <= k)%Z).
    { apply Z.lt_succ_r. rewrite Zlt_Qlt. eapply Qle_lt_trans; [apply H1|].
      rewrite <- Z.add_1_r, inject_Z_plus.
      apply Qplus_lt_r. done. }
    assert (H4 : (k < f + 1)%Z).
    { rewrite Zlt_Qlt. eapply Qle_lt_trans; [|apply H2].
      rewrite <- (Qplus_0_r (inject_Z k)) at 1. apply Qplus_le_r. done. }
    lia. }
  by rewrite Hf.
Qed.

Lemma two_decimals_cents (k : Z) : two_decimals (inject_Z k / 100).
Proof. unfold two_decimals. by rewrite round_half_up_2dp_cents. Qed.

Lemma two_decimals_iff (x : Q) :
  two_decimals x ↔ ∃ k : Z, x == inject_Z k / 100.
Proof.
  split.
  - intros H. by exists (Qfloor (x * 100 + (1 # 2))).
  - intros [k ->]. apply two_decimals_cents.
Qed.

Lemma two_decimals_safe_round (x : Q) : two_decimals (safe_round x).
Proof.
  rewrite safe_round_spec. apply two_decimals_iff.
  by exists (Qfloor (x * 100 + (1 # 2))).
Qed.

Lemma two_decimals_opp (x : Q) : two_decimals x → two_decimals (- x).
Proof.
  rewrite !two_decimals_iff. intros [k Hk]. exists (- k)%Z.
  rewrite Hk, inject_Z_opp. field.
Qed.

Lemma two_decimals_plus (x y : Q) :
  two_decimals x → two_decimals y → two_decimals (x + y).
Proof.
  rewrite !two_decimals_iff. intros [k Hk] [l Hl]. exists (k + l)%Z.
  rewrite Hk, Hl, inject_Z_plus. field.
Qed.

Lemma safe_round_fixed (x : Q) : two_decimals x → safe_round x == x.
Proof. intros H. rewrite safe_round_spec. symmetry. apply H. Qed.

(** ** Spin wheel *)

Lemma total_weight_app (l1 l2 : list (Q * Z)) :
  total_weight (l1 ++ l2) = (total_weight l1 + total_weight l2)%Z.
Proof. induction l1 as [|[q w] l1 IH]; simpl; [done|]. rewrite IH. lia. Qed.

Lemma total_weight_nonneg (l : list (Q * Z)) :
  Forall (λ rw, 0 <= rw.2)%Z l → (0 <= total_weight l)%Z.
Proof. induction 1 as [|[q w] l Hw _ IH]; simpl in *; lia. Qed.

(** The walk returns the reward of the row whose range of cumulative
    weights contains the draw. *)
Lemma spin_walk_bucket (pre post : list (Q * Z)) (reward : Q) (weight r upto : Z) :
  Forall (λ rw, 0 <= rw.2)%Z pre →
  (upto + total_weight pre < r)%Z →
  (r <= upto + total_weight pre + weight)%Z →
  spin_walk (pre ++ (reward, weight) :: post) r upto = reward.
Proof.
  intros Hpre. revert upto.
  induction Hpre as [|[q w] pre Hw Hpre IH]; intros upto Hlo Hhi; simpl in *.
  - destruct (Z.leb_spec r (upto + weight)); [done | lia].
  - assert (0 <= total_weight pre)%Z by by apply total_weight_nonneg.
    destruct (Z.leb_spec r (upto + w)); [lia|].
    apply IH; lia.
Qed.

Lemma spin_table_weights_nonneg :
  Forall (λ rw, 0 <= rw.2)%Z spin_rewards_table.
Proof. unfold spin_rewards_table. repeat constructor; simpl; lia. Qed.

Lemma spin_table_total : total_weight spin_rewards_table = 86%Z.
Proof. reflexivity. Qed.

(** C4, as amended: the sampler returns the reward of the row of the table
    whose bucket contains the draw, the bucket of a row being the draws
    above the sum of the weights before it and up to that sum plus its own
    weight.  The first row, reward 0 with weight 10, owns the draws 1 to 10,
    so a draw of exactly 10 yields 0 and not 0.2. *)
Theorem spin_once_bucket (pre post : list (Q * Z)) (reward : Q) (weight r : Z) :
  spin_rewards_table = pre ++ (reward, weight) :: post →
  (total_weight pre < r <= total_weight pre + weight)%Z →
  spin_once r = reward.
Proof.
  intros Htab [Hlo Hhi]. unfold spin_once. rewrite Htab.
  apply spin_walk_bucket; [|lia..].
  assert (H := spin_table_weights_nonneg). rewrite Htab in H.
  by apply Forall_app in H as [H _].
Qed.

Lemma spin_once_bucket_witness :
  spin_rewards_table = [] ++ (0.0, 10%Z) :: tail spin_rewards_table ∧
  (total_weight [] < 10 <= total_weight [] + 10)%Z ∧
  spin_once 10 = 0.0.
Proof.
  split; [reflexivity|]. split; [simpl; lia|].
  apply (spin_once_bucket [] (tail spin_rewards_table) 0.0 10 10);
    [reflexivity | simpl; lia].
Defined.

(** C4, as stated, fails: the draw 10 does not return 0.2. *)
Lemma spin_once_10_not_0_2 : spin_once 10 = 0.0 ∧ ¬ spin_once 10 == 0.2.
Proof. split; [reflexivity|]. vm_compute. discriminate. Qed.

(** The reward 0.2 belongs to the draws 11 to 35. *)
Lemma spin_once_0_2 (r : Z) : (11 <= r <= 35)%Z → spin_once r = 0.2.
Proof.
  intros Hr.
  apply (spin_walk_bucket [(0.0, 10%Z)] (drop 2 spin_rewards_table) 0.2 25 r 0);
    [repeat constructor; simpl; lia | simpl; lia..].
Qed.

(** ** Reasoning about handlers: weakest preconditions *)

Section wp_rules.
Context {A B : Type}.
Implicit Types (Q : A → state → Prop) (E : state → Prop) (s : state).

Lemma wp_ret (a : A) Q E s : wp (mret a) Q E s ↔ Q a s.
Proof. done. Qed.

Lemma wp_bind (m : M B) (k : B → M A) Q E s :
  wp (m ≫= k) Q E s ↔ wp m (λ b, wp (k b) Q E) E s.
Proof.
  unfold wp, mbind, M_bind, bind. by destruct (m s) as [[b|] s'].
Qed.

Lemma wp_raise Q E s : wp (@raise A) Q E s ↔ E s.
Proof. done. Qed.

Lemma wp_gets (f : state → A) Q E s : wp (gets f) Q E s ↔ Q (f s) s.
Proof. done. Qed.

Lemma wp_mono (m : M A) Q Q' E E' s :
  wp m Q E s → (∀ a s', Q a s' → Q' a s') → (∀ s', E s' → E' s') →
  wp m Q' E' s.
Proof. unfold wp. destruct (m s) as [[a|] s']; eauto. Qed.

End wp_rules.

Section wp_primitives.
Context {A : Type}.
Implicit Types (Q : unit → state → Prop) (E : state → Prop) (s : state).

Lemma wp_execute (f : db → db) Q E s :
  wp (execute f) Q E s ↔ Q () (executed f s).
Proof. done. Qed.

Lemma wp_db_commit Q E s : wp db_commit Q E s ↔ Q () (committed s).
Proof. done. Qed.

Lemma wp_update_udata uid f Q E s :
  wp (update_udata uid f) Q E s ↔ Q () (with_udata uid f s).
Proof. done. Qed.

Lemma wp_set_calls uid l Q E s :
  wp (set_calls uid l) Q E s ↔ Q () (with_calls uid l s).
Proof. done. Qed.

Lemma wp_try (m : M A) Q E s :
  wp (try_ m) Q E s ↔ wp m (λ _, Q ()) (Q ()) s.
Proof. unfold wp, try_. simpl. by destruct (m s) as [[a|] s']. Qed.

Lemma wp_run_ (m : M A) Q E s :
  wp (run_ m) Q E s ↔ wp m (λ _, Q ()) E s.
Proof. unfold run_. by rewrite wp_bind. Qed.

Lemma wp_for_each_nil (body : A → M unit) Q E s :
  wp (for_each [] body) Q E s ↔ Q () s.
Proof. done. Qed.

Lemma wp_for_each_cons x l (body : A → M unit) Q E s :
  wp (for_each (x :: l) body) Q E s ↔
  wp (body x) (λ _, wp (for_each l body) Q E) E s.
Proof. simpl. by rewrite wp_bind. Qed.

(** An invariant of every turn is an invariant of the loop. *)
Lemma wp_for_each_inv (I : state → Prop) l (body : A → M unit) s :
  (∀ x s', x ∈ l → I s' → wp (body x) (λ _, I) I s') →
  I s → wp (for_each l body) (λ _, I) I s.
Proof.
  revert s. induction l as [|x l IH]; intros s Hbody HI.
  - by apply wp_for_each_nil.
  - apply wp_for_each_cons.
    eapply wp_mono; [apply Hbody; [left|done] | | done].
    intros ? s' HI'. apply IH; [|done].
    intros y s'' Hy. apply Hbody. by right.
Qed.

(** The final state of a run, whichever way it ends. *)
Lemma wp_final (m : M A) (P : state → Prop) s :
  wp m (λ _, P) P s ↔ P (m s).2.
Proof. unfold wp. by destruct (m s) as [[a|] s']. Qed.
End wp_primitives.

Lemma wp_add_transaction e user_id ttype amount r meta Q E s :
  wp (add_transaction e user_id ttype amount r meta) Q E s ↔
  if fault e (length (transactions (work s))) then E s
  else Q () (appended (mk_txn user_id ttype amount r meta) s).
Proof.
  unfold add_transaction, wp, mbind, M_bind, bind, gets. simpl.
  by destruct (fault e _).
Qed.

Lemma wp_ensure_user user_id user_obj ref_by Q E s :
  wp (ensure_user user_id user_obj ref_by) Q E s ↔
  Q () (ensured user_id user_obj ref_by s).
Proof.
  unfold ensured, wp, ensure_user, mbind, M_bind, bind, gets. simpl.
  destruct (users (work s) !! user_id); [destruct user_obj|]; done.
Qed.

(** Closed facts about the scenarios are settled by evaluation. *)
Ltac by_computation :=
  vm_compute; first [reflexivity | discriminate | lia].

(** Symbolic execution of a handler, one statement at a time. *)
Ltac wp_step :=
  lazymatch goal with
  | |- wp (mbind _ _) _ _ _ => apply wp_bind
  | |- wp (mret _) _ _ _ => apply wp_ret
  | |- wp (gets _) _ _ _ => apply wp_gets
  | |- wp raise _ _ _ => apply wp_raise
  | |- wp (execute _) _ _ _ => apply wp_execute
  | |- wp db_commit _ _ _ => apply wp_db_commit
  | |- wp (update_udata _ _) _ _ _ => apply wp_update_udata
  | |- wp (set_calls _ _) _ _ _ => apply wp_set_calls
  | |- wp (try_ _) _ _ _ => apply wp_try
  | |- wp (run_ _) _ _ _ => apply wp_run_
  | |- wp (ensure_user _ _ _) _ _ _ => apply wp_ensure_user
  | |- wp (add_transaction _ _ _ _ _ _) _ _ _ => apply wp_add_transaction
  | |- wp (for_each [] _) _ _ _ => apply wp_for_each_nil
  | |- wp (for_each (_ :: _) _) _ _ _ => apply wp_for_each_cons
  end; cbv beta.

(** ** The states the statements leave *)

Lemma work_executed f s : work (executed f s) = f (work s).
Proof. done. Qed.
Lemma disk_executed f s : disk (executed f s) = disk s.
Proof. done. Qed.
Lemma work_committed s : work (committed s) = work s.
Proof. done. Qed.
Lemma work_appended t s : work (appended t s) = ledger_append t (work s).
Proof. done. Qed.
Lemma disk_appended t s : disk (appended t s) = ledger_append t (work s).
Proof. done. Qed.

Lemma transactions_ledger_append t d :
  transactions (ledger_append t d) = transactions d ++ [t].
Proof. done. Qed.

Lemma users_ledger_append t d :
  users (ledger_append t d) =
  alter (set_balance (λ b, b + t_amount t)) (t_user t)
    (insert_or_ignore_user (t_user t) (users d)).
Proof. done. Qed.

(** ** The ledger: balances and events *)

Lemma sum_amounts_app (l1 l2 : list txn) :
  sum_amounts (l1 ++ l2) == sum_amounts l1 + sum_amounts l2.
Proof.
  induction l1 as [|t l1 IH]; simpl.
  - ring.
  - rewrite IH. ring.
Qed.

Lemma list_events_ledger_append t d uid :
  list_events (ledger_append t d) uid =
  list_events d uid ++ (if bool_decide (t_user t = uid) then [t] else []).
Proof.
  unfold list_events. rewrite transactions_ledger_append, List.filter_app.
  done.
Qed.

Lemma lookup_insert_or_ignore_user uid uid' (us : gmap Z user) :
  insert_or_ignore_user uid us !! uid' =
  match us !! uid' with
  | Some u => Some u
  | None => if bool_decide (uid = uid') then Some default_user else None
  end.
Proof.
  unfold insert_or_ignore_user.
  destruct (us !! uid) as [u|] eqn:Hu.
  - destruct (us !! uid') eqn:Hu'; [done|].
    case_bool_decide; [congruence|done].
  - case_bool_decide as Heq.
    + subst uid'. by rewrite lookup_insert_eq, Hu.
    + rewrite lookup_insert_ne by done. by destruct (us !! uid').
Qed.

Lemma get_balance_ledger_append t d uid :
  get_balance (ledger_append t d) uid ==
  get_balance d uid + (if bool_decide (t_user t = uid) then t_amount t else 0).
Proof.
  unfold get_balance. rewrite users_ledger_append.
  case_bool_decide as Heq.
  - subst uid. rewrite lookup_alter_eq, lookup_insert_or_ignore_user.
    rewrite bool_decide_eq_true_2 by done.
    destruct (users d !! t_user t); simpl; [done|]. ring.
  - rewrite lookup_alter_ne, lookup_insert_or_ignore_user by done.
    rewrite bool_decide_eq_false_2 by done.
    destruct (users d !! uid); ring.
Qed.

Lemma ledger_ok_append t d : ledger_ok d → ledger_ok (ledger_append t d).
Proof.
  intros H uid.
  rewrite get_balance_ledger_append, list_events_ledger_append,
    sum_amounts_app, (H uid).
  case_bool_decide; simpl; ring.
Qed.

(** A statement that leaves balances and events alone keeps the ledger
    consistent. *)
Lemma ledger_ok_frame (f : db → db) d :
  (∀ uid, get_balance (f d) uid == get_balance d uid) →
  transactions (f d) = transactions d →
  ledger_ok d → ledger_ok (f d).
Proof.
  intros Hb Ht H uid. rewrite Hb. unfold list_events. rewrite Ht. apply H.
Qed.

Lemma get_balance_insert_new uid u uid' d :
  users d !! uid = None → balance u == 0 →
  get_balance (set_users (insert uid u) d) uid' == get_balance d uid'.
Proof.
  intros Hnone Hu. unfold get_balance. simpl.
  destruct (decide (uid = uid')) as [<-|Hne].
  - rewrite lookup_insert_eq, Hnone, Hu. done.
  - by rewrite lookup_insert_ne.
Qed.

Lemma get_balance_alter (h : user → user) uid uid' d :
  (∀ u, balance (h u) = balance u) →
  get_balance (set_users (alter h uid) d) uid' = get_balance d uid'.
Proof.
  intros Hh. unfold get_balance. simpl.
  destruct (decide (uid = uid')) as [<-|Hne].
  - rewrite lookup_alter_eq. destruct (users d !! uid); simpl; [apply Hh|done].
  - by rewrite lookup_alter_ne.
Qed.

Lemma get_balance_fmap (h : user → user) uid d :
  (∀ u, balance (h u) = balance u) →
  get_balance (set_users (fmap h) d) uid = get_balance d uid.
Proof.
  intros Hh. unfold get_balance. simpl. rewrite lookup_fmap.
  destruct (users d !! uid); simpl; [apply Hh|done].
Qed.

Lemma balance_names_of o u : balance (names_of o u) = balance u.
Proof. by destruct o. Qed.

(** *** Statements that keep a database good *)

Lemma good_db_set_users g d :
  (∀ uid, get_balance (set_users g d) uid == get_balance d uid) →
  good_db d → good_db (set_users g d).
Proof.
  intros Hb [H1 H2 H3 H4 H5]. split; try done.
  by apply (ledger_ok_frame (set_users g)).
Qed.

Lemma good_db_add_referral r uid d :
  bool_decide (r ≠ 0%Z ∧ r ≠ uid) = true →
  List.find (λ x, bool_decide (referred x = uid)) (referrals d) = None →
  good_db d →
  good_db (set_referrals (λ l, l ++ [mk_referral r uid]) d).
Proof.
  intros Hne Hfind [H1 H2 H3 H4 [H5 H6]]. split; try done.
  apply bool_decide_eq_true in Hne as [_ Hne].
  unfold referrals_ok in *. simpl. split.
  - rewrite map_app. simpl.
    apply NoDup_app. split; [done|]. split; [|apply NoDup_singleton].
    intros x Hx Hx'. apply list_elem_of_singleton in Hx'. subst x.
    apply list_elem_of_fmap in Hx as [row [Hrow Hin]].
    apply list_elem_of_In in Hin.
    eapply List.find_none in Hfind; [|apply Hin].
    by apply bool_decide_eq_false in Hfind.
  - intros row Hrow. apply elem_of_app in Hrow as [Hrow|Hrow]; [by apply H6|].
    apply list_elem_of_singleton in Hrow. by subst row.
Qed.

Lemma good_db_set_spins g d : good_db d → good_db (set_spins g d).
Proof. by intros []. Qed.

Lemma good_db_set_user_quiz_history g d :
  good_db d → good_db (set_user_quiz_history g d).
Proof. by intros []. Qed.

Lemma good_db_set_orders g d : good_db d → good_db (set_orders g d).
Proof. by intros []. Qed.

Lemma good_db_complete_mission uid mid d :
  good_db d →
  good_db (set_user_missions (λ l, l ++ [mk_user_mission uid mid 1]) d).
Proof.
  intros [H1 H2 H3 H4 H5]. split; try done.
  intros r Hr. simpl in Hr. apply elem_of_app in Hr as [Hr|Hr]; [by apply H4|].
  apply list_elem_of_singleton in Hr. by subst r.
Qed.

Lemma sample_questions_rewards q :
  q ∈ sample_questions → two_decimals (q_reward q).
Proof.
  unfold sample_questions. rewrite !elem_of_cons, elem_of_nil.
  intros [->|[->|[->|[]]]]; by vm_compute.
Qed.

Lemma sample_missions_rewards m :
  m ∈ sample_missions → two_decimals (m_reward m).
Proof.
  unfold sample_missions. rewrite !elem_of_cons, elem_of_nil.
  intros [->|[->|[]]]; by vm_compute.
Qed.

Lemma good_db_seed_questions d :
  good_db d → good_db (set_quiz_questions (λ l, l ++ sample_questions) d).
Proof.
  intros [H1 H2 [H3 H3'] H4 H5]. split; try done. split; [|done].
  intros q Hq. simpl in Hq. apply elem_of_app in Hq as [Hq|Hq]; [by apply H3|].
  by apply sample_questions_rewards.
Qed.

Lemma good_db_seed_missions d :
  good_db d → good_db (set_missions (λ l, l ++ sample_missions) d).
Proof.
  intros [H1 H2 [H3 H3'] H4 H5]. split; try done. split; [done|].
  intros m Hm. simpl in Hm. apply elem_of_app in Hm as [Hm|Hm]; [by apply H3'|].
  by apply sample_missions_rewards.
Qed.

Lemma good_db_ledger_append t d :
  (t_type t ≠ "admin_adjust" → two_decimals (t_amount t)) →
  good_db d → good_db (ledger_append t d).
Proof.
  intros Ht [H1 H2 H3 H4 H5]. split; try done.
  - by apply ledger_ok_append.
  - intros t' Hin. rewrite transactions_ledger_append in Hin.
    apply elem_of_app in Hin as [Hin|Hin]; [by apply H2|].
    apply list_elem_of_singleton in Hin. by subst t'.
Qed.

Lemma good_db_empty : good_db empty_db.
Proof.
  split.
  - intros uid. unfold get_balance. simpl. by rewrite lookup_empty.
  - intros t Ht. simpl in Ht. by apply elem_of_nil in Ht.
  - split; intros x Hx; simpl in Hx; by apply elem_of_nil in Hx.
  - intros r Hr. simpl in Hr. by apply elem_of_nil in Hr.
  - split; [apply NoDup_nil_2|].
    intros r Hr. simpl in Hr. by apply elem_of_nil in Hr.
Qed.

Lemma good_db_alter_user (h : user → user) uid d :
  (∀ u, balance (h u) = balance u) →
  good_db d → good_db (set_users (alter h uid) d).
Proof.
  intros Hh. apply good_db_set_users. intros uid'.
  by rewrite get_balance_alter.
Qed.

Lemma good_db_fmap_users (h : user → user) d :
  (∀ u, balance (h u) = balance u) →
  good_db d → good_db (set_users (fmap h) d).
Proof.
  intros Hh. apply good_db_set_users. intros uid'.
  by rewrite get_balance_fmap.
Qed.

Lemma good_db_insert_user uid u d :
  users d !! uid = None → balance u == 0 →
  good_db d → good_db (set_users (insert uid u) d).
Proof.
  intros Hnone Hu. apply good_db_set_users. intros uid'.
  by apply get_balance_insert_new.
Qed.

(** *** Statements that keep the state invariant *)

Lemma Inv_executed f s :
  (good_db (work s) → good_db (f (work s))) →
  transactions (f (work s)) = transactions (work s) →
  Inv s → Inv (executed f s).
Proof.
  intros Hf Ht [H1 H2 H3 H4]. split; simpl; auto. by rewrite Ht.
Qed.

Lemma Inv_committed s : Inv s → Inv (committed s).
Proof. intros [H1 H2 H3 H4]. by split. Qed.

Lemma Inv_appended t s :
  (t_type t ≠ "admin_adjust" → two_decimals (t_amount t)) →
  Inv s → Inv (appended t s).
Proof.
  intros Ht [H1 H2 H3 H4].
  split; simpl; auto using good_db_ledger_append.
Qed.

Lemma Inv_with_udata uid f s :
  good_udata (f (udata_of s uid)) → Inv s → Inv (with_udata uid f s).
Proof.
  intros Hf [H1 H2 H3 H4]. split; simpl; auto.
  intros uid' x. destruct (decide (uid = uid')) as [<-|Hne].
  - rewrite lookup_insert_eq. by intros [= <-].
  - rewrite lookup_insert_ne by done. apply H4.
Qed.

Lemma Inv_with_calls uid l s : Inv s → Inv (with_calls uid l s).
Proof. intros [H1 H2 H3 H4]. by split. Qed.

Lemma good_udata_empty : good_udata empty_udata.
Proof. by split. Qed.

Lemma good_udata_of s uid : Inv s → good_udata (udata_of s uid).
Proof.
  intros [_ _ _ H]. unfold udata_of.
  destruct (user_data s !! uid) as [x|] eqn:Hx; simpl;
    [by eapply H | apply good_udata_empty].
Qed.

Lemma Inv_open_db d : good_db d → Inv (open_db d).
Proof.
  intros H. split; simpl; auto. intros uid x. by rewrite lookup_empty.
Qed.

Lemma Inv_ensured user_id user_obj ref_by s :
  Inv s → Inv (ensured user_id user_obj ref_by s).
Proof.
  intros HI. unfold ensured, ensure_user, mbind, M_bind, bind, gets. simpl.
  destruct (users (work s) !! user_id) as [u|] eqn:Hu; [destruct user_obj|];
    simpl; [| done |].
  - apply Inv_committed, Inv_executed; [|done..].
    apply good_db_alter_user. intros u'. apply balance_names_of.
  - apply Inv_committed, Inv_executed; [|done..].
    apply good_db_insert_user; [done|]. by rewrite balance_names_of.
Qed.

Create HintDb inv.
#[local] Hint Resolve Inv_executed Inv_committed Inv_appended Inv_with_udata
  Inv_with_calls Inv_ensured Inv_open_db : inv.
#[local] Hint Resolve good_db_alter_user good_db_fmap_users
  good_db_add_referral good_db_set_spins good_db_set_user_quiz_history
  good_db_set_orders good_db_complete_mission good_db_seed_questions
  good_db_seed_missions good_db_empty : inv.

Ltac wp_branch :=
  lazymatch goal with
  | |- wp (if ?c then _ else _) _ _ _ => destruct c eqn:?
  | |- wp (match ?x with _ => _ end) _ _ _ => destruct x eqn:?
  | |- if ?c then _ else _ => destruct c eqn:?
  end.

Ltac wp_go := repeat first [wp_step | wp_branch].

(** *** Every handler keeps the invariant *)

Lemma two_decimals_4 : two_decimals 4.0.
Proof. by vm_compute. Qed.

Lemma two_decimals_bonus x :
  two_decimals (if Qgtb (safe_round x) DAILY_MAX_BONUS_PER_USER
                then DAILY_MAX_BONUS_PER_USER else safe_round x).
Proof.
  destruct (Qgtb _ _); [by vm_compute | apply two_decimals_safe_round].
Qed.

Lemma spin_walk_two_decimals table r upto :
  Forall (λ rw, two_decimals rw.1) table →
  two_decimals (spin_walk table r upto).
Proof.
  intros H. revert upto. induction H as [|[q w] l Hq _ IH]; intros upto; simpl.
  - by vm_compute.
  - destruct (r <=? upto + w)%Z; [done | apply IH].
Qed.

Lemma spin_once_two_decimals r : two_decimals (spin_once r).
Proof.
  apply spin_walk_two_decimals. unfold spin_rewards_table.
  repeat constructor; by vm_compute.
Qed.

Lemma good_udata_set_send_recipient r x :
  good_udata x → good_udata (set_send_recipient r x).
Proof. by intros []. Qed.

Lemma good_udata_set_awaiting_order b x :
  good_udata x → good_udata (set_awaiting_order b x).
Proof. by intros []. Qed.

Lemma good_udata_set_send_amount a x :
  two_decimals a → good_udata x → good_udata (set_send_amount a x).
Proof. intros Ha [H1 H2]. split; [|done]. simpl. by intros ? [= <-]. Qed.

Lemma good_udata_set_current_quiz q x :
  (∀ q', q = Some q' → two_decimals (q_reward q')) →
  good_udata x → good_udata (set_current_quiz q x).
Proof. intros Hq [H1 H2]. by split. Qed.

#[local] Hint Resolve two_decimals_4 two_decimals_bonus spin_once_two_decimals
  two_decimals_safe_round two_decimals_opp good_udata_of
  good_udata_set_send_recipient good_udata_set_awaiting_order
  good_udata_set_send_amount good_udata_set_current_quiz : inv.

Lemma start_handler_inv e u ref_id s :
  Inv s → wp (start_handler e u ref_id) (λ _, Inv) Inv s.
Proof. intros HI. unfold start_handler. wp_go; eauto 10 with inv. Qed.

Lemma balance_cmd_inv u s : Inv s → wp (balance_cmd u) (λ _, Inv) Inv s.
Proof. intros HI. unfold balance_cmd. wp_go; eauto 10 with inv. Qed.

Lemma daily_bonus_cmd_inv e u s :
  Inv s → wp (daily_bonus_cmd e u) (λ _, Inv) Inv s.
Proof.
  intros HI.
  unfold daily_bonus_cmd, rate_limited, daily_bonus_body,
    can_receive_bonus_today, update_last_bonus_and_streak.
  wp_go; eauto 12 with inv.
Qed.

Lemma send_start_inv u s : Inv s → wp (send_start u) (λ _, Inv) Inv s.
Proof. intros HI. unfold send_start. wp_go; eauto 10 with inv. Qed.

Lemma send_recipient_inv u rid s :
  Inv s → wp (send_recipient u rid) (λ _, Inv) Inv s.
Proof. intros HI. unfold send_recipient. wp_go; eauto 10 with inv. Qed.

Lemma send_amount_inv u parsed s :
  Inv s → wp (send_amount u parsed) (λ _, Inv) Inv s.
Proof. intros HI. unfold send_amount. wp_go; eauto 10 with inv. Qed.

(** The amount a transfer conversation holds was rounded when stored. *)
Lemma send_amount_two_decimals s uid amt :
  Inv s → send_amount_ (udata_of s uid) = Some amt → two_decimals amt.
Proof. intros HI. by apply (good_udata_of s uid HI). Qed.

Lemma current_quiz_two_decimals s uid q :
  Inv s → current_quiz (udata_of s uid) = Some q → two_decimals (q_reward q).
Proof. intros HI. by apply (good_udata_of s uid HI). Qed.

Lemma send_confirm_inv e u data s :
  Inv s → wp (send_confirm e u data) (λ _, Inv) Inv s.
Proof.
  intros HI. unfold send_confirm. wp_go; eauto 10 with inv.
  all: assert (two_decimals q) by eauto using send_amount_two_decimals.
  all: eauto 12 with inv.
Qed.

Lemma order_start_inv u s : Inv s → wp (order_start u) (λ _, Inv) Inv s.
Proof. intros HI. unfold order_start. wp_go; eauto 10 with inv. Qed.

Lemma order_message_handler_inv u text s :
  Inv s → wp (order_message_handler u text) (λ _, Inv) Inv s.
Proof. intros HI. unfold order_message_handler. wp_go; eauto 10 with inv. Qed.

Lemma choose_elem_of {A} e (l : list A) x : choose e l = Some x → x ∈ l.
Proof. unfold choose. intros H. apply list_elem_of_lookup. eauto. Qed.

Lemma quiz_start_inv e u s : Inv s → wp (quiz_start e u) (λ _, Inv) Inv s.
Proof.
  intros HI. unfold quiz_start, get_random_quiz_question.
  wp_go; eauto 10 with inv.
  all: apply Inv_with_udata; [|eauto with inv].
  all: apply good_udata_set_current_quiz; [|eauto with inv].
  all: intros q' [= <-].
  all: assert (Hgood : good_db (work (ensured (tg_id u) (Some u) None s)))
    by (apply inv_work; eauto with inv).
  all: apply (good_rewards _ Hgood).
  - apply choose_elem_of, list_elem_of_In, List.filter_In in Heqo.
    apply list_elem_of_In, Heqo.
  - by apply choose_elem_of in Heqo0.
Qed.

Lemma good_udata_clear_quiz x :
  good_udata x → good_udata (set_current_quiz None x).
Proof. intros H. by apply good_udata_set_current_quiz. Qed.

Lemma quiz_answer_cb_inv e u sel s :
  Inv s → wp (quiz_answer_cb e u sel) (λ _, Inv) Inv s.
Proof.
  intros HI. unfold quiz_answer_cb. wp_go; eauto 10 with inv.
  all: assert (two_decimals (q_reward q)) by eauto using current_quiz_two_decimals.
  all: eauto 12 using good_udata_clear_quiz with inv.
Qed.

Lemma spin_start_inv e u s : Inv s → wp (spin_start e u) (λ _, Inv) Inv s.
Proof. intros HI. unfold spin_start. wp_go; eauto 12 with inv. Qed.

Lemma admin_add_balance_cmd_inv e u args s :
  Inv s → wp (admin_add_balance_cmd e u args) (λ _, Inv) Inv s.
Proof.
  intros HI. unfold admin_add_balance_cmd. wp_go; eauto 10 with inv.
  apply Inv_appended; [done | eauto with inv].
Qed.

Lemma mission_turn_inv e uid m s :
  two_decimals (m_reward m) →
  Inv s → wp (mission_turn e uid m) (λ _, Inv) Inv s.
Proof. intros Hm HI. unfold mission_turn. wp_go; eauto 10 with inv. Qed.

Lemma check_and_apply_missions_for_user_inv e uid s :
  Inv s → wp (check_and_apply_missions_for_user e uid) (λ _, Inv) Inv s.
Proof.
  intros HI. unfold check_and_apply_missions_for_user. wp_go.
  eapply wp_mono; [apply (wp_for_each_inv Inv); [|done] | | done].
  - intros m s' Hm. apply mission_turn_inv.
    by apply (good_rewards _ (inv_work _ HI)).
  - intros ? s' HI'. simpl. wp_go. eauto with inv.
Qed.

Lemma daily_audit_job_inv e s :
  Inv s → wp (daily_audit_job e) (λ _, Inv) Inv s.
Proof.
  intros HI. unfold daily_audit_job. wp_go.
  apply wp_for_each_inv; [|eauto 10 with inv].
  intros uid s' _ HI'. wp_go.
  eapply wp_mono; [by apply check_and_apply_missions_for_user_inv|done..].
Qed.

Lemma main_inv s : Inv s → wp main (λ _, Inv) Inv s.
Proof.
  intros HI. unfold main, setup_sample_questions, create_sample_missions.
  wp_go; eauto 10 with inv.
Qed.

Lemma Inv_initial_state : Inv initial_state.
Proof.
  unfold initial_state. apply wp_final, main_inv, Inv_open_db, good_db_empty.
Qed.

Lemma handle_inv e a s : Inv s → Inv (handle e a s).2.
Proof.
  intros HI. apply wp_final.
  destruct a; simpl; try apply wp_run_;
    try (eapply wp_mono; [eauto using start_handler_inv, balance_cmd_inv,
      daily_bonus_cmd_inv, send_start_inv, send_recipient_inv,
      send_amount_inv, send_confirm_inv, order_start_inv,
      order_message_handler_inv, quiz_start_inv, quiz_answer_cb_inv,
      spin_start_inv, admin_add_balance_cmd_inv | done..]).
  - by apply daily_audit_job_inv.
  - apply (main_inv (open_db (disk s))), Inv_open_db, (inv_disk _ HI).
Qed.

(** Every reachable state satisfies the invariant. *)
Lemma reachable_Inv s : reachable s → Inv s.
Proof.
  induction 1 as [|s e a _ IH]; [apply Inv_initial_state | by apply handle_inv].
Qed.

(** *** The ledger is append-only *)

Lemma grown_executed l f s :
  transactions (f (work s)) = transactions (work s) →
  grown_from l s → grown_from l (executed f s).
Proof. intros Hf [H1 H2]. split; simpl; by rewrite Hf. Qed.

Lemma grown_committed l s : grown_from l s → grown_from l (committed s).
Proof. by intros [H1 H2]. Qed.

Lemma grown_appended l t s : grown_from l s → grown_from l (appended t s).
Proof.
  intros [H1 H2]. split; [|done]. simpl.
  by apply prefix_app_r.
Qed.

Lemma grown_with_udata l uid f s :
  grown_from l s → grown_from l (with_udata uid f s).
Proof. by intros [H1 H2]. Qed.

Lemma grown_with_calls l uid c s :
  grown_from l s → grown_from l (with_calls uid c s).
Proof. by intros [H1 H2]. Qed.

Lemma grown_ensured l user_id user_obj ref_by s :
  grown_from l s → grown_from l (ensured user_id user_obj ref_by s).
Proof.
  intros H. unfold ensured, ensure_user, mbind, M_bind, bind, gets. simpl.
  destruct (users (work s) !! user_id); [destruct user_obj|]; simpl; [|done|];
    by apply grown_committed, grown_executed.
Qed.

Create HintDb grow.
#[local] Hint Resolve grown_executed grown_committed grown_appended
  grown_with_udata grown_with_calls grown_ensured : grow.

Ltac grown_auto := wp_go; eauto 12 with grow.

Lemma check_and_apply_missions_for_user_grown l e uid s :
  grown_from l s →
  wp (check_and_apply_missions_for_user e uid)
     (λ _, grown_from l) (grown_from l) s.
Proof.
  intros H. unfold check_and_apply_missions_for_user. wp_go.
  eapply wp_mono; [apply (wp_for_each_inv (grown_from l)); [|done] | | done].
  - intros m s' _ H'. unfold mission_turn. grown_auto.
  - intros ? s' H'. simpl. grown_auto.
Qed.

Lemma main_grown l s : grown_from l s → wp main (λ _, grown_from l) (grown_from l) s.
Proof.
  intros H. unfold main, setup_sample_questions, create_sample_missions.
  grown_auto.
Qed.

Lemma handle_grown l e a s : grown_from l s → grown_from l (handle e a s).2.
Proof.
  intros H. apply wp_final.
  destruct a; simpl; try apply wp_run_.
  - unfold start_handler. grown_auto.
  - unfold balance_cmd. grown_auto.
  - unfold daily_bonus_cmd, rate_limited, daily_bonus_body,
      can_receive_bonus_today, update_last_bonus_and_streak. grown_auto.
  - unfold send_start. grown_auto.
  - unfold send_recipient. grown_auto.
  - unfold send_amount. grown_auto.
  - unfold send_confirm. grown_auto.
  - unfold order_start. grown_auto.
  - unfold order_message_handler. grown_auto.
  - unfold quiz_start, get_random_quiz_question. grown_auto.
  - unfold quiz_answer_cb. grown_auto.
  - unfold spin_start. grown_auto.
  - unfold admin_add_balance_cmd. grown_auto.
  - unfold daily_audit_job. wp_go.
    apply wp_for_each_inv; [|eauto 10 with grow].
    intros uid s' _ H'. wp_go.
    eapply wp_mono;
      [by apply check_and_apply_missions_for_user_grown | done..].
  - apply (main_grown l (open_db (disk s))).
    destruct H as [H1 H2]. split; simpl; [by rewrite <- H2 | done].
Qed.

Lemma reachable_after evs s : reachable s → reachable (after evs s).
Proof.
  revert s. induction evs as [|[e a] evs IH]; intros s Hs; [done|].
  apply IH. by apply reachable_step.
Qed.

(** ** What [ensure_user] changes *)

Lemma work_ensured user_id user_obj ref_by s :
  work (ensured user_id user_obj ref_by s) =
  set_users (ensure_row user_id user_obj ref_by) (work s).
Proof.
  unfold ensured, ensure_user, ensure_row, mbind, M_bind, bind, gets.
  destruct s as [[us txs rs sps qs hs ms ums os] d ud c]. simpl.
  unfold set_users. simpl.
  by destruct (us !! user_id); [destruct user_obj|].
Qed.

Lemma user_data_ensured user_id user_obj ref_by s :
  user_data (ensured user_id user_obj ref_by s) = user_data s.
Proof.
  unfold ensured, ensure_user, mbind, M_bind, bind, gets. simpl.
  by destruct (users (work s) !! user_id); [destruct user_obj|].
Qed.

Lemma calls_ensured user_id user_obj ref_by s :
  calls (ensured user_id user_obj ref_by s) = calls s.
Proof.
  unfold ensured, ensure_user, mbind, M_bind, bind, gets. simpl.
  by destruct (users (work s) !! user_id); [destruct user_obj|].
Qed.

Lemma udata_of_ensured user_id user_obj ref_by s uid :
  udata_of (ensured user_id user_obj ref_by s) uid = udata_of s uid.
Proof. unfold udata_of. by rewrite user_data_ensured. Qed.

Lemma lookup_ensure_row user_id user_obj ref_by us uid :
  ensure_row user_id user_obj ref_by us !! uid =
  if bool_decide (uid = user_id) then
    Some (names_of user_obj
            (default (mk_user None None None 0 None 0 ref_by 0 0)
                     (us !! user_id)))
  else us !! uid.
Proof.
  unfold ensure_row. case_bool_decide as Heq.
  - subst uid. destruct (us !! user_id) as [x|] eqn:Hx; simpl.
    + destruct user_obj; [by rewrite lookup_alter_eq, Hx | done].
    + by rewrite lookup_insert_eq.
  - destruct (us !! user_id) as [x|] eqn:Hx; simpl.
    + destruct user_obj; [by rewrite lookup_alter_ne | done].
    + by rewrite lookup_insert_ne.
Qed.

Lemma get_balance_ensure_row user_id user_obj ref_by d uid :
  get_balance (set_users (ensure_row user_id user_obj ref_by) d) uid ==
  get_balance d uid.
Proof.
  unfold get_balance. simpl. rewrite lookup_ensure_row.
  case_bool_decide as Heq; [subst uid|done].
  rewrite balance_names_of. by destruct (users d !! user_id).
Qed.

Lemma get_balance_ensured user_id user_obj ref_by s uid :
  get_balance (work (ensured user_id user_obj ref_by s)) uid ==
  get_balance (work s) uid.
Proof. rewrite work_ensured. apply get_balance_ensure_row. Qed.

Lemma stored_last_bonus_ensured user_id user_obj ref_by s uid :
  stored_last_bonus (work (ensured user_id user_obj ref_by s)) uid =
  stored_last_bonus (work s) uid.
Proof.
  rewrite work_ensured. unfold stored_last_bonus. simpl.
  rewrite lookup_ensure_row. case_bool_decide as Heq; [subst uid|done].
  destruct (users (work s) !! user_id); simpl; by destruct user_obj.
Qed.

Lemma stored_streak_ensured user_id user_obj ref_by s uid :
  stored_streak (work (ensured user_id user_obj ref_by s)) uid =
  stored_streak (work s) uid.
Proof.
  rewrite work_ensured. unfold stored_streak. simpl.
  rewrite lookup_ensure_row. case_bool_decide as Heq; [subst uid|done].
  destruct (users (work s) !! user_id); simpl; by destruct user_obj.
Qed.

Lemma ensured_row_exists user_id user_obj ref_by s :
  is_Some (users (work (ensured user_id user_obj ref_by s)) !! user_id).
Proof.
  rewrite work_ensured. simpl. rewrite lookup_ensure_row.
  by rewrite bool_decide_eq_true_2.
Qed.

(** ** Rounding of the stored amounts *)

(** C3, as amended: in every reachable state, every stored event other than
    an admin adjustment (the events of the daily bonus, of a referral, of
    the quiz, of the spin, of a transfer and of a mission reward) carries an
    amount that equals its own rounding to two decimal places, half up,
    which is also what [safe_round] returns on it. *)
Theorem stored_amounts_are_rounded s t :
  reachable s → t ∈ transactions (work s) → t_type t ≠ "admin_adjust" →
  t_amount t == round_half_up_2dp (t_amount t) ∧
  safe_round (t_amount t) == t_amount t.
Proof.
  intros Hs Ht Hty. assert (HI := reachable_Inv s Hs).
  assert (H : two_decimals (t_amount t))
    by by apply (good_amounts _ (inv_work _ HI)).
  split; [exact H | by apply safe_round_fixed].
Qed.

Lemma stored_amounts_are_rounded_witness :
  let t := mk_txn 1 "referral" 4.0 (ReasonReferral 2)
             [("referred", inject_Z 2)] in
  reachable bob_referred ∧ t ∈ transactions (work bob_referred) ∧
  t_type t ≠ "admin_adjust" ∧
  t_amount t == round_half_up_2dp (t_amount t) ∧
  safe_round (t_amount t) == t_amount t.
Proof.
  intros t.
  assert (H1 : reachable bob_referred)
    by apply (reachable_step _ _ _ reachable_init).
  assert (H2 : t ∈ transactions (work bob_referred))
    by (apply list_elem_of_In; vm_compute; by left).
  assert (H3 : t_type t ≠ "admin_adjust") by done.
  split; [exact H1|]. split; [exact H2|]. split; [exact H3|].
  exact (stored_amounts_are_rounded bob_referred t H1 H2 H3).
Defined.

(** C3, as stated, fails on an admin adjustment: /addbal 1 0.001 stores the
    amount 0.001, which is not its own rounding to two decimal places. *)
Lemma admin_adjustment_not_rounded :
  reachable admin_credit ∧
  transactions (work admin_credit) =
    [mk_txn 1 "admin_adjust" 0.001 (ReasonAdmin 9) []] ∧
  ¬ 0.001 == round_half_up_2dp 0.001 ∧
  ¬ 0.001 == safe_round 0.001.
Proof.
  split; [apply (reachable_step _ _ _ reachable_init)|].
  split; [by vm_compute|]. split; vm_compute; discriminate.
Qed.

(** ** Referrals *)


Lemma no_referral_issued_ensured user_id user_obj ref_by s :
  no_referral_issued s (ensured user_id user_obj ref_by s).
Proof.
  unfold no_referral_issued. rewrite work_ensured. simpl.
  split; [done|]. split; [done|]. intros uid. apply get_balance_ensure_row.
Qed.




(** [start_handler] with the account's own id as referrer. *)
Lemma start_handler_self e u s :
  ∃ bal, start_handler e u (Some (tg_id u)) s =
         (Done (ReplyWelcome bal),
          ensured (tg_id u) (Some u) (Some (tg_id u)) s).
Proof.
  unfold start_handler, mbind, M_bind, bind, gets.
  pose proof (wp_ensure_user (tg_id u) (Some u) (Some (tg_id u))
                (λ _ s', s' = ensured (tg_id u) (Some u) (Some (tg_id u)) s)
                (λ _, False) s) as [_ Hw].
  specialize (Hw eq_refl). unfold wp in Hw.
  destruct (ensure_user (tg_id u) (Some u) (Some (tg_id u)) s)
    as [[[]|] s1]; [|done].
  subst s1. rewrite bool_decide_eq_false_2 by tauto. by eexists.
Qed.



(** The payload of /start reaches [start_handler] through
    [parse_start_args]: "ref" followed by the account's own id is the
    self-referral above, whatever [int] accepts. *)
Lemma self_referral_payload_inert py_int args e u s :
  parse_start_args py_int args = Some (tg_id u) →
  no_referral_issued s (start_handler e u (parse_start_args py_int args) s).2.
Proof.
  intros ->. destruct (start_handler_self e u s) as [bal ->].
  apply no_referral_issued_ensured.
Qed.

(** ** Daily bonus and streak *)

Lemma Done_inj {A} (a b : A) : Done a = Done b → a = b.
Proof. by intros [= ->]. Qed.

Lemma ReplyBonus_inj b1 k1 sb1 t1 bal1 b2 k2 sb2 t2 bal2 :
  ReplyBonus b1 k1 sb1 t1 bal1 = ReplyBonus b2 k2 sb2 t2 bal2 →
  b1 = b2 ∧ k1 = k2 ∧ sb1 = sb2 ∧ t1 = t2 ∧ bal1 = bal2.
Proof. by intros [= -> -> -> -> ->]. Qed.

Lemma transactions_set_users f d :
  transactions (set_users f d) = transactions d.
Proof. done. Qed.

Lemma wp_Done {A} (m : M A) Q E s a s' :
  wp m Q E s → m s = (Done a, s') → Q a s'.
Proof. unfold wp. intros H Heq. by rewrite Heq in H. Qed.

Lemma wp_Raised {A} (m : M A) Q E s s' :
  wp m Q E s → m s = (Raised, s') → E s'.
Proof. unfold wp. intros H Heq. by rewrite Heq in H. Qed.

Lemma wp_returns {A} (m : M A) Q s :
  wp m Q (λ _, False) s → ∃ a s', m s = (Done a, s') ∧ Q a s'.
Proof. unfold wp. destruct (m s) as [[a|] s']; [eauto | done]. Qed.

Lemma stored_streak_ledger_append t d uid :
  stored_streak (ledger_append t d) uid = stored_streak d uid.
Proof.
  unfold stored_streak. rewrite users_ledger_append.
  destruct (decide (t_user t = uid)) as [<-|Hne].
  - rewrite lookup_alter_eq, lookup_insert_or_ignore_user.
    rewrite bool_decide_eq_true_2 by done.
    by destruct (users d !! t_user t).
  - rewrite lookup_alter_ne, lookup_insert_or_ignore_user by done.
    rewrite bool_decide_eq_false_2 by done.
    by destruct (users d !! uid).
Qed.

Lemma stored_last_bonus_ledger_append t d uid :
  stored_last_bonus (ledger_append t d) uid = stored_last_bonus d uid.
Proof.
  unfold stored_last_bonus. rewrite users_ledger_append.
  destruct (decide (t_user t = uid)) as [<-|Hne].
  - rewrite lookup_alter_eq, lookup_insert_or_ignore_user.
    rewrite bool_decide_eq_true_2 by done.
    by destruct (users d !! t_user t).
  - rewrite lookup_alter_ne, lookup_insert_or_ignore_user by done.
    rewrite bool_decide_eq_false_2 by done.
    by destruct (users d !! uid).
Qed.

Lemma wp_run_eq {A} (m : M A) (x : outcome A * state) s :
  wp m (λ a s', (Done a, s') = x) (λ s', (Raised, s') = x) s → m s = x.
Proof. unfold wp. by destruct (m s) as [[a|] s']. Qed.

(** The summary of a run of [daily_bonus_cmd]. *)
Lemma daily_bonus_cmd_run e u s :
  let uid := tg_id u in
  let recent := recent_calls e uid s in
  let s1 := ensured uid (Some u) None (with_calls uid (recent ++ [now e]) s) in
  let k := next_streak e (work s1) uid in
  let s2 := committed (executed
              (set_users (alter (set_bonus_streak (today e) k) uid)) s1) in
  let base := py_round2 (rand_uniform e) in
  let sbonus := py_round2 (inject_Z k * 0.2) in
  let total := if Qgtb (safe_round (base + sbonus)) DAILY_MAX_BONUS_PER_USER
               then DAILY_MAX_BONUS_PER_USER
               else safe_round (base + sbonus) in
  let t := mk_txn uid "bonus" total (ReasonDailyBonus base sbonus)
             [("streak", inject_Z k)] in
  daily_bonus_cmd e u s =
  if bool_decide (6 ≤ length recent)%nat then (Done ReplyTooFast, s)
  else if bool_decide (stored_last_bonus (work s1) uid = Some (today e))
  then (Done ReplyAlreadyClaimed, s1)
  else if fault e (length (transactions (work s1))) then (Raised, s2)
  else (Done (ReplyBonus base k sbonus total
                (safe_round (get_balance (work (appended t s2)) uid))),
        appended t s2).
Proof.
  intros uid recent s1 k s2 base sbonus total t.
  apply wp_run_eq.
  unfold daily_bonus_cmd, rate_limited. repeat wp_step.
  change (List.filter (λ t0, Qltb (now e - t0) 60)
            (default [] (calls s !! tg_id u))) with recent.
  destruct (bool_decide (6 ≤ length recent)%nat); [by wp_step|].
  unfold daily_bonus_body. repeat wp_step.
  change (ensured (tg_id u) (Some u) None
            (with_calls (tg_id u) (recent ++ [now e]) s)) with s1.
  change (tg_id u) with uid.
  destruct (ensured_row_exists uid (Some u) None
              (with_calls uid (recent ++ [now e]) s)) as [row Hrow].
  fold s1 in Hrow.
  assert (Hlast : stored_last_bonus (work s1) uid = last_bonus row)
    by (unfold stored_last_bonus; by rewrite Hrow).
  assert (Hstreak : stored_streak (work s1) uid = streak row)
    by (unfold stored_streak; by rewrite Hrow).
  assert (Hk : (if bool_decide (last_bonus row = Some (today e - 1)%Z)
                then (streak row + 1)%Z else 1%Z) = k).
  { unfold k, next_streak. by rewrite Hlast, Hstreak. }
  rewrite Hlast.
  assert (Hclaim :
    wp (streak0 ← update_last_bonus_and_streak e uid base;
        add_transaction e uid "bonus"
          (if Qgtb (safe_round (base + py_round2 (inject_Z streak0 * 0.2)))
                DAILY_MAX_BONUS_PER_USER
           then DAILY_MAX_BONUS_PER_USER
           else safe_round (base + py_round2 (inject_Z streak0 * 0.2)))
          (ReasonDailyBonus base (py_round2 (inject_Z streak0 * 0.2)))
          [("streak", inject_Z streak0)] ;;
        bal ← gets (λ s0, get_balance (work s0) uid);
        mret (ReplyBonus base streak0 (py_round2 (inject_Z streak0 * 0.2))
                (if Qgtb (safe_round (base + py_round2 (inject_Z streak0 * 0.2)))
                      DAILY_MAX_BONUS_PER_USER
                 then DAILY_MAX_BONUS_PER_USER
                 else safe_round (base + py_round2 (inject_Z streak0 * 0.2)))
                (safe_round bal)))
       (λ a s', (Done a, s') =
          if fault e (length (transactions (work s1))) then (Raised, s2)
          else (Done (ReplyBonus base k sbonus total
                  (safe_round (get_balance (work (appended t s2)) uid))),
                appended t s2))
       (λ s', (Raised, s') =
          if fault e (length (transactions (work s1))) then (Raised, s2)
          else (Done (ReplyBonus base k sbonus total
                  (safe_round (get_balance (work (appended t s2)) uid))),
                appended t s2)) s1).
  { unfold update_last_bonus_and_streak. repeat wp_step. rewrite Hrow.
    cbv zeta. rewrite Hk. repeat wp_step. fold s2.
    change (transactions (work s2)) with (transactions (work s1)).
    destruct (fault e _); [done|]. by repeat wp_step. }
  unfold can_receive_bonus_today. repeat wp_step. rewrite Hrow.
  destruct (last_bonus row) as [last|]; wp_step.
  - destruct (decide (last = today e)) as [->|Hne].
    + rewrite bool_decide_eq_false_2 by tauto.
      rewrite bool_decide_eq_true_2 by done. cbn [negb]. by wp_step.
    + rewrite bool_decide_eq_true_2 by done.
      rewrite bool_decide_eq_false_2 by congruence. cbn [negb].
      apply Hclaim.
  - cbn [negb]. apply Hclaim.
Qed.

Lemma stored_streak_set_bonus_streak d uid day k :
  is_Some (users d !! uid) →
  stored_streak (set_users (alter (set_bonus_streak day k) uid) d) uid = k.
Proof.
  intros [row Hrow]. unfold stored_streak. simpl.
  by rewrite lookup_alter_eq, Hrow.
Qed.

Lemma stored_last_bonus_set_bonus_streak d uid day k :
  is_Some (users d !! uid) →
  stored_last_bonus (set_users (alter (set_bonus_streak day k) uid) d) uid =
  Some day.
Proof.
  intros [row Hrow]. unfold stored_last_bonus. simpl.
  by rewrite lookup_alter_eq, Hrow.
Qed.

Lemma next_streak_ensured e user_id user_obj ref_by s uid :
  next_streak e (work (ensured user_id user_obj ref_by s)) uid =
  next_streak e (work s) uid.
Proof.
  unfold next_streak.
  by rewrite stored_last_bonus_ensured, stored_streak_ensured.
Qed.

Lemma transactions_ensured user_id user_obj ref_by s :
  transactions (work (ensured user_id user_obj ref_by s)) =
  transactions (work s).
Proof. by rewrite work_ensured. Qed.

Lemma two_decimals_py_round2 x : two_decimals (py_round2 x).
Proof. unfold py_round2. apply two_decimals_cents. Qed.

Lemma streak_bonus_exact (k : Z) :
  py_round2 (inject_Z k * 0.2) == inject_Z k * 0.2.
Proof.
  assert (H : inject_Z k * 0.2 == inject_Z (20 * k) / 100).
  { rewrite inject_Z_mult. field. }
  rewrite H. apply py_round2_cents.
Qed.

(** The amount of a bonus: base plus streak bonus, no rounding lost. *)
Lemma bonus_total_exact (r : Q) (k : Z) :
  safe_round (py_round2 r + py_round2 (inject_Z k * 0.2)) ==
  py_round2 r + inject_Z k * 0.2.
Proof.
  rewrite safe_round_fixed.
  - by rewrite streak_bonus_exact.
  - apply two_decimals_plus; apply two_decimals_py_round2.
Qed.

Lemma clamp_is_Qmin (x m : Q) : (if Qgtb x m then m else x) == Qmin x m.
Proof.
  unfold Qgtb. destruct (Qltb m x) eqn:Hlt.
  - apply Qltb_lt in Hlt. symmetry. apply Q.min_r. by apply Qlt_le_weak.
  - apply Qltb_ge in Hlt. symmetry. by apply Q.min_l.
Qed.

(** C5: for every successful daily bonus claim, that is every run of
    [daily_bonus_cmd] that answers with the bonus message: the streak stored
    for the account afterwards is the old stored streak plus 1 if the stored
    last-bonus date was exactly yesterday, and 1 otherwise; the last-bonus
    date stored is today; and exactly one event is appended, of type bonus,
    for the account, whose amount is the random base (the draw of
    [random.uniform], rounded to two decimals as the source does) plus the
    new streak times 0.2, clamped above by the ceiling 20.0. *)
Theorem daily_bonus_streak_and_amount e u s base k sbonus total bal s' :
  daily_bonus_cmd e u s = (Done (ReplyBonus base k sbonus total bal), s') →
  let uid := tg_id u in
  stored_streak (work s') uid =
    (if bool_decide (stored_last_bonus (work s) uid = Some (today e - 1)%Z)
     then stored_streak (work s) uid + 1 else 1)%Z ∧
  stored_last_bonus (work s') uid = Some (today e) ∧
  ∃ t, transactions (work s') = transactions (work s) ++ [t] ∧
       t_user t = uid ∧ t_type t = "bonus" ∧
       t_amount t ==
         Qmin (py_round2 (rand_uniform e) +
               inject_Z (stored_streak (work s') uid) * 0.2)
              DAILY_MAX_BONUS_PER_USER.
Proof.
  intros Hrun uid. rewrite daily_bonus_cmd_run in Hrun. cbv zeta in Hrun.
  fold uid in Hrun.
  destruct (bool_decide (6 ≤ _)%nat); [done|].
  destruct (bool_decide (stored_last_bonus _ uid = Some (today e))); [done|].
  destruct (fault e _); [done|].
  apply pair_equal_spec in Hrun as [Hr Hs'].
  apply Done_inj, ReplyBonus_inj in Hr as (Hbase & Hk & Hsb & Htot & Hbal).
  set (s0 := with_calls uid (recent_calls e uid s ++ [now e]) s) in *.
  assert (Hrow := ensured_row_exists uid (Some u) None s0).
  assert (Hk' : k = next_streak e (work s) uid).
  { rewrite <- Hk. apply (next_streak_ensured e uid (Some u) None s0 uid). }
  assert (Hstreak : stored_streak (work s') uid = k).
  { rewrite <- Hs', work_appended, stored_streak_ledger_append.
    rewrite work_committed, work_executed, Hk.
    by apply stored_streak_set_bonus_streak. }
  split; [by rewrite Hstreak, Hk'|]. split.
  { rewrite <- Hs', work_appended, stored_last_bonus_ledger_append.
    rewrite work_committed, work_executed.
    by apply stored_last_bonus_set_bonus_streak. }
  eexists. split.
  { rewrite <- Hs', work_appended, transactions_ledger_append.
    rewrite work_committed, work_executed, transactions_set_users.
    by rewrite (transactions_ensured uid (Some u) None s0). }
  split; [done|]. split; [done|]. cbn [t_amount].
  rewrite Hk, Hstreak, clamp_is_Qmin. by rewrite bonus_total_exact.
Qed.

Lemma daily_bonus_streak_and_amount_witness :
  let s' := (daily_bonus_cmd (calm 100 0) alice alice_claimed_yesterday).2 in
  daily_bonus_cmd (calm 100 0) alice alice_claimed_yesterday =
    (Done (ReplyBonus 1.00 2 0.40 1.40 2.60), s') ∧
  stored_last_bonus (work alice_claimed_yesterday) 1 = Some 99%Z ∧
  stored_streak (work s') 1 = 2%Z ∧
  stored_last_bonus (work s') 1 = Some 100%Z.
Proof.
  intros s'.
  assert (Hrun : daily_bonus_cmd (calm 100 0) alice alice_claimed_yesterday =
                 (Done (ReplyBonus 1.00 2 0.40 1.40 2.60), s'))
    by (by vm_compute).
  split; [exact Hrun|]. split; [by vm_compute|].
  pose proof (daily_bonus_streak_and_amount (calm 100 0) alice
                alice_claimed_yesterday _ _ _ _ _ _ Hrun) as [H1 [H2 _]].
  split; [exact H1 | exact H2].
Defined.





(** A claim on a day whose bonus is already stored changes nothing. *)
Lemma daily_bonus_already_claimed e u s :
  let uid := tg_id u in
  stored_last_bonus (work s) uid = Some (today e) →
  ∃ r s', daily_bonus_cmd e u s = (Done r, s') ∧
    (r = ReplyAlreadyClaimed ∨ r = ReplyTooFast) ∧
    transactions (work s') = transactions (work s) ∧
    (∀ a, get_balance (work s') a == get_balance (work s) a) ∧
    (∀ a, stored_last_bonus (work s') a = stored_last_bonus (work s) a) ∧
    (∀ a, stored_streak (work s') a = stored_streak (work s) a).
Proof.
  intros uid Hlast. rewrite daily_bonus_cmd_run. cbv zeta. fold uid.
  destruct (bool_decide (6 ≤ _)%nat).
  { exists ReplyTooFast, s. split; [done|]. split; [by right|]. done. }
  set (s0 := with_calls uid (recent_calls e uid s ++ [now e]) s).
  rewrite bool_decide_eq_true_2
    by by rewrite (stored_last_bonus_ensured uid (Some u) None s0).
  exists ReplyAlreadyClaimed, (ensured uid (Some u) None s0).
  split; [done|]. split; [by left|].
  split; [exact (transactions_ensured uid (Some u) None s0)|].
  split; [intros a; exact (get_balance_ensured uid (Some u) None s0 a)|].
  split; intros a;
    [exact (stored_last_bonus_ensured uid (Some u) None s0 a)
    |exact (stored_streak_ensured uid (Some u) None s0 a)].
Qed.





(** Two claims on one day: the second is rejected and changes nothing. *)
Lemma second_claim_same_day_rejected e e' u s base k sbonus total bal s1 :
  daily_bonus_cmd e u s = (Done (ReplyBonus base k sbonus total bal), s1) →
  today e' = today e →
  ∃ r s2, daily_bonus_cmd e' u s1 = (Done r, s2) ∧
    (r = ReplyAlreadyClaimed ∨ r = ReplyTooFast) ∧
    transactions (work s2) = transactions (work s1) ∧
    (∀ a, get_balance (work s2) a == get_balance (work s1) a).
Proof.
  intros Hrun Hday.
  assert (Hlast : stored_last_bonus (work s1) (tg_id u) = Some (today e')).
  { rewrite Hday. rewrite daily_bonus_cmd_run in Hrun. cbv zeta in Hrun.
    destruct (bool_decide (6 ≤ _)%nat); [done|].
    destruct (bool_decide (stored_last_bonus _ _ = Some (today e))); [done|].
    destruct (fault e _); [done|].
    apply pair_equal_spec in Hrun as [_ <-].
    rewrite work_appended, stored_last_bonus_ledger_append.
    rewrite work_committed, work_executed.
    apply stored_last_bonus_set_bonus_streak, ensured_row_exists. }
  destruct (daily_bonus_already_claimed e' u s1 Hlast)
    as (r & s2 & H1 & H2 & H3 & H4 & _).
  by exists r, s2.
Qed.

(** ** Transfers *)



Lemma set_daily_sent_balance f x : balance (set_daily_sent f x) = balance x.
Proof. done. Qed.






(** ** Missions *)


Lemma find_app_Some {A} (f : A → bool) (l1 l2 : list A) x :
  List.find f l1 = Some x → List.find f (l1 ++ l2) = Some x.
Proof.
  induction l1 as [|y l1 IH]; simpl; [done|].
  by destruct (f y).
Qed.








(** *** Two evaluations in a row *)



Lemma condition_met_stable uid d d' c :
  referrals d' = referrals d → spins d' = spins d →
  condition_met d' uid c = condition_met d uid c.
Proof. intros H1 H2. unfold condition_met. by rewrite H1, H2. Qed.

Lemma missions_stable_refl uid d : missions_stable uid d d.
Proof. by repeat split. Qed.








(** * Further properties of the code *)

(** ** [safe_round] *)



(** ** [spin_once] *)

(** Every draw between 1 and the total weight falls in the bucket of some
    row. *)
Lemma spin_bucket_exists (table : list (Q * Z)) (r upto : Z) :
  Forall (λ rw, 0 <= rw.2)%Z table →
  (upto < r <= upto + total_weight table)%Z →
  ∃ pre rw post, table = pre ++ rw :: post ∧
    (upto + total_weight pre < r <= upto + total_weight pre + rw.2)%Z.
Proof.
  intros Hnn. revert upto.
  induction Hnn as [|[q w] l Hw Hl IH]; intros upto [Hlo Hhi]; simpl in *.
  - lia.
  - destruct (Z.le_gt_cases r (upto + w)) as [Hle|Hgt].
    + exists [], (q, w), l. simpl. split; [done | lia].
    + destruct (IH (upto + w)%Z) as (pre & rw & post & -> & Hb); [lia|].
      exists ((q, w) :: pre), rw, post. simpl. split; [done | lia].
Qed.

Lemma spin_rewards_distinct (i j : nat) (x y : Q * Z) :
  spin_rewards_table !! i = Some x → spin_rewards_table !! j = Some y →
  x.1 == y.1 → i = j.
Proof.
  unfold spin_rewards_table.
  do 7 (destruct i as [|i]; [do 7 (destruct j as [|j];
     [intros [= <-] [= <-]; first [reflexivity | by vm_compute] |]);
     intros _ Hj; by destruct j |]).
  intros Hi. by destruct i.
Qed.

Lemma decomposition_lookup {A} (l pre post : list A) (x : A) :
  l = pre ++ x :: post → l !! length pre = Some x ∧ pre = take (length pre) l.
Proof.
  intros ->. split.
  - by rewrite lookup_app_r, Nat.sub_diag by lia.
  - by rewrite take_app_length.
Qed.

(** X3: the spin sampler reproduces the bucket boundaries of the weight
    table exactly: for a draw between 1 and the total weight 86, the reward
    of a row is returned if and only if the draw lies above the sum of the
    weights of the rows before it and at most that sum plus the weight of
    the row; so each reward is drawn by exactly as many values as its
    weight, and no such draw reaches the fall-through [return 0.0]. *)
Theorem spin_once_exact_buckets (pre post : list (Q * Z)) (reward : Q) (weight r : Z) :
  spin_rewards_table = pre ++ (reward, weight) :: post →
  (1 <= r <= 86)%Z →
  (spin_once r == reward ↔
   (total_weight pre < r <= total_weight pre + weight)%Z).
Proof.
  intros Htab Hr. split.
  - intros Heq.
    destruct (spin_bucket_exists spin_rewards_table r 0
                spin_table_weights_nonneg)
      as (pre' & [q w] & post' & Htab' & Hb); [rewrite spin_table_total; lia|].
    cbn [snd] in Hb.
    assert (Hrun : spin_once r = q).
    { unfold spin_once. rewrite Htab'. apply spin_walk_bucket; [|lia..].
      assert (H := spin_table_weights_nonneg). rewrite Htab' in H.
      by apply Forall_app in H as [H _]. }
    destruct (decomposition_lookup _ _ _ _ Htab) as [H1 H2].
    destruct (decomposition_lookup _ _ _ _ Htab') as [H1' H2'].
    assert (Hlen : length pre' = length pre).
    { apply (spin_rewards_distinct _ _ _ _ H1' H1). simpl. by rewrite <- Hrun. }
    assert (pre' = pre) by congruence. subst pre'.
    rewrite H1 in H1'. injection H1' as <- <-. lia.
  - intros [Hlo Hhi]. unfold spin_once. rewrite Htab.
    rewrite spin_walk_bucket; [done| |lia..].
    assert (H := spin_table_weights_nonneg). rewrite Htab in H.
    by apply Forall_app in H as [H _].
Qed.

Lemma spin_once_exact_buckets_witness :
  spin_rewards_table =
    [(0.0, 10%Z)] ++ (0.2, 25%Z) :: drop 2 spin_rewards_table ∧
  (1 <= 36 <= 86)%Z ∧
  ¬ spin_once 36 == 0.2.
Proof.
  split; [reflexivity|]. split; [lia|].
  intros H.
  apply (spin_once_exact_buckets [(0.0, 10%Z)] (drop 2 spin_rewards_table)
           0.2 25 36) in H; [|reflexivity|lia].
  destruct H as [_ H]. vm_compute in H. by apply H.
Defined.

(** ** One spin a day, one reward a mission, six calls a minute *)

Lemma wp_and {A} (m : M A) Q1 Q2 E1 E2 s :
  wp m Q1 E1 s → wp m Q2 E2 s →
  wp m (λ a s', Q1 a s' ∧ Q2 a s') (λ s', E1 s' ∧ E2 s') s.
Proof. unfold wp. by destruct (m s) as [[a|] s']. Qed.

Lemma good2_frame (f : db → db) d :
  spins (f d) = spins d → transactions (f d) = transactions d →
  user_missions (f d) = user_missions d →
  good2 d → good2 (f d).
Proof.
  intros Hs Ht Hu [H1 H2]. split.
  - intros uid day. unfold spins_on. rewrite Hs. apply H1.
  - intros uid mid. unfold rewards_paid. rewrite Ht, Hu. apply H2.
Qed.

Lemma good2_complete_mission uid mid d :
  good2 d →
  good2 (set_user_missions (λ l, l ++ [mk_user_mission uid mid 1]) d).
Proof.
  intros [H1 H2]. split; [done|].
  intros uid' mid'. destruct (H2 uid' mid') as [Hle Hrow].
  split; [done|]. intros Hn. destruct (Hrow Hn) as (row & Hin & Hu & Hm).
  exists row. split; [|done]. simpl. apply elem_of_app. by left.
Qed.

Lemma good2_add_spin uid reward day d :
  spins_on d uid day = 0%nat →
  good2 d → good2 (set_spins (λ l, l ++ [mk_spin uid reward day]) d).
Proof.
  intros Hzero [H1 H2]. split; [|done].
  intros uid' day'. unfold spins_on in *. simpl.
  rewrite List.filter_app, length_app. simpl.
  case_bool_decide as Heq; simpl.
  - destruct Heq as [<- <-]. rewrite Hzero. lia.
  - specialize (H1 uid' day'). unfold spins_on in H1. lia.
Qed.

Lemma rewards_paid_ledger_append t d uid mid :
  rewards_paid (ledger_append t d) uid mid =
  (rewards_paid d uid mid + if is_mission_reward uid mid t then 1 else 0)%nat.
Proof.
  unfold rewards_paid. rewrite transactions_ledger_append.
  rewrite List.filter_app, length_app. simpl.
  by destruct (is_mission_reward uid mid t).
Qed.

(** An event that is no mission reward. *)
Lemma good2_ledger_append_other t d :
  t_type t ≠ "mission_reward" →
  good2 d → good2 (ledger_append t d).
Proof.
  intros Hty [H1 H2]. split; [done|].
  intros uid mid. rewrite rewards_paid_ledger_append.
  assert (Hno : is_mission_reward uid mid t = false).
  { unfold is_mission_reward. apply String.eqb_neq in Hty. rewrite Hty.
    by rewrite andb_false_r. }
  rewrite Hno, Nat.add_0_r. apply H2.
Qed.

(** The reward of a mission that has a row and has not been paid. *)
Lemma good2_ledger_append_reward uid mid amount d :
  rewards_paid d uid mid = 0%nat →
  (∃ row, row ∈ user_missions d ∧ um_user row = uid ∧ um_mission row = mid) →
  good2 d →
  good2 (ledger_append
           (mk_txn uid "mission_reward" amount (ReasonMission mid) []) d).
Proof.
  intros Hzero Hrow [H1 H2]. split; [done|].
  intros uid' mid'. rewrite rewards_paid_ledger_append.
  unfold is_mission_reward. simpl.
  destruct (decide (uid = uid' ∧ mid = mid')) as [[<- <-]|Hne].
  - rewrite !bool_decide_eq_true_2 by done. simpl. rewrite Hzero.
    split; [lia | done].
  - assert (Hno : bool_decide (uid = uid') && true && bool_decide (mid = mid')
                  = false).
    { do 2 case_bool_decide; simpl; try done. tauto. }
    rewrite Hno, Nat.add_0_r. apply H2.
Qed.

Lemma good2_empty : good2 empty_db.
Proof.
  split.
  - intros uid day. unfold spins_on. simpl. lia.
  - intros uid mid. unfold rewards_paid. simpl. split; lia.
Qed.

Lemma Inv2_executed f s :
  (good2 (work s) → good2 (f (work s))) →
  Inv2 s → Inv2 (executed f s).
Proof. intros Hf [H1 H2 H3]. split; simpl; auto. Qed.

Lemma Inv2_executed_frame f s :
  spins (f (work s)) = spins (work s) →
  transactions (f (work s)) = transactions (work s) →
  user_missions (f (work s)) = user_missions (work s) →
  Inv2 s → Inv2 (executed f s).
Proof. intros. apply Inv2_executed; [|done]. by apply good2_frame. Qed.

Lemma Inv2_committed s : Inv2 s → Inv2 (committed s).
Proof. intros [H1 H2 H3]. by split. Qed.

Lemma Inv2_appended t s :
  t_type t ≠ "mission_reward" → Inv2 s → Inv2 (appended t s).
Proof.
  intros Ht [H1 H2 H3].
  split; simpl; auto using good2_ledger_append_other.
Qed.

Lemma Inv2_with_udata uid f s : Inv2 s → Inv2 (with_udata uid f s).
Proof. intros [H1 H2 H3]. by split. Qed.

Lemma Inv2_with_calls uid l s :
  (length l ≤ 6)%nat → Inv2 s → Inv2 (with_calls uid l s).
Proof.
  intros Hl [H1 H2 H3]. split; simpl; auto.
  intros uid' l'. destruct (decide (uid = uid')) as [<-|Hne].
  - rewrite lookup_insert_eq. by intros [= <-].
  - rewrite lookup_insert_ne by done. apply H3.
Qed.

Lemma Inv2_ensured user_id user_obj ref_by s :
  Inv2 s → Inv2 (ensured user_id user_obj ref_by s).
Proof.
  intros HI. unfold ensured, ensure_user, mbind, M_bind, bind, gets. simpl.
  destruct (users (work s) !! user_id) as [u|] eqn:Hu; [destruct user_obj|];
    simpl; [| done |]; by apply Inv2_committed, Inv2_executed_frame.
Qed.

Lemma Inv2_open_db d : good2 d → Inv2 (open_db d).
Proof.
  intros H. split; simpl; auto. intros uid l. by rewrite lookup_empty.
Qed.

Create HintDb inv2.
#[local] Hint Resolve Inv2_executed_frame Inv2_committed Inv2_appended
  Inv2_with_udata Inv2_ensured Inv2_open_db : inv2.

Ltac inv2_auto := wp_go; eauto 12 with inv2.

Lemma Inv2_admitted_call e uid s :
  (length (recent_calls e uid s) < 6)%nat →
  Inv2 s → Inv2 (with_calls uid (recent_calls e uid s ++ [now e]) s).
Proof.
  intros Hlt. apply Inv2_with_calls. rewrite length_app. simpl. lia.
Qed.

Lemma start_handler_inv2 e u ref_id s :
  Inv2 s → wp (start_handler e u ref_id) (λ _, Inv2) Inv2 s.
Proof. intros HI. unfold start_handler. inv2_auto. Qed.

Lemma balance_cmd_inv2 u s : Inv2 s → wp (balance_cmd u) (λ _, Inv2) Inv2 s.
Proof. intros HI. unfold balance_cmd. inv2_auto. Qed.

Lemma daily_bonus_cmd_inv2 e u s :
  Inv2 s → wp (daily_bonus_cmd e u) (λ _, Inv2) Inv2 s.
Proof.
  intros HI. unfold daily_bonus_cmd, rate_limited. repeat wp_step.
  change (List.filter (λ t0, Qltb (now e - t0) 60)
            (default [] (calls s !! tg_id u)))
    with (recent_calls e (tg_id u) s).
  case_bool_decide as Hrate; [by wp_step|].
  repeat wp_step.
  assert (HI' : Inv2 (with_calls (tg_id u)
                        (recent_calls e (tg_id u) s ++ [now e]) s))
    by (apply Inv2_admitted_call; [lia | done]).
  unfold daily_bonus_body, can_receive_bonus_today,
    update_last_bonus_and_streak.
  inv2_auto.
Qed.

Lemma send_start_inv2 u s : Inv2 s → wp (send_start u) (λ _, Inv2) Inv2 s.
Proof. intros HI. unfold send_start. inv2_auto. Qed.

Lemma send_recipient_inv2 u rid s :
  Inv2 s → wp (send_recipient u rid) (λ _, Inv2) Inv2 s.
Proof. intros HI. unfold send_recipient. inv2_auto. Qed.

Lemma send_amount_inv2 u parsed s :
  Inv2 s → wp (send_amount u parsed) (λ _, Inv2) Inv2 s.
Proof. intros HI. unfold send_amount. inv2_auto. Qed.

Lemma send_confirm_inv2 e u data s :
  Inv2 s → wp (send_confirm e u data) (λ _, Inv2) Inv2 s.
Proof. intros HI. unfold send_confirm. inv2_auto. Qed.

Lemma order_start_inv2 u s : Inv2 s → wp (order_start u) (λ _, Inv2) Inv2 s.
Proof. intros HI. unfold order_start. inv2_auto. Qed.

Lemma order_message_handler_inv2 u text s :
  Inv2 s → wp (order_message_handler u text) (λ _, Inv2) Inv2 s.
Proof. intros HI. unfold order_message_handler. inv2_auto. Qed.

Lemma quiz_start_inv2 e u s : Inv2 s → wp (quiz_start e u) (λ _, Inv2) Inv2 s.
Proof. intros HI. unfold quiz_start, get_random_quiz_question. inv2_auto. Qed.

Lemma quiz_answer_cb_inv2 e u sel s :
  Inv2 s → wp (quiz_answer_cb e u sel) (λ _, Inv2) Inv2 s.
Proof. intros HI. unfold quiz_answer_cb. inv2_auto. Qed.

Lemma admin_add_balance_cmd_inv2 e u args s :
  Inv2 s → wp (admin_add_balance_cmd e u args) (λ _, Inv2) Inv2 s.
Proof. intros HI. unfold admin_add_balance_cmd. inv2_auto. Qed.

Lemma main_inv2 s : Inv2 s → wp main (λ _, Inv2) Inv2 s.
Proof.
  intros HI. unfold main, setup_sample_questions, create_sample_missions.
  inv2_auto.
Qed.

Lemma spin_start_inv2 e u s : Inv2 s → wp (spin_start e u) (λ _, Inv2) Inv2 s.
Proof.
  intros HI. unfold spin_start. repeat wp_step.
  set (s1 := ensured (tg_id u) (Some u) None s).
  assert (HI1 : Inv2 s1) by by apply Inv2_ensured.
  case_bool_decide as Hcnt; [by wp_step|].
  repeat wp_step. destruct (fault e _); [done|]. repeat wp_step.
  assert (HI2 : Inv2 (committed (executed
            (set_spins (λ l, l ++ [mk_spin (tg_id u)
                                     (spin_once (spin_draw e)) (today e)]))
            (appended (mk_txn (tg_id u) "spin" (spin_once (spin_draw e))
                         ReasonDailySpin
                         [("reward", spin_once (spin_draw e))]) s1)))).
  { apply Inv2_committed, Inv2_executed; [|by apply Inv2_appended].
    apply good2_add_spin. rewrite work_appended.
    change (spins_on (work s1) (tg_id u) (today e) = 0%nat).
    unfold spins_on. lia. }
  by destruct (Qgtb _ _); wp_step.
Qed.

Lemma no_row_no_reward d uid mid :
  completions_ok d → rewarded_once d →
  completed_row d uid mid ≠ Some 1%Z →
  rewards_paid d uid mid = 0%nat.
Proof.
  intros Hok Hpaid Hnot.
  destruct (Hpaid uid mid) as [Hle Hrow].
  destruct (rewards_paid d uid mid) as [|n]; [done|]. exfalso.
  destruct Hrow as (row & Hin & Hu & Hm); [lia|].
  apply Hnot. unfold completed_row.
  destruct (List.find _ (user_missions d)) as [r|] eqn:Hr.
  - simpl. f_equal. apply Hok.
    apply List.find_some in Hr as [Hr _]. by apply list_elem_of_In.
  - apply list_elem_of_In in Hin.
    eapply List.find_none in Hr; [|apply Hin].
    apply bool_decide_eq_false in Hr. tauto.
Qed.

Lemma mission_turn_inv2 e uid m s :
  Inv s → Inv2 s → wp (mission_turn e uid m) (λ _, Inv2) Inv2 s.
Proof.
  intros HI HI2. unfold mission_turn. repeat wp_step.
  case_bool_decide as Hdone; [by wp_step|].
  repeat wp_step. destruct (condition_met _ _ _); [|by wp_step].
  repeat wp_step.
  set (s1 := executed (set_user_missions
               (λ l, l ++ [mk_user_mission uid (m_id m) 1])) s).
  assert (HI1 : Inv2 s1).
  { apply Inv2_executed; [apply good2_complete_mission | done]. }
  destruct (fault e _); [done|].
  destruct HI1 as [Hw Hd Hc]. split; [| |done].
  - rewrite work_appended. apply good2_ledger_append_reward; [| |done].
    + change (rewards_paid (work s) uid (m_id m) = 0%nat).
      apply no_row_no_reward; [| |done].
      * apply (good_completions _ (inv_work _ HI)).
      * apply (good_paid _ (inv2_work _ HI2)).
    + exists (mk_user_mission uid (m_id m) 1). split; [|done].
      change (mk_user_mission uid (m_id m) 1 ∈
              user_missions (work s) ++ [mk_user_mission uid (m_id m) 1]).
      apply elem_of_app. right. by apply list_elem_of_singleton.
  - rewrite disk_appended. apply good2_ledger_append_reward; [| |done].
    + change (rewards_paid (work s) uid (m_id m) = 0%nat).
      apply no_row_no_reward; [| |done].
      * apply (good_completions _ (inv_work _ HI)).
      * apply (good_paid _ (inv2_work _ HI2)).
    + exists (mk_user_mission uid (m_id m) 1). split; [|done].
      change (mk_user_mission uid (m_id m) 1 ∈
              user_missions (work s) ++ [mk_user_mission uid (m_id m) 1]).
      apply elem_of_app. right. by apply list_elem_of_singleton.
Qed.

Lemma check_and_apply_missions_for_user_inv2 e uid s :
  Inv s → Inv2 s →
  wp (check_and_apply_missions_for_user e uid)
     (λ _ s', Inv s' ∧ Inv2 s') (λ s', Inv s' ∧ Inv2 s') s.
Proof.
  intros HI HI2. unfold check_and_apply_missions_for_user. repeat wp_step.
  eapply wp_mono;
    [apply (wp_for_each_inv (λ s', Inv s' ∧ Inv2 s')); [|done] | | done].
  - intros m s' Hm [HI' HI2']. apply wp_and.
    + apply mission_turn_inv; [|done].
      by apply (good_rewards _ (inv_work _ HI)).
    + by apply mission_turn_inv2.
  - intros ? s' [HI' HI2']. cbv beta. repeat wp_step.
    split; [by apply Inv_committed | by apply Inv2_committed].
Qed.

Lemma daily_audit_job_inv2 e s :
  Inv s → Inv2 s → wp (daily_audit_job e) (λ _, Inv2) Inv2 s.
Proof.
  intros HI HI2. unfold daily_audit_job. repeat wp_step.
  eapply wp_mono;
    [apply (wp_for_each_inv (λ s', Inv s' ∧ Inv2 s')) | |].
  - intros uid s' _ [HI' HI2']. wp_step.
    eapply wp_mono;
      [by apply check_and_apply_missions_for_user_inv2 | done..].
  - split.
    + apply Inv_committed, Inv_executed; [|done..].
      by apply good_db_fmap_users.
    + by apply Inv2_committed, Inv2_executed_frame.
  - by intros ? s' [_ H].
  - by intros s' [_ H].
Qed.

Lemma Inv2_initial_state : Inv2 initial_state.
Proof.
  unfold initial_state. apply wp_final, main_inv2, Inv2_open_db, good2_empty.
Qed.

Lemma handle_inv2 e a s : Inv s → Inv2 s → Inv2 (handle e a s).2.
Proof.
  intros HI HI2. apply wp_final.
  destruct a; simpl; try apply wp_run_;
    try (eapply wp_mono; [eauto using start_handler_inv2, balance_cmd_inv2,
      daily_bonus_cmd_inv2, send_start_inv2, send_recipient_inv2,
      send_amount_inv2, send_confirm_inv2, order_start_inv2,
      order_message_handler_inv2, quiz_start_inv2, quiz_answer_cb_inv2,
      spin_start_inv2, admin_add_balance_cmd_inv2 | done..]).
  - by apply daily_audit_job_inv2.
  - apply (main_inv2 (open_db (disk s))), Inv2_open_db, (inv2_disk _ HI2).
Qed.

Lemma reachable_Inv2 s : reachable s → Inv2 s.
Proof.
  induction 1 as [|s e a Hs IH]; [apply Inv2_initial_state|].
  apply handle_inv2; [by apply reachable_Inv | done].
Qed.

(** X5: no account is ever paid twice for the same mission: in every
    reachable state the ledger holds at most one mission_reward event per
    account and mission, and an account that has been paid has a row of
    [user_missions] for the mission. *)
Theorem mission_paid_at_most_once s uid mid :
  reachable s →
  (rewards_paid (work s) uid mid ≤ 1)%nat ∧
  ((1 ≤ rewards_paid (work s) uid mid)%nat →
   completed_row (work s) uid mid = Some 1%Z).
Proof.
  intros Hs. assert (HI := reachable_Inv s Hs).
  assert (HI2 := reachable_Inv2 s Hs).
  destruct (good_paid _ (inv2_work _ HI2) uid mid) as [Hle Hrow].
  split; [done|]. intros Hn.
  destruct (decide (completed_row (work s) uid mid = Some 1%Z)) as [|Hnot];
    [done|].
  assert (H0 := no_row_no_reward (work s) uid mid
                  (good_completions _ (inv_work _ HI))
                  (good_paid _ (inv2_work _ HI2)) Hnot).
  lia.
Qed.

Lemma mission_paid_at_most_once_witness :
  reachable alice_mission_paid ∧
  rewards_paid (work alice_mission_paid) 1 1 = 1%nat ∧
  completed_row (work alice_mission_paid) 1 1 = Some 1%Z.
Proof.
  assert (H : reachable alice_mission_paid)
    by (apply (reachable_after _ initial_state), reachable_init).
  assert (H1 : rewards_paid (work alice_mission_paid) 1 1 = 1%nat)
    by by_computation.
  split; [exact H|]. split; [exact H1|].
  apply (proj2 (mission_paid_at_most_once alice_mission_paid 1 1 H)).
  rewrite H1. lia.
Defined.

(** ** The rate limiter *)

(** X6: the rate limiter of the daily bonus.  In every reachable state the
    window stored for an account holds at most 6 calls.  A call that finds 6
    or more calls of the last 60 seconds is answered "too fast" and leaves
    the whole state as it is, the window included; a call that finds fewer
    is never answered "too fast", and the window stored afterwards is the
    calls of the last 60 seconds followed by the time of this call. *)
Theorem rate_limiter_window s e u :
  reachable s →
  let uid := tg_id u in
  (∀ a l, calls s !! a = Some l → (length l ≤ 6)%nat) ∧
  ((6 ≤ length (recent_calls e uid s))%nat →
   daily_bonus_cmd e u s = (Done ReplyTooFast, s)) ∧
  ((length (recent_calls e uid s) < 6)%nat →
   (daily_bonus_cmd e u s).1 ≠ Done ReplyTooFast ∧
   calls (daily_bonus_cmd e u s).2 !! uid =
     Some (recent_calls e uid s ++ [now e])).
Proof.
  intros Hs uid. split; [|split].
  - apply (inv2_calls _ (reachable_Inv2 s Hs)).
  - intros H. rewrite daily_bonus_cmd_run. cbv zeta. fold uid.
    by rewrite bool_decide_eq_true_2.
  - intros H. rewrite daily_bonus_cmd_run. cbv zeta. fold uid.
    rewrite bool_decide_eq_false_2 by lia.
    set (s0 := with_calls uid (recent_calls e uid s ++ [now e]) s).
    assert (Hc : calls (ensured uid (Some u) None s0) !! uid =
                 Some (recent_calls e uid s ++ [now e])).
    { rewrite calls_ensured. unfold s0. simpl. apply lookup_insert_eq. }
    destruct (bool_decide (stored_last_bonus _ _ = _)); [by split|].
    destruct (fault e _); by split.
Qed.

Lemma rate_limiter_window_witness :
  reachable alice_tapped_six_times ∧
  (6 ≤ length (recent_calls (calm 100 30) 1 alice_tapped_six_times))%nat ∧
  daily_bonus_cmd (calm 100 30) alice alice_tapped_six_times =
    (Done ReplyTooFast, alice_tapped_six_times) ∧
  (length (recent_calls (calm 100 70) 1 alice_tapped_six_times) < 6)%nat ∧
  (daily_bonus_cmd (calm 100 70) alice alice_tapped_six_times).1 ≠
    Done ReplyTooFast.
Proof.
  assert (H : reachable alice_tapped_six_times)
    by (apply (reachable_after _ initial_state), reachable_init).
  assert (H1 : (6 ≤ length (recent_calls (calm 100 30) 1
                              alice_tapped_six_times))%nat)
    by by_computation.
  assert (H2 : (length (recent_calls (calm 100 70) 1
                          alice_tapped_six_times) < 6)%nat)
    by by_computation.
  split; [exact H|]. split; [exact H1|].
  split;
    [exact (proj1 (proj2 (rate_limiter_window alice_tapped_six_times
                            (calm 100 30) alice H)) H1)|].
  split; [exact H2|].
  exact (proj1 (proj2 (proj2 (rate_limiter_window alice_tapped_six_times
                                (calm 100 70) alice H)) H2)).
Defined.

(** ** The daily audit *)

(** A postcondition of the loop that every turn keeps, when no turn
    raises. *)
Lemma wp_for_each_post {A} (I E : state → Prop) l (body : A → M unit) s :
  (∀ x s', x ∈ l → I s' → wp (body x) (λ _, I) E s') →
  I s → wp (for_each l body) (λ _, I) E s.
Proof.
  revert s. induction l as [|x l IH]; intros s Hbody HI.
  - by apply wp_for_each_nil.
  - apply wp_for_each_cons.
    eapply wp_mono; [apply Hbody; [left|done] | | done].
    intros ? s' HI'. apply IH; [|done].
    intros y s'' Hy. apply Hbody. by right.
Qed.

Lemma nothing_sent_ledger_append t d :
  nothing_sent d → nothing_sent (ledger_append t d).
Proof.
  intros H uid row. rewrite users_ledger_append.
  destruct (decide (t_user t = uid)) as [<-|Hne].
  - rewrite lookup_alter_eq, lookup_insert_or_ignore_user.
    rewrite bool_decide_eq_true_2 by done.
    destruct (users d !! t_user t) as [x|] eqn:Hx; simpl.
    + intros [= <-]. simpl. by apply (H (t_user t)).
    + by intros [= <-].
  - rewrite lookup_alter_ne, lookup_insert_or_ignore_user by done.
    rewrite bool_decide_eq_false_2 by done.
    destruct (users d !! uid) as [x|] eqn:Hx; [|done].
    intros [= <-]. by apply (H uid).
Qed.

Lemma check_and_apply_missions_nothing_sent e uid s :
  nothing_sent (work s) →
  wp (check_and_apply_missions_for_user e uid)
     (λ _ s', nothing_sent (work s')) (λ s', nothing_sent (work s')) s.
Proof.
  intros H. unfold check_and_apply_missions_for_user. repeat wp_step.
  eapply wp_mono;
    [apply (wp_for_each_inv (λ s', nothing_sent (work s'))); [|done] | |done].
  - intros m s' _ H'. unfold mission_turn. repeat wp_step.
    destruct (bool_decide _); [by wp_step|]. repeat wp_step.
    destruct (condition_met _ _ _); [|by wp_step]. repeat wp_step.
    destruct (fault e _); [done|].
    rewrite work_appended. by apply nothing_sent_ledger_append.
  - intros ? s' H'. cbv beta. by repeat wp_step.
Qed.

(** X7: the daily audit never raises, whatever the storage does during the
    mission evaluations, and when it returns every account of the users
    table has its daily-sent counter at 0. *)
Theorem daily_audit_resets_daily_sent e s :
  ∃ s', daily_audit_job e s = (Done (), s') ∧
        ∀ uid row, users (work s') !! uid = Some row → daily_sent row = 0.
Proof.
  assert (H : wp (daily_audit_job e) (λ _ s', nothing_sent (work s'))
                (λ _, False) s).
  { unfold daily_audit_job. repeat wp_step.
    apply wp_for_each_post.
    - intros uid s' _ H'. wp_step.
      eapply wp_mono;
        [by apply check_and_apply_missions_nothing_sent | done..].
    - intros uid row. rewrite work_committed, work_executed. simpl.
      rewrite lookup_fmap. destruct (users (work s) !! uid); [|done].
      by intros [= <-]. }
  apply wp_returns in H as ([] & s' & Hrun & Hsent). by exists s'.
Qed.

(** ** The quiz *)

Lemma choose_is_Some {A} e (l : list A) : l ≠ [] → is_Some (choose e l).
Proof.
  intros Hne. unfold choose. apply lookup_lt_is_Some.
  apply Nat.mod_upper_bound. by destruct l.
Qed.

Lemma choose_nil {A} e : @choose A e [] = None.
Proof. unfold choose. apply lookup_nil. Qed.

Lemma attempted_today_answered e d uid qid :
  qid ∈ map qa_question
          (List.filter
             (λ h, bool_decide (qa_user h = uid ∧ qa_date h = today e))
             (user_quiz_history d)) ↔
  attempted_today e d uid qid.
Proof.
  rewrite list_elem_of_fmap. split.
  - intros (h & -> & Hin). apply list_elem_of_In, List.filter_In in Hin.
    destruct Hin as [Hin Hb]. apply bool_decide_eq_true in Hb as [Hu Hd].
    exists h. by rewrite list_elem_of_In.
  - intros (h & Hin & Hu & Hd & Hq). exists h. split; [done|].
    apply list_elem_of_In, List.filter_In. split; [by apply list_elem_of_In|].
    by apply bool_decide_eq_true.
Qed.

(** X8: the question served to an account.  Selecting a question changes
    nothing.  None is served exactly when the table of questions is empty.
    A served question is a row of the table; and whenever some question has
    not been attempted by the account today, the served one has not been
    attempted by it today either: a repeat is served only once all questions
    have been attempted today. *)
Theorem fresh_question_preferred e uid s :
  ∃ served, get_random_quiz_question e uid s = (Done served, s) ∧
    (served = None ↔ quiz_questions (work s) = []) ∧
    ∀ q, served = Some q →
      q ∈ quiz_questions (work s) ∧
      ((∃ q', q' ∈ quiz_questions (work s) ∧
              ¬ attempted_today e (work s) uid (q_id q')) →
       ¬ attempted_today e (work s) uid (q_id q)).
Proof.
  unfold get_random_quiz_question, mbind, M_bind, bind, gets.
  set (answered := map qa_question (List.filter _ (user_quiz_history (work s)))).
  set (fresh := List.filter (λ q, bool_decide (q_id q ∉ answered))
                  (quiz_questions (work s))).
  assert (Hfresh : ∀ q, q ∈ fresh ↔
            q ∈ quiz_questions (work s) ∧
            ¬ attempted_today e (work s) uid (q_id q)).
  { intros q. unfold fresh.
    rewrite list_elem_of_In, List.filter_In, <- list_elem_of_In.
    rewrite bool_decide_eq_true. unfold answered.
    by rewrite attempted_today_answered. }
  destruct (choose e fresh) as [row|] eqn:Hrow.
  - exists (Some row). split; [done|].
    apply choose_elem_of, Hfresh in Hrow as [Hin Hnot]. split.
    + split; [done|]. intros Hnil. rewrite Hnil in Hin.
      by apply elem_of_nil in Hin.
    + intros q [= <-]. by split.
  - assert (Hnil : fresh = []).
    { destruct fresh as [|x l] eqn:Hf; [done|].
      destruct (choose_is_Some e (x :: l)) as [y Hy]; [done|]. congruence. }
    exists (choose e (quiz_questions (work s))). split; [done|]. split.
    + split.
      * intros Hnone. destruct (quiz_questions (work s)) as [|x l] eqn:Hq;
          [done|].
        destruct (choose_is_Some e (x :: l)) as [y Hy]; [done|]. congruence.
      * intros ->. apply choose_nil.
    + intros q Hq. apply choose_elem_of in Hq. split; [done|].
      intros (q' & Hin' & Hnot').
      assert (Hf : q' ∈ fresh) by by apply Hfresh.
      rewrite Hnil in Hf. by apply elem_of_nil in Hf.
Qed.

Lemma udata_of_with_udata uid f s :
  udata_of (with_udata uid f s) uid = f (udata_of s uid).
Proof. unfold udata_of at 1. simpl. by rewrite lookup_insert_eq. Qed.




(** ** The transfer conversation before the confirmation *)

Lemma Qgtb_false_le a b : Qgtb a b = false ↔ a <= b.
Proof. unfold Qgtb. apply Qltb_ge. Qed.

Lemma Qgtb_true_lt a b : Qgtb a b = true ↔ b < a.
Proof. unfold Qgtb. apply Qltb_lt. Qed.

(** X10: what [send_amount] lets through.  The handler never writes to the
    database.  When it moves the conversation on to the confirmation, the
    text was a number, and the amount it has stored in the scratch dict and
    shows in the prompt is that number rounded by [safe_round]; this amount
    is positive, does not exceed the balance of the sender, and added to
    what the sender has sent today does not exceed the daily cap of 500;
    the prompt names the recipient stored before.  In every other case that
    returns, the scratch dict is left as it was. *)
Theorem send_amount_validates u parsed s r c s' :
  send_amount u parsed s = (Done (r, c), s') →
  let uid := tg_id u in
  work s' = work s ∧ disk s' = disk s ∧
  (c = SEND_CONFIRM →
   ∃ a rec, parsed = Some a ∧
     r = ReplyConfirmPrompt rec (safe_round a) ∧
     send_recipient_ (udata_of s uid) = Some rec ∧
     send_recipient_ (udata_of s' uid) = Some rec ∧
     send_amount_ (udata_of s' uid) = Some (safe_round a) ∧
     0 < safe_round a ∧
     safe_round a <= get_balance (work s) uid ∧
     stored_daily_sent (work s) uid + safe_round a <= MAX_SEND_PER_DAY) ∧
  (c ≠ SEND_CONFIRM → s' = s).
Proof.
  intros Hrun uid.
  assert (Hwp : wp (send_amount u parsed)
    (λ rc s',
       work s' = work s ∧ disk s' = disk s ∧
       (rc.2 = SEND_CONFIRM →
        ∃ a rec, parsed = Some a ∧
          rc.1 = ReplyConfirmPrompt rec (safe_round a) ∧
          send_recipient_ (udata_of s uid) = Some rec ∧
          send_recipient_ (udata_of s' uid) = Some rec ∧
          send_amount_ (udata_of s' uid) = Some (safe_round a) ∧
          0 < safe_round a ∧
          safe_round a <= get_balance (work s) uid ∧
          stored_daily_sent (work s) uid + safe_round a <= MAX_SEND_PER_DAY) ∧
       (rc.2 ≠ SEND_CONFIRM → s' = s))
    (λ _, True) s).
  { unfold send_amount. destruct parsed as [a|]; [|by wp_step].
    destruct (negb (Qgtb (safe_round a) 0)) eqn:Hpos; [by wp_step|].
    apply negb_false_iff, Qgtb_true_lt in Hpos.
    repeat wp_step. fold uid.
    destruct (Qgtb (safe_round a) (get_balance (work s) uid)) eqn:Hbal;
      [by wp_step|].
    apply Qgtb_false_le in Hbal. repeat wp_step.
    change (match users (work s) !! uid with
            | Some x => daily_sent x
            | None => 0.0
            end) with (stored_daily_sent (work s) uid).
    destruct (Qgtb _ MAX_SEND_PER_DAY) eqn:Hcap; [by wp_step|].
    apply Qgtb_false_le in Hcap. repeat wp_step.
    rewrite udata_of_with_udata. cbn [send_recipient_ set_send_amount].
    destruct (send_recipient_ (udata_of s uid)) as [rec|] eqn:Hrec;
      wp_step; [|done].
    split; [done|]. split; [done|]. split; [|done].
    intros _. exists a, rec. rewrite udata_of_with_udata.
    cbn [send_recipient_ send_amount_ set_send_amount fst].
    by rewrite Hrec. }
  apply (wp_Done _ _ _ _ _ _ Hwp) in Hrun. exact Hrun.
Qed.

Lemma send_amount_validates_witness :
  let s := after [(calm 100 2, SendStart alice);
                  (calm 100 3, SendRecipient alice (Some 2%Z))] alice_funded in
  ∃ s', send_amount alice (Some (129 # 1000)) s =
          (Done (ReplyConfirmPrompt 2 0.13, SEND_CONFIRM), s') ∧
        work s' = work s ∧
        send_amount_ (udata_of s' 1) = Some 0.13.
Proof.
  intros s.
  assert (Hrun : send_amount alice (Some (129 # 1000)) s =
                 (Done (ReplyConfirmPrompt 2 0.13, SEND_CONFIRM),
                  (send_amount alice (Some (129 # 1000)) s).2))
    by by_computation.
  exists (send_amount alice (Some (129 # 1000)) s).2.
  split; [exact Hrun|].
  destruct (send_amount_validates alice _ s _ _ _ Hrun)
    as (Hw & _ & Hc & _).
  split; [exact Hw|].
  destruct (Hc eq_refl) as (a & rec & [= <-] & _ & _ & _ & Hamt & _).
  transitivity (Some (safe_round (129 # 1000))); [exact Hamt|].
  by_computation.
Defined.

(** ** Admin adjustment, referral bonus, orders *)





(** X13: the order conversation.  A text from an account that is not
    awaiting an order is answered as unknown and changes nothing.  After
    [order_start] the account is awaiting; its next text is stored as one
    new order with status "new" and committed, the ledger is not touched,
    and the flag is cleared, so that the text after it is unknown again and
    stores nothing. *)
Theorem order_flow u text s :
  let uid := tg_id u in
  (awaiting_order (udata_of s uid) = false →
   order_message_handler u text s = (Done ReplyUnknown, s)) ∧
  awaiting_order (udata_of (order_start u s).2 uid) = true ∧
  (awaiting_order (udata_of s uid) = true →
   ∃ s', order_message_handler u text s = (Done ReplyOrderAccepted, s') ∧
     orders (work s') = orders (work s) ++ [mk_order uid text "new"] ∧
     disk s' = work s' ∧
     transactions (work s') = transactions (work s) ∧
     users (work s') = users (work s) ∧
     ∀ text', order_message_handler u text' s' = (Done ReplyUnknown, s')).
Proof.
  intros uid.
  assert (Hidle : ∀ t s0, awaiting_order (udata_of s0 uid) = false →
            order_message_handler u t s0 = (Done ReplyUnknown, s0)).
  { intros t s0 H. apply wp_run_eq. unfold order_message_handler.
    repeat wp_step. fold uid. rewrite H. by wp_step. }
  split; [apply Hidle|]. split.
  - apply (wp_final (order_start u)
             (λ s', awaiting_order (udata_of s' uid) = true)).
    unfold order_start. repeat wp_step. fold uid.
    by rewrite udata_of_with_udata.
  - intros Hwait.
    set (s1 := with_udata uid (set_awaiting_order false)
                 (committed (executed
                    (set_orders (λ l, l ++ [mk_order uid text "new"])) s))).
    assert (Hrun : order_message_handler u text s =
                   (Done ReplyOrderAccepted, s1)).
    { apply wp_run_eq. unfold order_message_handler. repeat wp_step.
      fold uid. rewrite Hwait. by repeat wp_step. }
    exists s1. split; [done|]. split; [done|]. split; [done|].
    split; [done|]. split; [done|].
    intros text'. apply Hidle. unfold s1. by rewrite udata_of_with_udata.
Qed.

Lemma order_flow_witness :
  let s := (order_start alice initial_state).2 in
  awaiting_order (udata_of s 1) = true ∧
  ∃ s', order_message_handler alice "2 kg olma" s =
          (Done ReplyOrderAccepted, s') ∧
        orders (work s') = orders (work s) ++ [mk_order 1 "2 kg olma" "new"] ∧
        order_message_handler alice "yana" s' = (Done ReplyUnknown, s').
Proof.
  intros s.
  assert (H : awaiting_order (udata_of s 1) = true) by by_computation.
  split; [exact H|].
  destruct (proj2 (proj2 (order_flow alice "2 kg olma" s)) H)
    as (s' & Hrun & Ho & _ & _ & _ & Hnext).
  exists s'. split; [exact Hrun|]. split; [exact Ho | exact (Hnext "yana")].
Defined.

Lemma daily_audit_resets_daily_sent_witness :
  ∃ s', daily_audit_job (storage_down 101 0) alice_sends_to_bob =
          (Done (), s') ∧
        ∀ uid row, users (work s') !! uid = Some row → daily_sent row = 0.
Proof. exact (daily_audit_resets_daily_sent _ _). Defined.

Lemma fresh_question_preferred_witness :
  ∃ served,
    get_random_quiz_question (calm 100 0) 1 initial_state =
      (Done served, initial_state) ∧
    (served = None ↔ quiz_questions (work initial_state) = []).
Proof.
  destruct (fresh_question_preferred (calm 100 0) 1 initial_state)
    as (served & Hrun & Hnone & _).
  exists served. split; [exact Hrun | exact Hnone].
Defined.

(** ** The amount typed in the transfer conversation, lines 380-392 *)
























(** ** The ledger only grows *)

Lemma after_grown l evs s : grown_from l s → grown_from l (after evs s).
Proof.
  revert s. induction evs as [|[e a] evs IH]; intros s H; [done|].
  apply IH. by apply handle_grown.
Qed.

(** X17: the ledger is append-only.  From a reachable state on, whatever
    events follow (handlers that fail, audits and restarts included), the
    rows of the ledger stay where they are, in the same order, new rows
    coming after them; and every row of the ledger is committed. *)
Theorem ledger_append_only (s : state) (evs : list (env * action)) :
  reachable s →
  transactions (work s) `prefix_of` transactions (work (after evs s)) ∧
  transactions (disk (after evs s)) = transactions (work (after evs s)).
Proof.
  intros Hs.
  assert (H : grown_from (transactions (work s)) s).
  { split; [done|]. apply inv_txs. by apply reachable_Inv. }
  apply (after_grown _ evs) in H. destruct H as [H1 H2]. by split.
Qed.

Lemma ledger_append_only_witness :
  let evs := [(calm 100 2, SendStart alice);
              (calm 100 3, SendRecipient alice (Some 2%Z));
              (calm 100 4, SendAmount alice (Some 5));
              (second_append_fails, SendConfirm alice "confirm_send");
              (calm 100 6, Restart)] in
  reachable alice_funded ∧
  transactions (work alice_funded) `prefix_of`
    transactions (work (after evs alice_funded)) ∧
  transactions (disk (after evs alice_funded)) =
    transactions (work (after evs alice_funded)).
Proof.
  intros evs.
  assert (H : reachable alice_funded).
  { apply reachable_after. constructor. }
  split; [exact H|]. exact (ledger_append_only alice_funded evs H).
Defined.

(** ** What an evaluation of the missions may pay *)

Lemma paying_earned_turn e uid d0 m s :
  m ∈ missions d0 →
  paying_earned d0 uid s →
  wp (mission_turn e uid m) (λ _, paying_earned d0 uid)
    (paying_earned d0 uid) s.
Proof.
  intros Hm [(Hr & Hs & Hmis & Hc) (new & Hnew & Hall)].
  unfold mission_turn. repeat wp_step.
  case_bool_decide as Hdone; [wp_step; by split; [|exists new]|].
  repeat wp_step.
  destruct (condition_met (work s) uid (m_condition m)) eqn:Hok;
    [|wp_step; by split; [|exists new]].
  repeat wp_step.
  set (s1 := executed (set_user_missions
                (λ l, l ++ [mk_user_mission uid (m_id m) 1])) s).
  assert (Hst1 : missions_stable uid d0 (work s1)).
  { split; [done|]. split; [done|]. split; [done|].
    intros mid H. apply Hc in H. unfold completed_row in *.
    cbn [s1 work executed set_user_missions user_missions].
    destruct (List.find
                (λ r, bool_decide (um_user r = uid ∧ um_mission r = mid))
                (user_missions (work s))) as [r|] eqn:Hf;
      [|discriminate H].
    by rewrite (find_app_Some _ _ _ _ Hf). }
  change (transactions (work s1)) with (transactions (work s)).
  destruct (fault e _); [by split; [|exists new]|].
  split.
  - destruct Hst1 as (? & ? & ? & ?). by repeat apply conj.
  - exists (new ++ [mk_txn uid "mission_reward" (m_reward m)
                      (ReasonMission (m_id m)) []]).
    split.
    { rewrite work_appended, transactions_ledger_append.
      change (transactions (work s1)) with (transactions (work s)).
      by rewrite Hnew, app_assoc. }
    intros t [Ht | Ht]%elem_of_app; [by apply Hall|].
    apply list_elem_of_singleton in Ht as ->.
    exists m. split; [done|]. split; [done|]. split.
    + by rewrite <- (condition_met_stable uid d0 (work s)).
    + intros H. by apply Hdone, Hc.
Qed.

Lemma check_and_apply_paying_earned e uid s :
  wp (check_and_apply_missions_for_user e uid)
    (λ _, paying_earned (work s) uid) (paying_earned (work s) uid) s.
Proof.
  unfold check_and_apply_missions_for_user. repeat wp_step.
  eapply wp_mono.
  - apply (wp_for_each_inv (paying_earned (work s) uid)).
    + intros m s1 Hm. by apply paying_earned_turn.
    + split; [apply missions_stable_refl|]. exists []. split.
      * by rewrite app_nil_r.
      * intros t Ht. by apply elem_of_nil in Ht.
  - intros ? s1 H1. by wp_step.
  - done.
Qed.

(** X18: an evaluation of the missions of an account, whether it returns
    or fails on the way, only appends to the ledger, and every event it
    appends is the reward of a mission that the account had not completed
    and whose thresholds of referrals and spins it met when the evaluation
    began: it is paid to that account, with the reward of the mission as
    its amount. *)
Theorem missions_pay_what_is_earned e uid s :
  let s' := (check_and_apply_missions_for_user e uid s).2 in
  ∃ new, transactions (work s') = transactions (work s) ++ new ∧
         ∀ t, t ∈ new → earned_reward (work s) uid t.
Proof.
  cbv zeta. pose proof (check_and_apply_paying_earned e uid s) as H.
  apply wp_final in H. by destruct H as [_ H].
Qed.

(** ** Transfers move positive amounts *)

Lemma transfers_positive_frame (f : db → db) d :
  transactions (f d) = transactions d →
  transfers_positive d → transfers_positive (f d).
Proof. intros Hf H t. rewrite Hf. apply H. Qed.

Lemma transfers_positive_append t d :
  (t_type t = "transfer_out" → t_amount t < 0) →
  (t_type t = "transfer_in" → 0 < t_amount t) →
  transfers_positive d → transfers_positive (ledger_append t d).
Proof.
  intros Hout Hin H t'. rewrite transactions_ledger_append.
  intros [Ht'|Ht']%elem_of_app; [by apply H|].
  apply list_elem_of_singleton in Ht' as ->. by split.
Qed.

Lemma transfers_positive_empty : transfers_positive empty_db.
Proof. intros t Ht. by apply elem_of_nil in Ht. Qed.

Lemma Inv3_executed f s :
  transactions (f (work s)) = transactions (work s) →
  Inv3 s → Inv3 (executed f s).
Proof.
  intros Hf [H1 H2 H3]. split; [|done..].
  by apply transfers_positive_frame.
Qed.

Lemma Inv3_committed s : Inv3 s → Inv3 (committed s).
Proof. intros [H1 H2 H3]. by split. Qed.

Lemma Inv3_appended_transfer t s :
  (t_type t = "transfer_out" → t_amount t < 0) →
  (t_type t = "transfer_in" → 0 < t_amount t) →
  Inv3 s → Inv3 (appended t s).
Proof.
  intros Hout Hin [H1 H2 H3].
  split; [| |done]; by apply transfers_positive_append.
Qed.

Lemma Inv3_appended t s :
  t_type t ≠ "transfer_out" → t_type t ≠ "transfer_in" →
  Inv3 s → Inv3 (appended t s).
Proof. intros Hout Hin. by apply Inv3_appended_transfer. Qed.

Lemma positive_pending_of s uid : Inv3 s → positive_pending (udata_of s uid).
Proof.
  intros [_ _ H]. unfold udata_of.
  destruct (user_data s !! uid) as [x|] eqn:Hx; [by eapply H|].
  by intros a.
Qed.

Lemma Inv3_with_udata uid f s :
  positive_pending (f (udata_of s uid)) → Inv3 s → Inv3 (with_udata uid f s).
Proof.
  intros Hf [H1 H2 H3]. split; [done..|].
  intros uid' x. cbn [with_udata user_data].
  destruct (decide (uid = uid')) as [<-|Hne].
  - rewrite lookup_insert_eq. by intros [= <-].
  - rewrite lookup_insert_ne by done. apply H3.
Qed.

Lemma Inv3_with_udata_keep uid f s :
  (∀ x, send_amount_ (f x) = send_amount_ x) →
  Inv3 s → Inv3 (with_udata uid f s).
Proof.
  intros Hf HI. apply Inv3_with_udata; [|done].
  intros a. rewrite Hf. by apply positive_pending_of.
Qed.

Lemma Inv3_with_udata_amount uid a s :
  0 < a → Inv3 s → Inv3 (with_udata uid (set_send_amount a) s).
Proof.
  intros Ha HI. apply Inv3_with_udata; [|done]. by intros a' [= <-].
Qed.

Lemma Inv3_with_calls uid l s : Inv3 s → Inv3 (with_calls uid l s).
Proof. intros [H1 H2 H3]. by split. Qed.

Lemma Inv3_ensured user_id user_obj ref_by s :
  Inv3 s → Inv3 (ensured user_id user_obj ref_by s).
Proof.
  intros HI. unfold ensured, ensure_user, mbind, M_bind, bind, gets.
  cbn [snd fst].
  destruct (users (work s) !! user_id) as [u|] eqn:Hu; [destruct user_obj|];
    cbn [snd execute db_commit mret M_ret ret];
    [| done |]; by apply Inv3_committed, Inv3_executed.
Qed.

Lemma Inv3_open_db d : transfers_positive d → Inv3 (open_db d).
Proof.
  intros H. split; [done..|]. intros uid x. cbn [open_db user_data].
  by rewrite lookup_empty.
Qed.

Create HintDb inv3.
#[local] Hint Resolve Inv3_executed Inv3_committed Inv3_appended
  Inv3_with_udata_keep Inv3_with_calls Inv3_ensured Inv3_open_db : inv3.

Ltac inv3_auto := wp_go; eauto 12 with inv3.

Lemma start_handler_inv3 e u ref_id s :
  Inv3 s → wp (start_handler e u ref_id) (λ _, Inv3) Inv3 s.
Proof. intros HI. unfold start_handler. inv3_auto. Qed.

Lemma balance_cmd_inv3 u s : Inv3 s → wp (balance_cmd u) (λ _, Inv3) Inv3 s.
Proof. intros HI. unfold balance_cmd. inv3_auto. Qed.

Lemma daily_bonus_cmd_inv3 e u s :
  Inv3 s → wp (daily_bonus_cmd e u) (λ _, Inv3) Inv3 s.
Proof.
  intros HI.
  unfold daily_bonus_cmd, rate_limited, daily_bonus_body,
    can_receive_bonus_today, update_last_bonus_and_streak.
  inv3_auto.
Qed.

Lemma send_start_inv3 u s : Inv3 s → wp (send_start u) (λ _, Inv3) Inv3 s.
Proof. intros HI. unfold send_start. inv3_auto. Qed.

Lemma send_recipient_inv3 u rid s :
  Inv3 s → wp (send_recipient u rid) (λ _, Inv3) Inv3 s.
Proof. intros HI. unfold send_recipient. inv3_auto. Qed.

Lemma send_amount_inv3 u parsed s :
  Inv3 s → wp (send_amount u parsed) (λ _, Inv3) Inv3 s.
Proof.
  intros HI. unfold send_amount. destruct parsed as [a|]; [|by wp_step].
  cbv zeta. destruct (negb (Qgtb (safe_round a) 0)) eqn:Hpos; [by wp_step|].
  apply negb_false_iff, Qgtb_true_lt in Hpos.
  assert (HI' : Inv3 (with_udata (tg_id u) (set_send_amount (safe_round a)) s))
    by by apply Inv3_with_udata_amount.
  inv3_auto.
Qed.

Lemma send_confirm_inv3 e u data s :
  Inv3 s → wp (send_confirm e u data) (λ _, Inv3) Inv3 s.
Proof.
  intros HI. unfold send_confirm. cbv zeta.
  case_bool_decide; [by wp_step|]. repeat wp_step.
  destruct (send_recipient_ (udata_of s (tg_id u))) as [rec|]; [|by wp_step].
  destruct (send_amount_ (udata_of s (tg_id u))) as [amt|] eqn:Hamt;
    [|by wp_step].
  assert (Hpos : 0 < amt) by by apply (positive_pending_of s (tg_id u)).
  assert (Hneg : - amt < 0).
  { apply (Qopp_lt_compat 0 amt) in Hpos. exact Hpos. }
  repeat wp_step.
  set (s1 := ensured rec None None s).
  assert (HI1 : Inv3 s1) by by apply Inv3_ensured.
  destruct (Qgtb amt _); [by wp_step|]. repeat wp_step.
  destruct (fault e _); [done|]. repeat wp_step.
  set (t_out := mk_txn (tg_id u) "transfer_out" (- amt) (ReasonTo rec)
                  [("to", inject_Z rec)]).
  assert (HI2 : Inv3 (appended t_out s1)).
  { apply Inv3_appended_transfer; [done| |done]. intros Hty. discriminate Hty. }
  destruct (fault e _); [done|]. repeat wp_step.
  apply Inv3_committed, Inv3_executed; [done|].
  apply Inv3_appended_transfer; [|done|done]. intros Hty. discriminate Hty.
Qed.

Lemma order_start_inv3 u s : Inv3 s → wp (order_start u) (λ _, Inv3) Inv3 s.
Proof. intros HI. unfold order_start. inv3_auto. Qed.

Lemma order_message_handler_inv3 u text s :
  Inv3 s → wp (order_message_handler u text) (λ _, Inv3) Inv3 s.
Proof. intros HI. unfold order_message_handler. inv3_auto. Qed.

Lemma quiz_start_inv3 e u s : Inv3 s → wp (quiz_start e u) (λ _, Inv3) Inv3 s.
Proof. intros HI. unfold quiz_start, get_random_quiz_question. inv3_auto. Qed.

Lemma quiz_answer_cb_inv3 e u sel s :
  Inv3 s → wp (quiz_answer_cb e u sel) (λ _, Inv3) Inv3 s.
Proof. intros HI. unfold quiz_answer_cb. inv3_auto. Qed.

Lemma spin_start_inv3 e u s : Inv3 s → wp (spin_start e u) (λ _, Inv3) Inv3 s.
Proof. intros HI. unfold spin_start. inv3_auto. Qed.

Lemma admin_add_balance_cmd_inv3 e u args s :
  Inv3 s → wp (admin_add_balance_cmd e u args) (λ _, Inv3) Inv3 s.
Proof. intros HI. unfold admin_add_balance_cmd. inv3_auto. Qed.

Lemma main_inv3 s : Inv3 s → wp main (λ _, Inv3) Inv3 s.
Proof.
  intros HI. unfold main, setup_sample_questions, create_sample_missions.
  inv3_auto.
Qed.

Lemma check_and_apply_missions_for_user_inv3 e uid s :
  Inv3 s →
  wp (check_and_apply_missions_for_user e uid) (λ _, Inv3) Inv3 s.
Proof.
  intros HI. unfold check_and_apply_missions_for_user. repeat wp_step.
  eapply wp_mono; [apply (wp_for_each_inv Inv3); [|done] | | done].
  - intros m s' _ HI'. unfold mission_turn. inv3_auto.
  - intros ? s' HI'. cbv beta. wp_step. by apply Inv3_committed.
Qed.

Lemma daily_audit_job_inv3 e s :
  Inv3 s → wp (daily_audit_job e) (λ _, Inv3) Inv3 s.
Proof.
  intros HI. unfold daily_audit_job. repeat wp_step.
  apply wp_for_each_inv.
  - intros uid s' _ HI'. wp_step.
    eapply wp_mono;
      [by apply check_and_apply_missions_for_user_inv3 | done..].
  - by apply Inv3_committed, Inv3_executed.
Qed.

Lemma Inv3_initial_state : Inv3 initial_state.
Proof.
  unfold initial_state.
  apply wp_final, main_inv3, Inv3_open_db, transfers_positive_empty.
Qed.

Lemma handle_inv3 e a s : Inv3 s → Inv3 (handle e a s).2.
Proof.
  intros HI. apply wp_final.
  destruct a; cbn [handle]; try apply wp_run_;
    try (eapply wp_mono; [eauto using start_handler_inv3, balance_cmd_inv3,
      daily_bonus_cmd_inv3, send_start_inv3, send_recipient_inv3,
      send_amount_inv3, send_confirm_inv3, order_start_inv3,
      order_message_handler_inv3, quiz_start_inv3, quiz_answer_cb_inv3,
      spin_start_inv3, admin_add_balance_cmd_inv3 | done..]).
  - by apply daily_audit_job_inv3.
  - apply (main_inv3 (open_db (disk s))), Inv3_open_db, (inv3_disk _ HI).
Qed.

Lemma reachable_Inv3 s : reachable s → Inv3 s.
Proof.
  induction 1 as [|s e a Hs IH]; [apply Inv3_initial_state|].
  by apply handle_inv3.
Qed.

(** X21: the direction of transfers.  In every reachable state each event
    of type "transfer_out" in the ledger has a negative amount and each
    event of type "transfer_in" a positive one: no sequence of messages,
    taps, audits, restarts and storage faults makes a transfer pull money
    out of the recipient's account. *)
Theorem transfers_move_positive_amounts (s : state) (t : txn) :
  reachable s → t ∈ transactions (work s) →
  (t_type t = "transfer_out" → t_amount t < 0) ∧
  (t_type t = "transfer_in" → 0 < t_amount t).
Proof. intros Hs. apply (inv3_work _ (reachable_Inv3 s Hs)). Qed.

Lemma transfers_move_positive_amounts_witness :
  let s := after [(calm 100 5, SendConfirm alice "confirm_send")]
             alice_sends_to_bob in
  let t := mk_txn 2 "transfer_in" (500 # 100) (ReasonFrom 1)
             [("from", inject_Z 1)] in
  reachable s ∧ t ∈ transactions (work s) ∧
  (t_type t = "transfer_out" → t_amount t < 0) ∧
  (t_type t = "transfer_in" → 0 < t_amount t).
Proof.
  intros s t.
  assert (H : reachable s) by (do 3 apply reachable_after; constructor).
  assert (Ht : t ∈ transactions (work s)).
  { apply list_elem_of_In. vm_compute. right; right; left; reflexivity. }
  split; [exact H|]. split; [exact Ht|].
  exact (transfers_move_positive_amounts s t H Ht).
Defined.

(** ** The daily cap on transfers *)








(** ** [balance_cmd] and [ensure_user] *)


Lemma ensured_cases uid o r s :
  ensured uid o r s =
  match users (work s) !! uid with
  | None =>
      committed (executed (set_users
        (insert uid (names_of o (mk_user None None None 0 None 0 r 0 0)))) s)
  | Some _ =>
      match o with
      | Some o' =>
          committed (executed
            (set_users (alter (names_of (Some o')) uid)) s)
      | None => s
      end
  end.
Proof.
  unfold ensured, ensure_user, mbind, M_bind, bind, gets. cbn [fst snd].
  by destruct (users (work s) !! uid); [destruct o|].
Qed.



(** ** The seeded tables *)

Lemma Inv4_executed f s :
  quiz_questions (f (work s)) = quiz_questions (work s) →
  missions (f (work s)) = missions (work s) →
  Inv4 s → Inv4 (executed f s).
Proof.
  intros Hq Hm [[H1 H2] H3]. split; [|done].
  split; cbn [work executed]; congruence.
Qed.

Lemma Inv4_committed s : Inv4 s → Inv4 (committed s).
Proof. intros [H1 H2]. by split. Qed.

Lemma Inv4_appended t s : Inv4 s → Inv4 (appended t s).
Proof. intros [H1 H2]. by split. Qed.

Lemma Inv4_with_udata uid f s : Inv4 s → Inv4 (with_udata uid f s).
Proof. intros [H1 H2]. by split. Qed.

Lemma Inv4_with_calls uid l s : Inv4 s → Inv4 (with_calls uid l s).
Proof. intros [H1 H2]. by split. Qed.

Lemma Inv4_ensured user_id user_obj ref_by s :
  Inv4 s → Inv4 (ensured user_id user_obj ref_by s).
Proof.
  intros HI. rewrite ensured_cases.
  destruct (users (work s) !! user_id) as [u|]; [destruct user_obj|];
    [| done |]; by apply Inv4_committed, Inv4_executed.
Qed.

Create HintDb inv4.
#[local] Hint Resolve Inv4_executed Inv4_committed Inv4_appended
  Inv4_with_udata Inv4_with_calls Inv4_ensured : inv4.

Ltac inv4_auto := wp_go; eauto 12 with inv4.

Lemma start_handler_inv4 e u ref_id s :
  Inv4 s → wp (start_handler e u ref_id) (λ _, Inv4) Inv4 s.
Proof. intros HI. unfold start_handler. inv4_auto. Qed.

Lemma balance_cmd_inv4 u s : Inv4 s → wp (balance_cmd u) (λ _, Inv4) Inv4 s.
Proof. intros HI. unfold balance_cmd. inv4_auto. Qed.

Lemma daily_bonus_cmd_inv4 e u s :
  Inv4 s → wp (daily_bonus_cmd e u) (λ _, Inv4) Inv4 s.
Proof.
  intros HI.
  unfold daily_bonus_cmd, rate_limited, daily_bonus_body,
    can_receive_bonus_today, update_last_bonus_and_streak.
  inv4_auto.
Qed.

Lemma send_start_inv4 u s : Inv4 s → wp (send_start u) (λ _, Inv4) Inv4 s.
Proof. intros HI. unfold send_start. inv4_auto. Qed.

Lemma send_recipient_inv4 u rid s :
  Inv4 s → wp (send_recipient u rid) (λ _, Inv4) Inv4 s.
Proof. intros HI. unfold send_recipient. inv4_auto. Qed.

Lemma send_amount_inv4 u parsed s :
  Inv4 s → wp (send_amount u parsed) (λ _, Inv4) Inv4 s.
Proof. intros HI. unfold send_amount. inv4_auto. Qed.

Lemma send_confirm_inv4 e u data s :
  Inv4 s → wp (send_confirm e u data) (λ _, Inv4) Inv4 s.
Proof. intros HI. unfold send_confirm. inv4_auto. Qed.

Lemma order_start_inv4 u s : Inv4 s → wp (order_start u) (λ _, Inv4) Inv4 s.
Proof. intros HI. unfold order_start. inv4_auto. Qed.

Lemma order_message_handler_inv4 u text s :
  Inv4 s → wp (order_message_handler u text) (λ _, Inv4) Inv4 s.
Proof. intros HI. unfold order_message_handler. inv4_auto. Qed.

Lemma quiz_start_inv4 e u s : Inv4 s → wp (quiz_start e u) (λ _, Inv4) Inv4 s.
Proof. intros HI. unfold quiz_start, get_random_quiz_question. inv4_auto. Qed.

Lemma quiz_answer_cb_inv4 e u sel s :
  Inv4 s → wp (quiz_answer_cb e u sel) (λ _, Inv4) Inv4 s.
Proof. intros HI. unfold quiz_answer_cb. inv4_auto. Qed.

Lemma spin_start_inv4 e u s : Inv4 s → wp (spin_start e u) (λ _, Inv4) Inv4 s.
Proof. intros HI. unfold spin_start. inv4_auto. Qed.

Lemma admin_add_balance_cmd_inv4 e u args s :
  Inv4 s → wp (admin_add_balance_cmd e u args) (λ _, Inv4) Inv4 s.
Proof. intros HI. unfold admin_add_balance_cmd. inv4_auto. Qed.

Lemma check_and_apply_missions_for_user_inv4 e uid s :
  Inv4 s →
  wp (check_and_apply_missions_for_user e uid) (λ _, Inv4) Inv4 s.
Proof.
  intros HI. unfold check_and_apply_missions_for_user. repeat wp_step.
  eapply wp_mono; [apply (wp_for_each_inv Inv4); [|done] | | done].
  - intros m s' _ HI'. unfold mission_turn. inv4_auto.
  - intros ? s' HI'. cbv beta. wp_step. by apply Inv4_committed.
Qed.

Lemma daily_audit_job_inv4 e s :
  Inv4 s → wp (daily_audit_job e) (λ _, Inv4) Inv4 s.
Proof.
  intros HI. unfold daily_audit_job. repeat wp_step.
  apply wp_for_each_inv.
  - intros uid s' _ HI'. wp_step.
    eapply wp_mono;
      [by apply check_and_apply_missions_for_user_inv4 | done..].
  - by apply Inv4_committed, Inv4_executed.
Qed.

(** A start on a seeded database file seeds nothing. *)
Lemma main_seeded d : seeded d → main (open_db d) = (Done (), open_db d).
Proof.
  intros [Hq Hm]. apply wp_run_eq.
  unfold main, setup_sample_questions, create_sample_missions.
  repeat wp_step. cbn [open_db work]. rewrite Hq.
  rewrite bool_decide_eq_false_2 by done. repeat wp_step.
  cbn [open_db work]. rewrite Hm.
  rewrite bool_decide_eq_false_2 by done. by wp_step.
Qed.

Lemma Inv4_initial_state : Inv4 initial_state.
Proof. by split. Qed.

Lemma handle_inv4 e a s : Inv4 s → Inv4 (handle e a s).2.
Proof.
  intros HI. destruct a;
    try (apply wp_final; cbn [handle]; try apply wp_run_;
         eapply wp_mono; [eauto using start_handler_inv4, balance_cmd_inv4,
           daily_bonus_cmd_inv4, send_start_inv4, send_recipient_inv4,
           send_amount_inv4, send_confirm_inv4, order_start_inv4,
           order_message_handler_inv4, quiz_start_inv4, quiz_answer_cb_inv4,
           spin_start_inv4, admin_add_balance_cmd_inv4,
           daily_audit_job_inv4 | done..]).
  cbn [handle]. rewrite (main_seeded _ (inv4_disk _ HI)). cbn [snd].
  split; apply (inv4_disk _ HI).
Qed.

Lemma reachable_Inv4 s : reachable s → Inv4 s.
Proof.
  induction 1 as [|s e a Hs IH]; [apply Inv4_initial_state|].
  by apply handle_inv4.
Qed.

(** X25: the sample data is seeded once.  In every reachable state the
    tables of quiz questions and of missions, in the working database and
    on disk, hold exactly the three sample questions and the two sample
    missions: no handler adds, removes or alters a row, and a restart finds
    both tables filled, seeds nothing and starts from the committed
    database with empty in-memory dicts. *)
Theorem seed_data_never_duplicated (s : state) (e : env) :
  reachable s →
  quiz_questions (work s) = sample_questions ∧
  missions (work s) = sample_missions ∧
  handle e Restart s = (Done (), open_db (disk s)) ∧
  quiz_questions (disk s) = sample_questions ∧
  missions (disk s) = sample_missions.
Proof.
  intros Hs. destruct (reachable_Inv4 s Hs) as [[H1 H2] [H3 H4]].
  split; [done|]. split; [done|]. split; [|done].
  cbn [handle]. by apply main_seeded.
Qed.

Lemma seed_data_never_duplicated_witness :
  reachable alice_mission_paid ∧
  quiz_questions (work alice_mission_paid) = sample_questions ∧
  missions (work alice_mission_paid) = sample_missions ∧
  handle (calm 102 0) Restart alice_mission_paid =
    (Done (), open_db (disk alice_mission_paid)) ∧
  quiz_questions (disk alice_mission_paid) = sample_questions ∧
  missions (disk alice_mission_paid) = sample_missions.
Proof.
  assert (H : reachable alice_mission_paid).
  { apply reachable_after. constructor. }
  split; [exact H|].
  exact (seed_data_never_duplicated alice_mission_paid (calm 102 0) H).
Defined.

(** ** No overdraft *)

Lemma solvent_frame (f : db → db) d :
  transactions (f d) = transactions d →
  (∀ uid, get_balance (f d) uid == get_balance d uid) →
  solvent d → solvent (f d).
Proof.
  intros Ht Hb H Hrows uid. rewrite Hb. apply H.
  intros t. rewrite <- Ht. apply Hrows.
Qed.

Lemma solvent_untouched (f : db → db) d :
  transactions (f d) = transactions d → users (f d) = users d →
  solvent d → solvent (f d).
Proof.
  intros Ht Hu. apply solvent_frame; [done|].
  intros uid. unfold get_balance. by rewrite Hu.
Qed.

Lemma solvent_alter (h : user → user) uid d :
  (∀ u, balance (h u) = balance u) →
  solvent d → solvent (set_users (alter h uid) d).
Proof.
  intros Hh. apply solvent_frame; [done|].
  intros uid'. by rewrite get_balance_alter.
Qed.

Lemma solvent_fmap (h : user → user) d :
  (∀ u, balance (h u) = balance u) →
  solvent d → solvent (set_users (fmap h) d).
Proof.
  intros Hh. apply solvent_frame; [done|].
  intros uid'. by rewrite get_balance_fmap.
Qed.

Lemma solvent_ensure_row user_id user_obj ref_by d :
  solvent d → solvent (set_users (ensure_row user_id user_obj ref_by) d).
Proof.
  apply solvent_frame; [done|]. intros uid. apply get_balance_ensure_row.
Qed.

Lemma solvent_rows_before t d :
  (∀ t', t' ∈ transactions (ledger_append t d) →
         t_type t' ≠ "transfer_out" → 0 <= t_amount t') →
  ∀ t', t' ∈ transactions d → t_type t' ≠ "transfer_out" → 0 <= t_amount t'.
Proof.
  intros H t' Ht'. apply H. rewrite transactions_ledger_append.
  apply elem_of_app. by left.
Qed.

(** An event that is not the debit of a transfer. *)
Lemma solvent_credit t d :
  t_type t ≠ "transfer_out" → solvent d → solvent (ledger_append t d).
Proof.
  intros Hty H Hrows uid. rewrite get_balance_ledger_append.
  assert (Ht : 0 <= t_amount t).
  { apply Hrows; [|done]. rewrite transactions_ledger_append.
    apply elem_of_app. right. by apply list_elem_of_singleton. }
  pose proof (H (solvent_rows_before t d Hrows) uid) as Hb.
  destruct (bool_decide (t_user t = uid)).
  - rewrite <- (Qplus_0_l 0). by apply Qplus_le_compat.
  - by rewrite Qplus_0_r.
Qed.

(** A debit that the balance covers. *)
Lemma solvent_debit t X d :
  t_amount t == - X → X <= get_balance d (t_user t) →
  solvent d → solvent (ledger_append t d).
Proof.
  intros Hamt Hle H Hrows uid. rewrite get_balance_ledger_append.
  pose proof (H (solvent_rows_before t d Hrows) uid) as Hb.
  case_bool_decide as Heq.
  - subst uid. rewrite Hamt.
    apply (Qplus_le_compat _ _ (- X) (- X)) in Hle; [|apply Qle_refl].
    by rewrite Qplus_opp_r in Hle.
  - by rewrite Qplus_0_r.
Qed.

Lemma solvent_empty : solvent empty_db.
Proof. by intros _ uid. Qed.

Lemma Inv5_executed f s :
  (solvent (work s) → solvent (f (work s))) →
  Inv5 s → Inv5 (executed f s).
Proof. intros Hf [H1 H2]. split; [by apply Hf|done]. Qed.

Lemma Inv5_executed_untouched f s :
  transactions (f (work s)) = transactions (work s) →
  users (f (work s)) = users (work s) →
  Inv5 s → Inv5 (executed f s).
Proof. intros Ht Hu. apply Inv5_executed. by apply solvent_untouched. Qed.

Lemma Inv5_committed s : Inv5 s → Inv5 (committed s).
Proof. intros [H1 H2]. by split. Qed.

Lemma Inv5_appended t s :
  t_type t ≠ "transfer_out" → Inv5 s → Inv5 (appended t s).
Proof. intros Hty [H1 H2]. split; by apply solvent_credit. Qed.

Lemma Inv5_appended_debit t X s :
  t_amount t == - X → X <= get_balance (work s) (t_user t) →
  Inv5 s → Inv5 (appended t s).
Proof. intros Hamt Hle [H1 H2]. split; by apply (solvent_debit t X). Qed.

Lemma Inv5_with_udata uid f s : Inv5 s → Inv5 (with_udata uid f s).
Proof. intros [H1 H2]. by split. Qed.

Lemma Inv5_with_calls uid l s : Inv5 s → Inv5 (with_calls uid l s).
Proof. intros [H1 H2]. by split. Qed.

Lemma Inv5_ensured user_id user_obj ref_by s :
  Inv5 s → Inv5 (ensured user_id user_obj ref_by s).
Proof.
  intros HI. rewrite ensured_cases.
  destruct (users (work s) !! user_id) as [u|] eqn:Hu; [destruct user_obj|];
    [| done |]; apply Inv5_committed, Inv5_executed; [|done| |done].
  - apply solvent_alter. intros u'. apply balance_names_of.
  - apply solvent_frame; [done|]. intros uid.
    unfold get_balance. cbn [set_users users].
    destruct (decide (uid = user_id)) as [->|Hne].
    + rewrite lookup_insert_eq, Hu. by rewrite balance_names_of.
    + by rewrite lookup_insert_ne.
Qed.

Lemma Inv5_open_db d : solvent d → Inv5 (open_db d).
Proof. intros H. by split. Qed.

Create HintDb inv5.
#[local] Hint Resolve Inv5_executed_untouched Inv5_executed Inv5_committed
  Inv5_appended Inv5_with_udata Inv5_with_calls Inv5_ensured Inv5_open_db
  solvent_alter solvent_fmap : inv5.

Ltac inv5_auto := wp_go; eauto 12 with inv5.

Lemma start_handler_inv5 e u ref_id s :
  Inv5 s → wp (start_handler e u ref_id) (λ _, Inv5) Inv5 s.
Proof. intros HI. unfold start_handler. inv5_auto. Qed.

Lemma balance_cmd_inv5 u s : Inv5 s → wp (balance_cmd u) (λ _, Inv5) Inv5 s.
Proof. intros HI. unfold balance_cmd. inv5_auto. Qed.

Lemma daily_bonus_cmd_inv5 e u s :
  Inv5 s → wp (daily_bonus_cmd e u) (λ _, Inv5) Inv5 s.
Proof.
  intros HI.
  unfold daily_bonus_cmd, rate_limited, daily_bonus_body,
    can_receive_bonus_today, update_last_bonus_and_streak.
  inv5_auto.
Qed.

Lemma send_start_inv5 u s : Inv5 s → wp (send_start u) (λ _, Inv5) Inv5 s.
Proof. intros HI. unfold send_start. inv5_auto. Qed.

Lemma send_recipient_inv5 u rid s :
  Inv5 s → wp (send_recipient u rid) (λ _, Inv5) Inv5 s.
Proof. intros HI. unfold send_recipient. inv5_auto. Qed.

Lemma send_amount_inv5 u parsed s :
  Inv5 s → wp (send_amount u parsed) (λ _, Inv5) Inv5 s.
Proof. intros HI. unfold send_amount. inv5_auto. Qed.

Lemma send_confirm_inv5 e u data s :
  Inv5 s → wp (send_confirm e u data) (λ _, Inv5) Inv5 s.
Proof.
  intros HI. unfold send_confirm. cbv zeta.
  case_bool_decide; [by wp_step|]. repeat wp_step.
  destruct (send_recipient_ (udata_of s (tg_id u))) as [rec|]; [|by wp_step].
  destruct (send_amount_ (udata_of s (tg_id u))) as [amt|]; [|by wp_step].
  repeat wp_step.
  set (s1 := ensured rec None None s).
  assert (HI1 : Inv5 s1) by by apply Inv5_ensured.
  destruct (Qgtb amt _) eqn:Hgt; [by wp_step|].
  apply Qgtb_false_le in Hgt.
  repeat wp_step. destruct (fault e _); [done|]. repeat wp_step.
  set (t_out := mk_txn (tg_id u) "transfer_out" (- amt) (ReasonTo rec)
                  [("to", inject_Z rec)]).
  assert (HI2 : Inv5 (appended t_out s1)).
  { by apply (Inv5_appended_debit t_out amt). }
  destruct (fault e _); [done|]. repeat wp_step.
  apply Inv5_committed, Inv5_executed.
  - apply solvent_alter. intros x. apply set_daily_sent_balance.
  - by apply Inv5_appended.
Qed.

Lemma order_start_inv5 u s : Inv5 s → wp (order_start u) (λ _, Inv5) Inv5 s.
Proof. intros HI. unfold order_start. inv5_auto. Qed.

Lemma order_message_handler_inv5 u text s :
  Inv5 s → wp (order_message_handler u text) (λ _, Inv5) Inv5 s.
Proof. intros HI. unfold order_message_handler. inv5_auto. Qed.

Lemma quiz_start_inv5 e u s : Inv5 s → wp (quiz_start e u) (λ _, Inv5) Inv5 s.
Proof. intros HI. unfold quiz_start, get_random_quiz_question. inv5_auto. Qed.

Lemma quiz_answer_cb_inv5 e u sel s :
  Inv5 s → wp (quiz_answer_cb e u sel) (λ _, Inv5) Inv5 s.
Proof. intros HI. unfold quiz_answer_cb. inv5_auto. Qed.

Lemma spin_start_inv5 e u s : Inv5 s → wp (spin_start e u) (λ _, Inv5) Inv5 s.
Proof. intros HI. unfold spin_start. inv5_auto. Qed.

Lemma admin_add_balance_cmd_inv5 e u args s :
  Inv5 s → wp (admin_add_balance_cmd e u args) (λ _, Inv5) Inv5 s.
Proof. intros HI. unfold admin_add_balance_cmd. inv5_auto. Qed.

Lemma main_inv5 s : Inv5 s → wp main (λ _, Inv5) Inv5 s.
Proof.
  intros HI. unfold main, setup_sample_questions, create_sample_missions.
  inv5_auto.
Qed.

Lemma check_and_apply_missions_for_user_inv5 e uid s :
  Inv5 s →
  wp (check_and_apply_missions_for_user e uid) (λ _, Inv5) Inv5 s.
Proof.
  intros HI. unfold check_and_apply_missions_for_user. repeat wp_step.
  eapply wp_mono; [apply (wp_for_each_inv Inv5); [|done] | | done].
  - intros m s' _ HI'. unfold mission_turn. inv5_auto.
  - intros ? s' HI'. cbv beta. wp_step. by apply Inv5_committed.
Qed.

Lemma daily_audit_job_inv5 e s :
  Inv5 s → wp (daily_audit_job e) (λ _, Inv5) Inv5 s.
Proof.
  intros HI. unfold daily_audit_job. repeat wp_step.
  apply wp_for_each_inv.
  - intros uid s' _ HI'. wp_step.
    eapply wp_mono;
      [by apply check_and_apply_missions_for_user_inv5 | done..].
  - apply Inv5_committed, Inv5_executed; [|done]. by apply solvent_fmap.
Qed.

Lemma Inv5_initial_state : Inv5 initial_state.
Proof.
  unfold initial_state.
  apply wp_final, main_inv5, Inv5_open_db, solvent_empty.
Qed.

Lemma handle_inv5 e a s : Inv5 s → Inv5 (handle e a s).2.
Proof.
  intros HI. apply wp_final.
  destruct a; cbn [handle]; try apply wp_run_;
    try (eapply wp_mono; [eauto using start_handler_inv5, balance_cmd_inv5,
      daily_bonus_cmd_inv5, send_start_inv5, send_recipient_inv5,
      send_amount_inv5, send_confirm_inv5, order_start_inv5,
      order_message_handler_inv5, quiz_start_inv5, quiz_answer_cb_inv5,
      spin_start_inv5, admin_add_balance_cmd_inv5 | done..]).
  - by apply daily_audit_job_inv5.
  - apply (main_inv5 (open_db (disk s))), Inv5_open_db, (inv5_disk _ HI).
Qed.

Lemma reachable_Inv5 s : reachable s → Inv5 s.
Proof.
  induction 1 as [|s e a Hs IH]; [apply Inv5_initial_state|].
  by apply handle_inv5.
Qed.

(** X26: no overdraft.  In every reachable state, if every event of the
    ledger other than the debits of transfers carries an amount that is
    not negative (no negative admin adjustment, bonus or reward has been
    booked), then no account has a negative balance: whatever the order of
    messages, taps, audits, restarts and storage faults, transfers never
    take an account below zero. *)
Theorem no_overdraft (s : state) :
  reachable s →
  (∀ t, t ∈ transactions (work s) →
        t_type t ≠ "transfer_out" → 0 <= t_amount t) →
  ∀ uid, 0 <= get_balance (work s) uid.
Proof. intros Hs. apply (inv5_work _ (reachable_Inv5 s Hs)). Qed.

Lemma no_overdraft_witness :
  let s := after [(calm 100 5, SendConfirm alice "confirm_send")]
             alice_sends_to_bob in
  reachable s ∧
  (∀ t, t ∈ transactions (work s) →
        t_type t ≠ "transfer_out" → 0 <= t_amount t) ∧
  ∀ uid, 0 <= get_balance (work s) uid.
Proof.
  intros s.
  assert (H : reachable s) by (do 3 apply reachable_after; constructor).
  assert (Hrows : ∀ t, t ∈ transactions (work s) →
                       t_type t ≠ "transfer_out" → 0 <= t_amount t).
  { intros t Ht Hty. apply list_elem_of_In in Ht. vm_compute in Ht.
    destruct Ht as [<-|[<-|[<-|[]]]];
      first [by destruct Hty | by_computation]. }
  split; [exact H|]. split; [exact Hrows|]. exact (no_overdraft s H Hrows).
Defined.

(** ** The ledger in binary floating point *)

Lemma f64_stored_bind_double (f : float) :
  F64.stored (F64.bind_double f) =
  match Prim2SF f with
  | S754_nan => None
  | S754_zero _ => Some zero
  | _ => Some f
  end.
Proof.
  unfold F64.stored, F64.bind_double.
  destruct (Prim2SF f) eqn:Hf; by rewrite ?Hf.
Qed.

(** Adding either zero gives the same value, or a zero of either sign. *)
Lemma f64_add_zero (x y : float) (s : bool) :
  Prim2SF y = S754_zero s →
  (∃ s1 s2, Prim2SF (x + zero) = S754_zero s1 ∧
            Prim2SF (x + y) = S754_zero s2) ∨
  (x + zero = x + y)%float.
Proof.
  intros Hy.
  pose proof (add_spec x zero) as H0. pose proof (add_spec x y) as H1.
  rewrite Hy in H1. change (Prim2SF zero) with (S754_zero false) in H0.
  destruct (Prim2SF x) as [sx|sx| |sx mx ex] eqn:Hx.
  - left. exists (if sx then false else false), (if Bool.eqb sx s then sx else false).
    split.
    + rewrite H0. by destruct sx.
    + rewrite H1. by destruct sx, s.
  - right. apply Prim2SF_inj. by rewrite H0, H1.
  - right. apply Prim2SF_inj. by rewrite H0, H1.
  - right. apply Prim2SF_inj. by rewrite H0, H1.
Qed.

(** The sign that a stored zero has lost does not show in a sum that is
    stored. *)
Lemma f64_stored_sql_add_stored (b a : F64.real) :
  F64.stored (F64.sql_add b (F64.stored a)) = F64.stored (F64.sql_add b a).
Proof.
  destruct b as [x|], a as [y|]; try done.
  unfold F64.stored at 2. destruct (Prim2SF y) as [s|s| |s m e] eqn:Hy; try done.
  unfold F64.sql_add. rewrite !f64_stored_bind_double.
  destruct (f64_add_zero x y s Hy) as [(s1 & s2 & -> & ->)|Heq]; [done|].
  by rewrite Heq.
Qed.

Lemma f64_running_total_snoc (l : list F64.txn) (t : F64.txn) :
  F64.running_total (l ++ [t]) =
  F64.stored (F64.sql_add (F64.running_total l) (F64.t_amount t)).
Proof. unfold F64.running_total. by rewrite foldl_app. Qed.

Lemma f64_add_transaction_run e user_id ttype amount r meta s :
  F64.add_transaction e user_id ttype amount r meta s =
  if negb (F64.sqlite_integer user_id) then (Raised, s)
  else match F64.storage e (length (F64.transactions (F64.work s))) with
       | F64.Refuse => (Raised, s)
       | F64.RollBack => (Raised, F64.rolled_back s)
       | F64.Accept =>
           (Done (),
            F64.committed
              (F64.executed (F64.ledger_append user_id ttype amount r meta) s))
       end.
Proof.
  unfold F64.add_transaction. destruct (negb _); [done|].
  unfold mbind, F64.M_bind, F64.bind, F64.gets. cbn [fst snd].
  by destruct (F64.storage e _).
Qed.

Lemma f64_ensure_user_run user_id user_obj ref_by s :
  F64.ensure_user user_id user_obj ref_by s =
  if negb (F64.sqlite_integer user_id) then (Raised, s)
  else if bool_decide (F64.users (F64.work s) !! user_id = None) &&
          negb (default true (F64.sqlite_integer <$> ref_by))
       then (Raised, s)
       else (Done (), F64.ensured user_id user_obj ref_by s).
Proof.
  unfold F64.ensure_user, F64.ensured.
  destruct (negb (F64.sqlite_integer user_id)); [done|].
  unfold mbind, F64.M_bind, F64.bind, F64.gets. cbn [fst snd].
  assert (Hrow : ∀ d, F64.set_users (F64.ensure_row user_id user_obj ref_by) d =
            match F64.users d !! user_id with
            | None =>
                F64.set_users
                  (insert user_id
                     (F64.names_of user_obj
                        (F64.mk_user None None None (Some zero) ref_by))) d
            | Some _ =>
                match user_obj with
                | Some o =>
                    F64.set_users (alter (F64.names_of (Some o)) user_id) d
                | None => d
                end
            end).
  { intros [us txs sps]. unfold F64.set_users, F64.ensure_row. cbn [F64.users].
    by destruct (us !! user_id); [destruct user_obj|]. }
  unfold F64.executed. rewrite ?Hrow.
  destruct (F64.users (F64.work s) !! user_id) as [u|] eqn:Hu.
  - rewrite bool_decide_eq_false_2 by done. cbn [andb].
    by destruct user_obj.
  - rewrite bool_decide_eq_true_2 by done. cbn [andb].
    destruct (negb (default true _)); [done|]. by destruct user_obj.
Qed.

Lemma f64_balance_names_of o u :
  F64.balance (F64.names_of o u) = F64.balance u.
Proof. by destruct o. Qed.

Lemma f64_stored_balance_ensure_row user_id user_obj ref_by d uid :
  F64.stored_balance (F64.set_users (F64.ensure_row user_id user_obj ref_by) d)
    uid = F64.stored_balance d uid.
Proof.
  unfold F64.stored_balance, F64.ensure_row. cbn [F64.set_users F64.users].
  destruct (F64.users d !! user_id) as [u|] eqn:Hu.
  - destruct user_obj as [o|]; [|done].
    destruct (decide (user_id = uid)) as [->|Hne].
    + rewrite lookup_alter_eq, Hu. cbn [fmap option_fmap option_map].
      apply f64_balance_names_of.
    + by rewrite lookup_alter_ne.
  - destruct (decide (user_id = uid)) as [->|Hne].
    + rewrite lookup_insert_eq, Hu. by rewrite f64_balance_names_of.
    + by rewrite lookup_insert_ne.
Qed.

Lemma f64_stored_balance_ensured user_id user_obj ref_by s uid :
  F64.stored_balance (F64.work (F64.ensured user_id user_obj ref_by s)) uid =
  F64.stored_balance (F64.work s) uid.
Proof.
  unfold F64.ensured.
  destruct (F64.users (F64.work s) !! user_id), user_obj;
    try done; apply f64_stored_balance_ensure_row.
Qed.

Lemma f64_transactions_ensured user_id user_obj ref_by s :
  F64.transactions (F64.work (F64.ensured user_id user_obj ref_by s)) =
  F64.transactions (F64.work s).
Proof.
  unfold F64.ensured.
  by destruct (F64.users (F64.work s) !! user_id), user_obj.
Qed.

Lemma f64_lookup_insert_or_ignore_user uid uid' (us : gmap Z F64.user) :
  F64.insert_or_ignore_user uid us !! uid' =
  match us !! uid' with
  | Some u => Some u
  | None => if bool_decide (uid = uid')
            then Some (F64.mk_user None None None (Some zero) None)
            else None
  end.
Proof.
  unfold F64.insert_or_ignore_user.
  destruct (us !! uid) as [u|] eqn:Hu.
  - destruct (us !! uid') eqn:Hu'; [done|].
    case_bool_decide; [congruence|done].
  - case_bool_decide as Heq.
    + subst uid'. by rewrite lookup_insert_eq, Hu.
    + rewrite lookup_insert_ne by done. by destruct (us !! uid').
Qed.

Lemma f64_stored_balance_ledger_append user_id ttype amount r meta d uid :
  F64.stored_balance (F64.ledger_append user_id ttype amount r meta d) uid =
  if bool_decide (user_id = uid)
  then F64.stored (F64.sql_add (F64.stored_balance d uid)
                     (F64.bind_double amount))
  else F64.stored_balance d uid.
Proof.
  unfold F64.stored_balance, F64.ledger_append.
  cbn [F64.set_transactions F64.set_users F64.users].
  case_bool_decide as Heq.
  - subst uid. rewrite lookup_alter_eq, f64_lookup_insert_or_ignore_user.
    rewrite bool_decide_eq_true_2 by done.
    by destruct (F64.users d !! user_id).
  - rewrite lookup_alter_ne, f64_lookup_insert_or_ignore_user by done.
    rewrite bool_decide_eq_false_2 by done.
    by destruct (F64.users d !! uid).
Qed.

Lemma f64_list_events_ledger_append user_id ttype amount r meta d uid :
  F64.list_events (F64.ledger_append user_id ttype amount r meta d) uid =
  F64.list_events d uid ++
  (if bool_decide (user_id = uid)
   then [F64.mk_txn user_id ttype (F64.stored (F64.bind_double amount)) r meta]
   else []).
Proof.
  unfold F64.list_events, F64.ledger_append.
  cbn [F64.set_transactions F64.set_users F64.transactions].
  rewrite List.filter_app. cbn [List.filter F64.t_user].
  by destruct (bool_decide (user_id = uid)).
Qed.

Lemma f64_ledger_ok_append user_id ttype amount r meta d :
  F64.ledger_ok d →
  F64.ledger_ok (F64.ledger_append user_id ttype amount r meta d).
Proof.
  intros H uid.
  rewrite f64_stored_balance_ledger_append, f64_list_events_ledger_append.
  case_bool_decide as Heq.
  - rewrite f64_running_total_snoc. cbn [F64.t_amount].
    by rewrite f64_stored_sql_add_stored, H.
  - rewrite app_nil_r. apply H.
Qed.

Lemma f64_ledger_ok_ensure_row user_id user_obj ref_by d :
  F64.ledger_ok d →
  F64.ledger_ok (F64.set_users (F64.ensure_row user_id user_obj ref_by) d).
Proof.
  intros H uid. rewrite f64_stored_balance_ensure_row. apply H.
Qed.

Lemma f64_grown_written l (f : F64.db → F64.db) s :
  (F64.ledger_ok (F64.work s) → F64.ledger_ok (f (F64.work s))) →
  F64.transactions (F64.work s) `prefix_of` F64.transactions (f (F64.work s)) →
  F64.grown_from l s → F64.grown_from l (F64.committed (F64.executed f s)).
Proof.
  intros Hf Hpre [[H1 H2] H3]. split; [split; [by apply Hf|done]|].
  by trans (F64.transactions (F64.work s)).
Qed.

Lemma f64_grown_rolled_back l s :
  F64.grown_from l s → F64.grown_from l (F64.rolled_back s).
Proof.
  intros [[H1 H2] H3]. unfold F64.rolled_back. rewrite H2.
  by split; [split|].
Qed.

Lemma f64_grown_ensured l user_id user_obj ref_by s :
  F64.grown_from l s → F64.grown_from l (F64.ensured user_id user_obj ref_by s).
Proof.
  intros HI. unfold F64.ensured.
  destruct (F64.users (F64.work s) !! user_id), user_obj; try done;
    (apply f64_grown_written; [apply f64_ledger_ok_ensure_row|done..]).
Qed.

Lemma f64_ensure_user_grown l user_id user_obj ref_by s :
  F64.grown_from l s →
  F64.grown_from l (F64.ensure_user user_id user_obj ref_by s).2.
Proof.
  intros HI. rewrite f64_ensure_user_run.
  destruct (negb _); [done|]. destruct (_ && _); [done|].
  by apply f64_grown_ensured.
Qed.

Lemma f64_add_transaction_grown l e user_id ttype amount r meta s :
  F64.grown_from l s →
  F64.grown_from l (F64.add_transaction e user_id ttype amount r meta s).2.
Proof.
  intros HI. rewrite f64_add_transaction_run.
  destruct (negb _); [done|]. destruct (F64.storage e _); cbn [snd].
  - apply f64_grown_written; [apply f64_ledger_ok_append| |done].
    by apply prefix_app_r.
  - done.
  - by apply f64_grown_rolled_back.
Qed.

Lemma f64_bind_final {A B} (m : F64.M A) (k : A → F64.M B) (P : F64.state → Prop) s :
  P (m s).2 → (∀ a s', P s' → P (k a s').2) → P ((m ≫= k) s).2.
Proof.
  intros Hm Hk. unfold mbind, F64.M_bind, F64.bind.
  destruct (m s) as [[a|] s']; [by apply Hk | done].
Qed.

Lemma f64_get_balance_state user_id s : (F64.get_balance user_id s).2 = s.
Proof.
  unfold F64.get_balance. destruct (negb _); [done|].
  unfold mbind, F64.M_bind, F64.bind, F64.gets. cbn [fst snd].
  destruct (F64.users (F64.work s) !! user_id) as [u|]; [|done].
  by destruct (F64.balance u).
Qed.

Lemma f64_handle_grown l e a s :
  F64.grown_from l s → F64.grown_from l (F64.handle e a s).2.
Proof.
  intros HI. destruct a; cbn [F64.handle].
  - by apply f64_ensure_user_grown.
  - by apply f64_add_transaction_grown.
  - unfold F64.run_, F64.balance_cmd.
    apply f64_bind_final; [|done].
    apply f64_bind_final; [by apply f64_ensure_user_grown|].
    intros _ s1 HI1. apply f64_bind_final.
    + by rewrite f64_get_balance_state.
    + intros bal s2 HI2. by destruct (F64.safe_round bal).
  - unfold F64.run_, F64.admin_add_balance_cmd.
    apply f64_bind_final; [|done].
    destruct args as [| |uid amt]; [done..|].
    apply f64_bind_final; [by apply f64_ensure_user_grown|].
    intros _ s1 HI1. apply f64_bind_final; [|done].
    by apply f64_add_transaction_grown.
  - destruct HI as [[H1 H2] H3]. by split; [split|].
  - by apply f64_grown_rolled_back.
  - destruct HI as [[H1 H2] H3].
    cbn [snd F64.open_db]. rewrite H2. by split; [split|].
Qed.

Lemma f64_after_grown l evs s :
  F64.grown_from l s → F64.grown_from l (F64.after evs s).
Proof.
  revert s. induction evs as [|[e a] evs IH]; intros s H; [done|].
  apply IH. by apply f64_handle_grown.
Qed.

Lemma f64_reachable_Inv s : F64.reachable s → F64.Inv s.
Proof.
  induction 1 as [|s e a _ IH].
  - split; [|done]. by intros uid.
  - by apply (f64_handle_grown [] e a s); [split; [|apply prefix_nil]].
Qed.

Lemma f64_reachable_after evs s :
  F64.reachable s → F64.reachable (F64.after evs s).
Proof.
  revert s. induction evs as [|[e a] evs IH]; intros s Hs; [done|].
  apply IH. by apply F64.reachable_step.
Qed.

Lemma f64_get_balance_run uid s :
  F64.sqlite_integer uid = true →
  F64.get_balance uid s =
  (match F64.stored_balance (F64.work s) uid with
   | Some x => Done x
   | None => Raised
   end, s).
Proof.
  intros Hid. unfold F64.get_balance, F64.stored_balance. rewrite Hid.
  cbn [negb]. unfold mbind, F64.M_bind, F64.bind, F64.gets. cbn [fst snd].
  destruct (F64.users (F64.work s) !! uid) as [u|]; [|done].
  by destruct (F64.balance u).
Qed.


(** C1, as amended: in every reachable state the balance cached in the
    users row of every account (0.0 for an account without a row) is the
    running total of the amounts of the account's transactions in binary
    floating point: the amounts added one at a time in ledger order,
    starting from 0.0, each sum rounded to a double as SQLite's REAL
    addition rounds it, and NULL from the first nan on, be it an amount or
    a sum.  For an id that fits SQLite's INTEGER, [get_balance] returns
    this total, and raises when it is NULL.
    Every operation leads to a state where this holds again, and whatever
    operations follow, the transaction rows recorded so far stay in place
    and unchanged, the new rows coming after them. *)
Theorem balance_is_running_total (s : F64.state) :
  F64.reachable s →
  (∀ uid, F64.stored_balance (F64.work s) uid =
          F64.running_total (F64.list_events (F64.work s) uid)) ∧
  (∀ uid, F64.sqlite_integer uid = true →
     F64.get_balance uid s =
     (match F64.running_total (F64.list_events (F64.work s) uid) with
      | Some x => Done x
      | None => Raised
      end, s)) ∧
  (∀ evs,
     let s' := F64.after evs s in
     (∀ uid, F64.stored_balance (F64.work s') uid =
             F64.running_total (F64.list_events (F64.work s') uid)) ∧
     ∃ new, F64.transactions (F64.work s') =
            F64.transactions (F64.work s) ++ new).
Proof.
  intros Hs. assert (HI := f64_reachable_Inv s Hs).
  split; [apply (F64.inv_work _ HI)|]. split.
  - intros uid Hid. rewrite f64_get_balance_run by done.
    by rewrite (F64.inv_work _ HI uid).
  - intros evs s'.
    destruct (f64_after_grown (F64.transactions (F64.work s)) evs s)
      as [HI' Hpre]; [by split|].
    split; [apply (F64.inv_work _ HI')|exact Hpre].
Qed.

Lemma balance_is_running_total_witness :
  F64.reachable F64.tenths_received ∧
  F64.stored_balance (F64.work F64.tenths_received) 1 =
    Some 0x1.3333333333334p-2%float ∧
  F64.get_balance 1 F64.tenths_received =
    (Done 0x1.3333333333334p-2%float, F64.tenths_received).
Proof.
  assert (H : F64.reachable F64.tenths_received).
  { apply f64_reachable_after. constructor. }
  destruct (balance_is_running_total _ H) as (H1 & H2 & _).
  split; [exact H|]. split.
  - rewrite (H1 1%Z). by vm_compute.
  - rewrite (H2 1%Z) by done. by vm_compute.
Defined.

(** C1, as stated, fails.  After /addbal 1 nan the balance of account 1 is
    NULL and [get_balance] raises.  After /addbal 1 1e16, /addbal 1 1 and
    /addbal 1 -1e16 the balance is 0.0, while the three amounts recorded
    for the account sum to 1: the 1 was lost when it was added to 1e16. *)
Lemma balance_not_sum_of_amounts :
  (F64.reachable F64.nan_booked ∧
   F64.t_amount <$> F64.list_events (F64.work F64.nan_booked) 1 = [None] ∧
   F64.stored_balance (F64.work F64.nan_booked) 1 = None ∧
   F64.get_balance 1 F64.nan_booked = (Raised, F64.nan_booked)) ∧
  (F64.reachable F64.small_amount_absorbed ∧
   F64.t_amount <$> F64.list_events (F64.work F64.small_amount_absorbed) 1 =
     [Some 0x1.1c37937e08p+53; Some 1; Some (-0x1.1c37937e08p+53)]%float ∧
   F64.get_balance 1 F64.small_amount_absorbed =
     (Done 0%float, F64.small_amount_absorbed) ∧
   F64.exact (Some 0%float) = Some 0 ∧
   ∃ q, F64.exact_sum (F64.list_events (F64.work F64.small_amount_absorbed) 1)
        = Some q ∧ q == 1 ∧ ¬ q == 0).
Proof.
  split.
  - split; [apply f64_reachable_after; constructor|].
    repeat apply conj; by vm_compute.
  - split; [apply f64_reachable_after; constructor|].
    split; [by vm_compute|]. split; [by vm_compute|]. split; [by vm_compute|].
    eexists. split; [by vm_compute|]. split; by vm_compute.
Qed.



(** X23: the balance command in binary floating point.  For a sender
    whose id fits SQLite's INTEGER, in every reachable state: /balance
    gives the sender a row in [users] if there was none, appends nothing to
    the ledger and changes no balance; it answers with [safe_round] of the
    running total of the sender's amounts, and raises instead when that
    total is NULL ([TypeError] in [get_balance]) or when [safe_round]
    raises on it (an infinite total, or one too large to be multiplied by
    100). *)
Theorem balance_cmd_shows_running_total (u : tg_user) (s : F64.state) :
  F64.reachable s →
  F64.sqlite_integer (tg_id u) = true →
  let s' := F64.ensured (tg_id u) (Some u) None s in
  F64.balance_cmd u s =
    (match F64.running_total (F64.list_events (F64.work s) (tg_id u)) with
     | Some bal =>
         match F64.safe_round bal with
         | Some shown => Done (F64.ReplyBalance shown)
         | None => Raised
         end
     | None => Raised
     end, s') ∧
  is_Some (F64.users (F64.work s') !! tg_id u) ∧
  F64.transactions (F64.work s') = F64.transactions (F64.work s) ∧
  ∀ uid, F64.stored_balance (F64.work s') uid =
         F64.stored_balance (F64.work s) uid.
Proof.
  intros Hs Hid s'.
  assert (HI := f64_reachable_Inv s Hs).
  split.
  { unfold F64.balance_cmd, mbind, F64.M_bind, F64.bind.
    rewrite f64_ensure_user_run, Hid. cbn [negb default fmap option_fmap
      option_map andb]. rewrite andb_false_r. fold s'.
    rewrite f64_get_balance_run by done.
    unfold s' at 1. rewrite f64_stored_balance_ensured.
    rewrite (F64.inv_work _ HI (tg_id u)).
    destruct (F64.running_total _) as [bal|]; [|done].
    by destruct (F64.safe_round bal). }
  split.
  { unfold s', F64.ensured, F64.ensure_row.
    destruct (F64.users (F64.work s) !! tg_id u) as [row|] eqn:Hrow;
      cbn [F64.committed F64.executed F64.work F64.set_users F64.users];
      rewrite Hrow.
    - rewrite lookup_alter_eq, Hrow. by eexists.
    - rewrite lookup_insert_eq. by eexists. }
  split; [apply f64_transactions_ensured|].
  intros uid. apply f64_stored_balance_ensured.
Qed.

Lemma balance_cmd_shows_running_total_witness :
  let s' := F64.ensured 1 (Some alice) None F64.tenths_received in
  F64.reachable F64.tenths_received ∧
  F64.balance_cmd alice F64.tenths_received =
    (Done (F64.ReplyBalance 0x1.3333333333333p-2%float), s') ∧
  F64.balance_cmd alice F64.nan_booked =
    (Raised, F64.ensured 1 (Some alice) None F64.nan_booked).
Proof.
  intros s'.
  assert (H : F64.reachable F64.tenths_received).
  { apply f64_reachable_after. constructor. }
  assert (H' : F64.reachable F64.nan_booked).
  { apply f64_reachable_after. constructor. }
  split; [exact H|]. split.
  - destruct (balance_cmd_shows_running_total alice _ H) as [Hrun _];
      [done|].
    rewrite Hrun. by vm_compute.
  - destruct (balance_cmd_shows_running_total alice _ H') as [Hrun _];
      [done|].
    rewrite Hrun. by vm_compute.
Defined.

(** ** [safe_round] on doubles *)

Lemma f64_same_double_eq (x y : float) : F64.same_double x y = true → x = y.
Proof.
  unfold F64.same_double. intros H. apply Prim2SF_inj.
  destruct (Prim2SF x) as [s|s| |s m e], (Prim2SF y) as [s'|s'| |s' m' e'];
    try discriminate H; try reflexivity.
  - by apply Bool.eqb_prop in H as ->.
  - by apply Bool.eqb_prop in H as ->.
  - apply andb_prop in H as [H He]. apply andb_prop in H as [Hs Hm].
    apply Bool.eqb_prop in Hs as ->. apply Pos.eqb_eq in Hm as ->.
    by apply Z.eqb_eq in He as ->.
Qed.

(** X1: [safe_round] on doubles.  An amount of two decimals from 0.00 to
    20.00, the cap on a daily bonus, read as the nearest double, comes back
    as it is.  A decimal with more places is not rounded half up: 1.005
    gives 1.0 and 0.285 gives 0.28, because the doubles nearest to them lie
    below the half; 4468.285 gives 4468.29, 0.125 gives 0.13, and -0.005
    gives 0.0.  [safe_round] raises on nan, on the infinities, and on 1e308,
    whose hundredfold overflows. *)
Theorem safe_round_on_doubles :
  (∀ n : Z, (0 ≤ n ≤ 2000)%Z →
     F64.safe_round (F64.of_cents n) = Some (F64.of_cents n)) ∧
  F64.safe_round 0x1.0147ae147ae14p+0 = Some 1%float ∧
  F64.safe_round 0x1.23d70a3d70a3dp-2 = Some 0x1.1eb851eb851ecp-2%float ∧
  F64.safe_round 0x1.17448f5c28f5cp+12 = Some 0x1.1744a3d70a3d7p+12%float ∧
  F64.safe_round 0.125 = Some 0x1.0a3d70a3d70a4p-3%float ∧
  F64.safe_round (-0x1.47ae147ae147bp-8) = Some 0%float ∧
  F64.safe_round nan = None ∧
  F64.safe_round infinity = None ∧
  F64.safe_round neg_infinity = None ∧
  F64.safe_round 0x1.1ccf385ebc8a0p+1023 = None.
Proof.
  split; [|repeat apply conj; by vm_compute].
  assert (H : forallb (λ n, F64.safe_round_fixes (F64.of_cents n))
                (seqZ 0 2001) = true) by (vm_compute; reflexivity).
  intros n Hn. rewrite forallb_forall in H.
  specialize (H n). unfold F64.safe_round_fixes in H.
  destruct (F64.safe_round (F64.of_cents n)) as [y|].
  - f_equal. apply f64_same_double_eq, H.
    apply list_elem_of_In, elem_of_seqZ. lia.
  - exfalso. assert (false = true); [|done].
    apply H, list_elem_of_In, elem_of_seqZ. lia.
Qed.

Lemma safe_round_on_doubles_witness :
  F64.safe_round (F64.of_cents 1999) = Some (F64.of_cents 1999).
Proof.
  destruct safe_round_on_doubles as [H _]. apply (H 1999%Z). lia.
Defined.

(** ** The free spin and the two clocks *)

Lemma f64_spins_ensured user_id user_obj ref_by s :
  F64.spins (F64.work (F64.ensured user_id user_obj ref_by s)) =
  F64.spins (F64.work s).
Proof.
  unfold F64.ensured.
  by destruct (F64.users (F64.work s) !! user_id), user_obj.
Qed.

(** The state a paid spin leaves. *)
Lemma f64_spin_start_run e u s :
  F64.sqlite_integer (tg_id u) = true →
  let uid := tg_id u in
  let reward := F64.spin_once (F64.spin_draw e) in
  let s0 := F64.ensured uid (Some u) None s in
  let s1 :=
    F64.committed
      (F64.executed
         (F64.set_spins
            (λ l, l ++ [F64.mk_spin uid (F64.stored (F64.bind_double reward))
                          (F64.utc_today e)]))
         (F64.committed
            (F64.executed
               (F64.ledger_append uid "spin" reward ReasonDailySpin
                  [("reward", F64.JFloat reward)]) s0))) in
  F64.spin_start e u s =
  if bool_decide (1 ≤ F64.spins_on (F64.work s) uid (F64.today e))%nat
  then (Done F64.ReplySpinUsed, s0)
  else match F64.storage e (length (F64.transactions (F64.work s))) with
       | F64.Refuse => (Raised, s0)
       | F64.RollBack => (Raised, F64.rolled_back s0)
       | F64.Accept =>
           (if (0 <? reward)%float
            then match F64.stored_balance (F64.work s1) uid with
                 | Some bal =>
                     match F64.safe_round bal with
                     | Some shown => Done (F64.ReplySpinWon reward shown)
                     | None => Raised
                     end
                 | None => Raised
                 end
            else Done F64.ReplySpinNothing, s1)
       end.
Proof.
  intros Hid uid reward s0 s1. subst uid.
  unfold F64.spin_start, mbind, F64.M_bind, F64.bind.
  rewrite f64_ensure_user_run, Hid.
  cbn [negb default fmap option_fmap option_map andb].
  rewrite andb_false_r. fold s0.
  unfold F64.gets at 1. cbn [fst snd].
  assert (Hon : F64.spins_on (F64.work s0) (tg_id u) (F64.today e) =
                F64.spins_on (F64.work s) (tg_id u) (F64.today e)).
  { unfold F64.spins_on, s0. by rewrite f64_spins_ensured. }
  rewrite Hon. destruct (bool_decide (1 ≤ _)%nat); [done|].
  rewrite f64_add_transaction_run, Hid. cbn [negb].
  unfold s0 at 1. rewrite f64_transactions_ensured.
  destruct (F64.storage e _); [|done..].
  unfold F64.execute, F64.db_commit. fold reward. fold s0. fold s1.
  destruct (0 <? reward)%float; [|done].
  rewrite f64_get_balance_run by done.
  destruct (F64.stored_balance (F64.work s1) (tg_id u)) as [bal|]; [|done].
  by destruct (F64.safe_round bal).
Qed.

(** X4: the free spin and the two clocks.  [spin_start] looks for a row of
    the account in [spins] whose UTC date is the local date of today, and
    the row it writes carries the UTC date of the moment.  For a sender
    whose id fits SQLite's INTEGER, without such a row and with the append
    accepted, the spin appends one spin event with the drawn reward,
    records one row under the UTC date and commits; it answers with the
    reward and the rounded balance, or that nothing was won, and raises
    after the commit when the balance cannot be shown.  A further /spin
    whose local date is that UTC date is answered "already used" and
    changes neither the ledger nor [spins].  A further /spin whose local
    date is another one, the same local day included while the UTC date
    differs from it, is paid again. *)
Theorem spin_blocked_on_utc_date (e1 e2 : F64.env) (u : tg_user)
    (s : F64.state) :
  F64.sqlite_integer (tg_id u) = true →
  F64.spins_on (F64.work s) (tg_id u) (F64.today e1) = 0%nat →
  F64.storage e1 (length (F64.transactions (F64.work s))) = F64.Accept →
  let uid := tg_id u in
  let reward := F64.spin_once (F64.spin_draw e1) in
  let paid e :=
    F64.mk_txn uid "spin"
      (F64.stored (F64.bind_double (F64.spin_once (F64.spin_draw e))))
      ReasonDailySpin
      [("reward", F64.JFloat (F64.spin_once (F64.spin_draw e)))] in
  let s1 := (F64.spin_start e1 u s).2 in
  (F64.spin_start e1 u s).1 =
    (if (0 <? reward)%float
     then match F64.stored_balance (F64.work s1) uid with
          | Some bal =>
              match F64.safe_round bal with
              | Some shown => Done (F64.ReplySpinWon reward shown)
              | None => Raised
              end
          | None => Raised
          end
     else Done F64.ReplySpinNothing) ∧
  F64.transactions (F64.work s1) = F64.transactions (F64.work s) ++ [paid e1] ∧
  F64.spins (F64.work s1) =
    F64.spins (F64.work s) ++
    [F64.mk_spin uid (F64.stored (F64.bind_double reward))
       (F64.utc_today e1)] ∧
  F64.stored_balance (F64.work s1) uid =
    F64.stored (F64.sql_add (F64.stored_balance (F64.work s) uid)
                  (F64.bind_double reward)) ∧
  F64.disk s1 = F64.work s1 ∧
  (F64.today e2 = F64.utc_today e1 →
   let s2 := (F64.spin_start e2 u s1).2 in
   (F64.spin_start e2 u s1).1 = Done F64.ReplySpinUsed ∧
   F64.transactions (F64.work s2) = F64.transactions (F64.work s1) ∧
   F64.spins (F64.work s2) = F64.spins (F64.work s1) ∧
   ∀ a, F64.stored_balance (F64.work s2) a =
        F64.stored_balance (F64.work s1) a) ∧
  (F64.today e2 ≠ F64.utc_today e1 →
   F64.spins_on (F64.work s) uid (F64.today e2) = 0%nat →
   F64.storage e2 (length (F64.transactions (F64.work s1))) = F64.Accept →
   let s2 := (F64.spin_start e2 u s1).2 in
   F64.transactions (F64.work s2) =
     F64.transactions (F64.work s) ++ [paid e1; paid e2]).
Proof.
  intros Hid Hnone Hacc uid reward paid s1. subst uid.
  pose proof (f64_spin_start_run e1 u s Hid) as Hrun. cbv zeta in Hrun.
  fold reward in Hrun. rewrite Hnone, Hacc in Hrun.
  rewrite bool_decide_eq_false_2 in Hrun by lia.
  set (s0 := F64.ensured (tg_id u) (Some u) None s) in Hrun.
  set (sa := F64.committed (F64.executed
               (F64.ledger_append (tg_id u) "spin" reward ReasonDailySpin
                  [("reward", F64.JFloat reward)]) s0)) in Hrun.
  set (sb := F64.committed (F64.executed (F64.set_spins _) sa)) in Hrun.
  assert (Hs1 : s1 = sb) by (unfold s1; by rewrite Hrun).
  assert (Htx : F64.transactions (F64.work sb) =
                F64.transactions (F64.work s) ++ [paid e1]).
  { unfold sb, sa. cbn [F64.committed F64.executed F64.work F64.set_spins
      F64.transactions F64.ledger_append F64.set_transactions F64.set_users].
    unfold s0. by rewrite f64_transactions_ensured. }
  assert (Hsp : F64.spins (F64.work sb) =
                F64.spins (F64.work s) ++
                [F64.mk_spin (tg_id u) (F64.stored (F64.bind_double reward))
                   (F64.utc_today e1)]).
  { unfold sb, sa. cbn [F64.committed F64.executed F64.work F64.set_spins
      F64.spins F64.ledger_append F64.set_transactions F64.set_users].
    unfold s0. by rewrite f64_spins_ensured. }
  assert (Hon : ∀ day, F64.spins_on (F64.work sb) (tg_id u) day =
                  (F64.spins_on (F64.work s) (tg_id u) day +
                   if bool_decide (F64.utc_today e1 = day) then 1 else 0)%nat).
  { intros day. unfold F64.spins_on at 1. rewrite Hsp.
    rewrite List.filter_app, length_app.
    cbn [List.filter F64.sp_user F64.sp_date].
    destruct (decide (F64.utc_today e1 = day)) as [Hd|Hd].
    - rewrite !bool_decide_eq_true_2 by done. reflexivity.
    - rewrite !bool_decide_eq_false_2 by tauto. reflexivity. }
  rewrite Hs1. split; [by rewrite Hrun|]. split; [exact Htx|].
  split; [exact Hsp|]. split.
  { unfold sb, sa. cbn [F64.committed F64.executed F64.work].
    change (F64.stored_balance (F64.set_spins ?f ?d) (tg_id u))
      with (F64.stored_balance d (tg_id u)).
    rewrite f64_stored_balance_ledger_append.
    rewrite bool_decide_eq_true_2 by done.
    unfold s0. by rewrite f64_stored_balance_ensured. }
  split; [done|].
  pose proof (f64_spin_start_run e2 u sb Hid) as Hrun2. cbv zeta in Hrun2.
  rewrite Hon in Hrun2. split.
  - intros Hday.
    rewrite (bool_decide_eq_true_2 (F64.utc_today e1 = F64.today e2))
      in Hrun2 by done.
    rewrite bool_decide_eq_true_2 in Hrun2 by lia.
    rewrite Hrun2. cbn [fst snd]. split; [done|].
    split; [apply f64_transactions_ensured|].
    split; [apply f64_spins_ensured|].
    intros a. apply f64_stored_balance_ensured.
  - intros Hday Hnone2 Hacc2.
    rewrite (bool_decide_eq_false_2 (F64.utc_today e1 = F64.today e2))
      in Hrun2 by done.
    rewrite Hnone2, Hacc2 in Hrun2.
    rewrite bool_decide_eq_false_2 in Hrun2 by lia.
    rewrite Hrun2. cbn [snd].
    cbn [F64.committed F64.executed F64.work F64.set_spins
      F64.transactions F64.ledger_append F64.set_transactions F64.set_users].
    rewrite f64_transactions_ensured, Htx. by rewrite <- app_assoc.
Qed.

Lemma spin_blocked_on_utc_date_witness :
  let s1 := (F64.spin_start F64.calm alice F64.initial_state).2 in
  let t1 := (F64.spin_start F64.after_midnight_east alice
               F64.initial_state).2 in
  let won := F64.mk_txn 1 "spin" (Some 0x1.999999999999ap-3%float)
               ReasonDailySpin
               [("reward", F64.JFloat 0x1.999999999999ap-3)] in
  F64.spin_start F64.calm alice F64.initial_state =
    (Done (F64.ReplySpinWon 0x1.999999999999ap-3 0x1.999999999999ap-3), s1) ∧
  (F64.spin_start F64.calm alice s1).1 = Done F64.ReplySpinUsed ∧
  F64.transactions (F64.work
    (F64.spin_start F64.after_midnight_east alice t1).2) = [won; won].
Proof.
  intros s1 t1 won.
  destruct (spin_blocked_on_utc_date F64.calm F64.calm alice
              F64.initial_state) as (H1 & _ & _ & _ & _ & H2 & _);
    [done..|].
  destruct (spin_blocked_on_utc_date F64.after_midnight_east
              F64.after_midnight_east alice F64.initial_state)
    as (_ & _ & _ & _ & _ & _ & H3); [done..|].
  split; [|split].
  - rewrite (surjective_pairing (F64.spin_start _ _ _)). fold s1.
    rewrite H1. by vm_compute.
  - by apply H2.
  - unfold t1. rewrite H3; [by vm_compute|done..].
Defined.
